(** * United trip calculator: the calculation and its form schema

    A shallow embedding of [src/components/trip-calculator.tsx]:
    [calculateTripValue] (lines 88-137), [formSchema] (lines 21-33) and
    the form that ties them together: its default values, the fields it
    shows for a position, the aircraft list and the submission.

    JavaScript numbers are IEEE 754 binary64 values.  They are modelled by
    Rocq's primitive [float], which is the same format with the same
    round-to-nearest-even arithmetic, so the definitions below compute
    what the TypeScript computes, bit for bit.  Facts about all doubles
    are proved through [Prim2SF], the standard library's specification of
    the primitive operations.

    The file has the definitions first (the JavaScript operators, the
    records, [calculateTripValue], the schema and its combinators, the
    vocabulary of the properties, the sample inputs and the form), then
    the facts about binary64, about JavaScript numbers, about two more
    years of seniority, about the schema and about the form, and last the
    properties themselves: C1 to C10,
    and after them X1 to X18 on what C1 to C10 leave open. *)

From Stdlib Require Import ZArith Bool List Lia.
From Stdlib Require Import Floats Uint63.
From stdpp Require Import base strings gmap.
Import ListNotations.

Set Warnings "-inexact-float".

Open Scope string_scope.

(** ** JavaScript numbers and the operators the component uses *)

Module JS.

Definition number := float.

(** [Math.floor]: the largest whole number not above [x]; [NaN], the
    infinities and both zeros are returned unchanged.  A finite non-zero
    double is [(-1)^s * m * 2^e]; for [e >= 0] it is whole already,
    otherwise its whole part is [m >> -e], and a negative value with a
    fractional part goes one further down. *)
Definition Math_floor (x : number) : number :=
  match Prim2SF x with
  | S754_finite s m e =>
      if (0 <=? e)%Z then x
      else
        let q := Z.shiftr (Zpos m) (- e) in
        let whole := (Z.shiftl q (- e) =? Zpos m)%Z in
        if s then (- of_uint63 (Uint63.of_Z (if whole then q else q + 1)))%float
        else of_uint63 (Uint63.of_Z q)
  | _ => x
  end.

(** Truthiness of a number: [0], [-0] and [NaN] are falsy. *)
Definition truthy (x : number) : bool :=
  negb (PrimFloat.is_zero x || PrimFloat.is_nan x).

(** [x || d] for an optional number [x]. *)
Definition number_or (x : option number) (d : number) : number :=
  match x with
  | Some v => if truthy v then v else d
  | None => d
  end.

(** [s || d] for an optional string [s]: [undefined] and the empty string
    are falsy. *)
Definition string_or (s : option string) (d : string) : string :=
  match s with
  | Some "" | None => d
  | Some v => v
  end.

(** [Array.prototype.includes] on an array of strings. *)
Definition includes (l : list string) (s : string) : bool :=
  existsb (String.eqb s) l.

(** [s === lit] for an optional string [s] and a string literal. *)
Definition strict_eq_string (s : option string) (lit : string) : bool :=
  match s with
  | Some v => String.eqb v lit
  | None => false
  end.

(** The double for the whole number [n]; exact for [0 <= n <= 2^53]. *)
Definition of_Z (n : Z) : number := of_uint63 (Uint63.of_Z n).

(** [x >= 0]; false for [NaN], true for [-0] and for [Infinity]. *)
Definition nonneg (x : number) : bool := (0 <=? x)%float.

(** [Number.isFinite(x)] *)
Definition isFinite (x : number) : bool := PrimFloat.is_finite x.

End JS.

(** ** The form values and the result *)

Inductive Position := Speaker | Galley | Purser.

Record FormValues := {
  internationalTrip : bool;
  seniorityYears : JS.number;
  tafb : JS.number;
  hourlyRate : JS.number;
  credit : JS.number;
  position : Position;
  isMexicoCaribbean : bool;
  nightPayHours : JS.number;
  aircraft : option string;
  hoursInWidebody : option JS.number
}.

Record TripResult := {
  perdiem : JS.number;
  perdiemValue : JS.number;
  positionCredit : JS.number;
  internationalCredit : JS.number;
  nightPayCredit : JS.number;
  totalTripValue : JS.number
}.

(** The aircraft offered by the form, as (value, label). *)
Definition aircraftOptions : list (string * string) :=
  [("A319", "A319"); ("A320", "A320"); ("B737", "B737");
   ("B737-800", "B737-800"); ("B737-900", "B737-900"); ("B757", "B757");
   ("widebody", "Widebody")].

(** ** calculateTripValue *)

Definition calculateTripValue (values : FormValues) : TripResult :=
  (* Calculate per diem based on seniority and international status *)
  (let seniorityFactor := JS.Math_floor (seniorityYears values / 2) in
  let perdiem :=
    if internationalTrip values
    then 2.7 + seniorityFactor * 0.05
    else 2.2 + seniorityFactor * 0.05 in
  (* Calculate per diem value *)
  let perdiemValue := tafb values * perdiem in
  (* Calculate international credit *)
  let internationalCredit :=
    if internationalTrip values then credit values * 2 else 0 in
  (* Calculate position credit *)
  let positionCredit :=
    match position values with
    | Purser =>
        if JS.includes ["A319"; "A320"; "B737"]%string
                       (JS.string_or (aircraft values) "")
        then if isMexicoCaribbean values
             then credit values * 2 else credit values * 1
        else if JS.includes ["B737-800"; "B737-900"; "B757"]%string
                            (JS.string_or (aircraft values) "")
        then if isMexicoCaribbean values
             then credit values * 3 else credit values * 2
        else if JS.strict_eq_string (aircraft values) "widebody"
        then if isMexicoCaribbean values
             then credit values * 4 else credit values * 3
        else 0
    | Galley => JS.number_or (hoursInWidebody values) 0
    | Speaker => credit values * 2.5
    end in
  (* Calculate night pay credit *)
  let nightPayCredit := nightPayHours values / 2 in
  (* Calculate total trip value *)
  let baseValue := hourlyRate values * credit values in
  let totalTripValue :=
    baseValue + perdiemValue + positionCredit + internationalCredit
    + nightPayCredit in
  {| perdiem := perdiem;
     perdiemValue := perdiemValue;
     positionCredit := positionCredit;
     internationalCredit := internationalCredit;
     nightPayCredit := nightPayCredit;
     totalTripValue := totalTripValue |})%float.

(** ** The form schema

    [formSchema] is built from the combinators of the zod library, an npm
    dependency of the repository.  The combinators the schema uses are
    modelled after zod 3: a schema parses one JavaScript value into a
    typed value or a list of issues, and [z.object] parses every key of
    its shape and gathers the issues of all of them. *)

Inductive JsValue :=
| JUndefined
| JNull
| JBool (b : bool)
| JNumber (x : JS.number)
| JString (s : string).

Module Zod.

Inductive ParsedType :=
| ty_undefined | ty_null | ty_boolean | ty_number | ty_nan | ty_string.

Definition getParsedType (v : JsValue) : ParsedType :=
  match v with
  | JUndefined => ty_undefined
  | JNull => ty_null
  | JBool _ => ty_boolean
  | JNumber x => if PrimFloat.is_nan x then ty_nan else ty_number
  | JString _ => ty_string
  end.

Definition type_name (t : ParsedType) : string :=
  match t with
  | ty_undefined => "undefined"
  | ty_null => "null"
  | ty_boolean => "boolean"
  | ty_number => "number"
  | ty_nan => "nan"
  | ty_string => "string"
  end.

Inductive IssueCode := invalid_type | invalid_enum_value | too_small.

(** An issue as a schema raises it; [z.object] adds the path. *)
Record RawIssue := { raw_code : IssueCode; raw_message : string }.

Record Issue := { code : IssueCode; path : string; message : string }.

Inductive ParseReturn (A : Type) :=
| OK (value : A)
| INVALID (issues : list RawIssue).
Arguments OK {A} value.
Arguments INVALID {A} issues.

Definition Schema (A : Type) := JsValue -> ParseReturn A.

(** The [invalid_type] issue with the message of the default error map. *)
Definition invalid_type_issue (expected : string) (v : JsValue) : RawIssue :=
  {| raw_code := invalid_type;
     raw_message :=
       match getParsedType v with
       | ty_undefined => "Required"
       | t => "Expected " ++ expected ++ ", received " ++ type_name t
       end |}.

(** [z.boolean()] *)
Definition boolean : Schema bool := fun v =>
  match v with
  | JBool b => OK b
  | _ => INVALID [invalid_type_issue "boolean" v]
  end.

(** [z.string()] *)
Definition string_ : Schema string := fun v =>
  match v with
  | JString s => OK s
  | _ => INVALID [invalid_type_issue "string" v]
  end.

(** [s.optional()]: [undefined] is accepted as it is, anything else goes
    to [s]. *)
Definition optional {A} (s : Schema A) : Schema (option A) := fun v =>
  match v with
  | JUndefined => OK None
  | _ => match s v with
         | OK a => OK (Some a)
         | INVALID i => INVALID i
         end
  end.

Section Coerce.
(** [Number(s)] on a string: the numeric-literal grammar of ECMAScript,
    taken as given. *)
Variable StringToNumber : string -> JS.number.

(** [Number(v)] *)
Definition Number (v : JsValue) : JS.number :=
  match v with
  | JUndefined => nan
  | JNull => 0%float
  | JBool true => 1%float
  | JBool false => 0%float
  | JNumber x => x
  | JString s => StringToNumber s
  end.

(** [z.coerce.number()]: the input is replaced by [Number(input)], and
    [NaN] is an [invalid_type] issue. *)
Definition coerce_number : Schema JS.number := fun v =>
  let data := Number v in
  if PrimFloat.is_nan data
  then INVALID [invalid_type_issue "number" (JNumber data)]
  else OK data.

End Coerce.

(** [s.min(lo, msg)] on a number schema: once the value has passed [s],
    a value below [lo] is a [too_small] issue that carries [msg]. *)
Definition min (lo : JS.number) (msg : string) (s : Schema JS.number)
  : Schema JS.number := fun v =>
  match s v with
  | OK data =>
      if (data <? lo)%float
      then INVALID [{| raw_code := too_small; raw_message := msg |}]
      else OK data
  | INVALID i => INVALID i
  end.
Arguments min lo%_float msg%_string s.

(** A schema is proper when a failure always comes with an issue. *)
Definition proper {A} (s : Schema A) : Prop := forall v, s v <> INVALID [].

(** The result of [safeParse] on an object. *)
Inductive SafeParse (A : Type) :=
| Success (data : A)
| Failure (issues : list Issue).
Arguments Success {A} data.
Arguments Failure {A} issues.

Definition issues_of {A} (r : SafeParse A) : list Issue :=
  match r with
  | Success _ => []
  | Failure i => i
  end.

Definition success {A} (r : SafeParse A) : bool :=
  match r with
  | Success _ => true
  | Failure _ => false
  end.

(** [raw[key]]: the value a raw object holds under [key], [undefined]
    when it has no such property. *)
Definition prop (raw : gmap string JsValue) (key : string) : JsValue :=
  default JUndefined (raw !! key).

(** One key of an object shape: the value under [key] parsed by [s], its
    issues placed under [key]. *)
Definition field {A} (raw : gmap string JsValue) (key : string)
    (s : Schema A) : SafeParse A :=
  match s (prop raw key) with
  | OK a => Success a
  | INVALID i =>
      Failure (map (fun r => {| code := raw_code r; path := key;
                                message := raw_message r |}) i)
  end.

(** Building the object from its keys; the issues of all keys are kept,
    in the order of the shape. *)
Definition ap {A B} (f : SafeParse (A -> B)) (x : SafeParse A)
  : SafeParse B :=
  match f, x with
  | Success g, Success a => Success (g a)
  | _, _ => Failure (issues_of f ++ issues_of x)
  end.

(** The issues reported under one key. *)
Definition issues_at (key : string) (l : list Issue) : list Issue :=
  List.filter (fun i => String.eqb (path i) key) l.

(** The issues reported under any other key. *)
Definition issues_off (key : string) (l : list Issue) : list Issue :=
  List.filter (fun i => negb (String.eqb (path i) key)) l.

End Zod.

Notation "f <*> x" := (Zod.ap f x) (at level 61, left associativity).

(** [z.enum(["Speaker", "Galley", "Purser"])] *)
Definition positionEnum : Zod.Schema Position := fun v =>
  let options := "'Speaker' | 'Galley' | 'Purser'" in
  match v with
  | JString "Speaker" => Zod.OK Speaker
  | JString "Galley" => Zod.OK Galley
  | JString "Purser" => Zod.OK Purser
  | JString s =>
      Zod.INVALID
        [{| Zod.raw_code := Zod.invalid_enum_value;
            Zod.raw_message :=
              "Invalid enum value. Expected " ++ options
              ++ ", received '" ++ s ++ "'" |}]
  | _ => Zod.INVALID [Zod.invalid_type_issue options v]
  end.

Section FormSchema.
Variable StringToNumber : string -> JS.number.

(** [z.coerce.number()] *)
Let number : Zod.Schema JS.number := Zod.coerce_number StringToNumber.

Definition formSchema (raw : gmap string JsValue) : Zod.SafeParse FormValues :=
  Zod.Success Build_FormValues
  <*> Zod.field raw "internationalTrip" Zod.boolean
  <*> Zod.field raw "seniorityYears"
        (Zod.min 0 "Seniority years must be a positive number" number)
  <*> Zod.field raw "tafb" (Zod.min 0 "TAFB must be a positive number" number)
  <*> Zod.field raw "hourlyRate"
        (Zod.min 0 "Hourly rate must be a positive number" number)
  <*> Zod.field raw "credit"
        (Zod.min 0 "Credit hours must be a positive number" number)
  <*> Zod.field raw "position" positionEnum
  <*> Zod.field raw "isMexicoCaribbean" Zod.boolean
  <*> Zod.field raw "nightPayHours"
        (Zod.min 0 "Night pay hours must be a positive number" number)
  (* These are truly optional fields *)
  <*> Zod.field raw "aircraft" (Zod.optional Zod.string_)
  <*> Zod.field raw "hoursInWidebody"
        (Zod.optional
           (Zod.min 0 "Hours in widebody must be a positive number" number)).

End FormSchema.

(** ** Vocabulary of the properties *)

(** The numbers of a form-values record: the five required ones, and
    [hoursInWidebody] when it is set. *)
Definition numericValues (v : FormValues) : list JS.number :=
  [seniorityYears v; tafb v; hourlyRate v; credit v; nightPayHours v]
  ++ match hoursInWidebody v with Some h => [h] | None => [] end.

(** Every number of the record passes the schema's [min(0)] check; this
    holds of every record the schema lets through
    ([SchemaFacts.formSchema_validated]). *)
Definition validated (v : FormValues) : bool :=
  forallb JS.nonneg (numericValues v).

(** Every number of the record is finite. *)
Definition allFinite (v : FormValues) : bool :=
  forallb JS.isFinite (numericValues v).

(** The record with [seniorityYears] replaced. *)
Definition withSeniorityYears (s : JS.number) (v : FormValues) : FormValues :=
  {| internationalTrip := internationalTrip v;
     seniorityYears := s;
     tafb := tafb v;
     hourlyRate := hourlyRate v;
     credit := credit v;
     position := position v;
     isMexicoCaribbean := isMexicoCaribbean v;
     nightPayHours := nightPayHours v;
     aircraft := aircraft v;
     hoursInWidebody := hoursInWidebody v |}.

(** The record with the three fields replaced that only some positions
    read. *)
Definition withPositionInputs (a : option string) (r : bool)
    (h : option JS.number) (v : FormValues) : FormValues :=
  {| internationalTrip := internationalTrip v;
     seniorityYears := seniorityYears v;
     tafb := tafb v;
     hourlyRate := hourlyRate v;
     credit := credit v;
     position := position v;
     isMexicoCaribbean := r;
     nightPayHours := nightPayHours v;
     aircraft := a;
     hoursInWidebody := h |}.

(** The keys of the schema that are coerced to numbers, each with the
    message of its [min(0)] check. *)
Definition numericKeys : list (string * string) :=
  [("seniorityYears", "Seniority years must be a positive number");
   ("tafb", "TAFB must be a positive number");
   ("hourlyRate", "Hourly rate must be a positive number");
   ("credit", "Credit hours must be a positive number");
   ("nightPayHours", "Night pay hours must be a positive number");
   ("hoursInWidebody", "Hours in widebody must be a positive number")].

Definition isUndefined (v : JsValue) : bool :=
  match v with
  | JUndefined => true
  | _ => false
  end.

(** The issues a numeric key is expected to raise: none when the optional
    key is absent; otherwise an [invalid_type] issue when the coerced
    value is [NaN], the [too_small] issue with the key's message when it
    is below zero, and none in all other cases. *)
Definition numericIssues (StringToNumber : string -> JS.number)
    (raw : gmap string JsValue) (key msg : string) : list Zod.Issue :=
  let x := Zod.Number StringToNumber (Zod.prop raw key) in
  if String.eqb key "hoursInWidebody" && isUndefined (Zod.prop raw key) then []
  else if PrimFloat.is_nan x
       then [{| Zod.code := Zod.invalid_type; Zod.path := key;
                Zod.message := "Expected number, received nan" |}]
       else if (x <? 0)%float
            then [{| Zod.code := Zod.too_small; Zod.path := key;
                     Zod.message := msg |}]
            else [].

(** ** Sample inputs *)

(** A domestic Speaker trip: 4 years, 10 hours away, 50 an hour, 20 credit
    hours, 4 night-pay hours. *)
Definition scenarioA : FormValues :=
  {| internationalTrip := false; seniorityYears := 4%float; tafb := 10%float;
     hourlyRate := 50%float; credit := 20%float; position := Speaker;
     isMexicoCaribbean := false; nightPayHours := 4%float;
     aircraft := None; hoursInWidebody := None |}.

(** An international Purser trip on a B757 to a regional destination. *)
Definition scenarioB : FormValues :=
  {| internationalTrip := true; seniorityYears := 10%float; tafb := 20%float;
     hourlyRate := 60%float; credit := 30%float; position := Purser;
     isMexicoCaribbean := true; nightPayHours := 0%float;
     aircraft := Some "B757"; hoursInWidebody := None |}.

(** A Galley trip with 12 hours in a widebody. *)
Definition scenarioC : FormValues :=
  {| internationalTrip := true; seniorityYears := 6%float; tafb := 30%float;
     hourlyRate := 55%float; credit := 25%float; position := Galley;
     isMexicoCaribbean := true; nightPayHours := 3%float;
     aircraft := Some "widebody"; hoursInWidebody := Some 12%float |}.

(** Scenario A with two years of seniority. *)
Definition twoYears : FormValues := withSeniorityYears 2%float scenarioA.

(** The same with two years more. *)
Definition fourYears : FormValues :=
  withSeniorityYears (seniorityYears twoYears + 2)%float twoYears.

(** Scenario A with the largest double below two as years of seniority. *)
Definition almostTwoYears : FormValues :=
  withSeniorityYears 1.9999999999999998%float scenarioA.

(** Scenario A with years of seniority that are no whole number. *)
Definition fractionalYears : FormValues :=
  withSeniorityYears 3.9%float scenarioA.

(** Scenario A with [2^53] years of seniority, where the per-diem rate is
    so large that neighbouring rates are 0.03125 apart. *)
Definition vastSeniority : FormValues :=
  withSeniorityYears 9007199254740992%float scenarioA.

(** Scenario A with [2^54] years of seniority, where neighbouring doubles
    are four apart. *)
Definition hugeSeniority : FormValues :=
  withSeniorityYears 18014398509481984%float scenarioA.

(** A record whose numbers are all [>= 0], one of them [Infinity]. *)
Definition endlessSeniority : FormValues :=
  {| internationalTrip := false; seniorityYears := infinity; tafb := 0%float;
     hourlyRate := 50%float; credit := 20%float; position := Speaker;
     isMexicoCaribbean := false; nightPayHours := 4%float;
     aircraft := None; hoursInWidebody := None |}.

(** The raw object that parses to [endlessSeniority]. *)
Definition rawEndlessSeniority : gmap string JsValue :=
  list_to_map
    [("internationalTrip", JBool false); ("seniorityYears", JNumber infinity);
     ("tafb", JNumber 0%float); ("hourlyRate", JNumber 50%float);
     ("credit", JNumber 20%float); ("position", JString "Speaker");
     ("isMexicoCaribbean", JBool false); ("nightPayHours", JNumber 4%float)].

(** A submission with three negative numbers, a zero and an aircraft that
    is no string. *)
Definition rawNegatives : gmap string JsValue :=
  list_to_map
    [("internationalTrip", JBool false); ("seniorityYears", JNumber (-1)%float);
     ("tafb", JNumber (-5)%float); ("hourlyRate", JNumber 0%float);
     ("credit", JNumber 20%float); ("position", JString "Purser");
     ("isMexicoCaribbean", JBool false); ("nightPayHours", JNumber 4%float);
     ("aircraft", JBool true); ("hoursInWidebody", JNumber (-2)%float)].

(** A submission whose [seniorityYears] is no number, and without
    [tafb]. *)
Definition rawNotANumber : gmap string JsValue :=
  list_to_map
    [("internationalTrip", JBool false); ("seniorityYears", JString "abc");
     ("hourlyRate", JNumber 50%float);
     ("credit", JNumber 20%float); ("position", JString "Speaker");
     ("isMexicoCaribbean", JBool false); ("nightPayHours", JNumber 4%float)].

(** [Number(s)] for the strings of the samples: none of them is a numeric
    literal, and [Number] gives [NaN] for such a string. *)
Definition noNumericStrings : string -> JS.number := fun _ => nan.

(** ** The form around the schema and the calculation

    What the component does with [formSchema] and [calculateTripValue]:
    the default values of the form (lines 72-82), the fields it renders
    for a position (lines 154-355), the text of the aircraft button
    (lines 269-271), the submission, [form.handleSubmit(onSubmit)]
    (lines 139-142 and 153), and the results panel (lines 371-421). *)

(** The literal of a position, as the schema's enum, the type and the
    select items spell it. *)
Definition positionName (p : Position) : string :=
  match p with
  | Speaker => "Speaker"
  | Galley => "Galley"
  | Purser => "Purser"
  end.

(** The keys of the schema's shape, in its order. *)
Definition schemaKeys : list string :=
  ["internationalTrip"; "seniorityYears"; "tafb"; "hourlyRate"; "credit";
   "position"; "isMexicoCaribbean"; "nightPayHours"; "aircraft";
   "hoursInWidebody"].

(** The keys that are not optional, each with the message of the issue
    that is raised when the key is missing: [undefined] is "Required" for
    a boolean and for the enum, and it is coerced to [NaN] under a numeric
    key. *)
Definition requiredKeys : list (string * string) :=
  [("internationalTrip", "Required");
   ("seniorityYears", "Expected number, received nan");
   ("tafb", "Expected number, received nan");
   ("hourlyRate", "Expected number, received nan");
   ("credit", "Expected number, received nan");
   ("position", "Required");
   ("isMexicoCaribbean", "Required");
   ("nightPayHours", "Expected number, received nan")].

(** A [FormValues] record as the JavaScript object it is: a property for
    every field that is set. *)
Definition toRaw (v : FormValues) : gmap string JsValue :=
  list_to_map
    ([("internationalTrip", JBool (internationalTrip v));
      ("seniorityYears", JNumber (seniorityYears v));
      ("tafb", JNumber (tafb v));
      ("hourlyRate", JNumber (hourlyRate v));
      ("credit", JNumber (credit v));
      ("position", JString (positionName (position v)));
      ("isMexicoCaribbean", JBool (isMexicoCaribbean v));
      ("nightPayHours", JNumber (nightPayHours v))]
     ++ match aircraft v with
        | Some a => [("aircraft", JString a)]
        | None => []
        end
     ++ match hoursInWidebody v with
        | Some h => [("hoursInWidebody", JNumber h)]
        | None => []
        end)%list.

(** What the schema makes of the value under a key: [Number(x)] under a
    numeric key, except that the optional one stays [undefined], and the
    value itself under any other key. *)
Definition coerced (StringToNumber : string -> JS.number) (key : string)
    (x : JsValue) : JsValue :=
  if existsb (String.eqb key) (map fst numericKeys)
  then if String.eqb key "hoursInWidebody" && isUndefined x then JUndefined
       else JNumber (Zod.Number StringToNumber x)
  else x.

(** The issue of a value of the wrong type under [key]. *)
Definition wrongType (key expected : string) (x : JsValue) : Zod.Issue :=
  {| Zod.code := Zod.invalid_type; Zod.path := key;
     Zod.message := Zod.raw_message (Zod.invalid_type_issue expected x) |}.

(** [defaultValues] of [useForm]; there is none for [aircraft]. *)
Definition defaultValues : gmap string JsValue :=
  list_to_map
    [("internationalTrip", JBool false);
     ("seniorityYears", JNumber 0%float);
     ("tafb", JNumber 0%float);
     ("hourlyRate", JNumber 0%float);
     ("credit", JNumber 0%float);
     ("position", JString "Speaker");
     ("isMexicoCaribbean", JBool false);
     ("hoursInWidebody", JNumber 0%float);
     ("nightPayHours", JNumber 0%float)].

(** [w === lit] for a form value [w] and a string literal. *)
Definition strict_eq_literal (w : JsValue) (lit : string) : bool :=
  match w with
  | JString s => String.eqb s lit
  | _ => false
  end.

(** The names of the form fields the component renders, in their order,
    when [form.watch("position")] is [watchPosition]. *)
Definition renderedFields (watchPosition : JsValue) : list string :=
  (["internationalTrip"; "seniorityYears"; "tafb"; "hourlyRate"; "credit";
    "position"]
   ++ (if strict_eq_literal watchPosition "Purser"
       then ["aircraft"; "isMexicoCaribbean"] else [])
   ++ (if strict_eq_literal watchPosition "Galley"
       then ["hoursInWidebody"] else [])
   ++ ["nightPayHours"])%list.

(** The text of the aircraft button for the value of the field:
    [field.value ? aircraftOptions.find(...)?.label : "Select aircraft"].
    [None] is [undefined], which renders as nothing. *)
Definition aircraftButtonText (value : option string) : option string :=
  match value with
  | Some (String _ _ as s) =>
      option_map snd
        (find (fun aircraft => String.eqb (fst aircraft) s) aircraftOptions)
  | _ => Some "Select aircraft"
  end.

(** Truthiness of a form value. *)
Definition truthyValue (w : JsValue) : bool :=
  match w with
  | JUndefined | JNull => false
  | JBool b => b
  | JNumber x => JS.truthy x
  | JString EmptyString => false
  | JString _ => true
  end.

(** The rows of the calculation breakdown, each a caption and the number
    that is shown next to it with two decimals; the row of the
    international credit is there when [form.watch("internationalTrip")],
    the value the form holds now, is truthy. *)
Definition breakdown (watchInternationalTrip : JsValue) (r : TripResult)
  : list (string * JS.number) :=
  ([("Per Diem Rate:", perdiem r); ("Per Diem Value:", perdiemValue r)]
   ++ (if truthyValue watchInternationalTrip
       then [("International Credit:", internationalCredit r)] else [])
   ++ [("Position Credit:", positionCredit r);
       ("Night Pay Credit:", nightPayCredit r)])%list.

(** The state of the component: the values of the form, as the inputs
    have left them, and [results]. *)
Record FormState := {
  fieldValues : gmap string JsValue;
  results : option TripResult
}.

(** The results panel: the total and the breakdown, or nothing but "No
    Calculation Yet" as long as [results] is [null]. *)
Definition panel (st : FormState)
  : option (JS.number * list (string * JS.number)) :=
  match results st with
  | Some r =>
      Some (totalTripValue r,
            breakdown (Zod.prop (fieldValues st) "internationalTrip") r)
  | None => None
  end.

(** The component before any event: the default values and no results. *)
Definition initialState : FormState :=
  {| fieldValues := defaultValues; results := None |}.

(** What happens to the form: a field gets a value ([field.onChange] of an
    input, a switch or the select, [form.setValue] of the aircraft list),
    or the form is submitted. *)
Inductive Event :=
| Change (name : string) (value : JsValue)
| Submit.

Section Form.
Variable StringToNumber : string -> JS.number.

(** [onSubmit] *)
Definition onSubmit (values : FormValues) (st : FormState) : FormState :=
  let calculationResults := calculateTripValue values in
  {| fieldValues := fieldValues st; results := Some calculationResults |}.

(** [form.handleSubmit(onSubmit)]: the resolver parses the values of the
    form with [formSchema]; [onSubmit] is called with the parsed values
    when there is no issue, and not at all otherwise. *)
Definition handleSubmit (st : FormState) : FormState :=
  match formSchema StringToNumber (fieldValues st) with
  | Zod.Success values => onSubmit values st
  | Zod.Failure _ => st
  end.

Definition step (st : FormState) (e : Event) : FormState :=
  match e with
  | Change name value =>
      {| fieldValues := <[name := value]> (fieldValues st);
         results := results st |}
  | Submit => handleSubmit st
  end.

Definition run (es : list Event) (st : FormState) : FormState :=
  fold_left step es st.

End Form.

(** ** Further sample inputs *)

(** [Number(s)] that knows the empty string, which is what a cleared
    number input holds: [Number("")] is [0]. *)
Definition emptyIsZero : string -> JS.number :=
  fun s => match s with
           | EmptyString => 0%float
           | _ => nan
           end.

(** The record of the default values: a Speaker, every number zero and
    no aircraft. *)
Definition untouched : FormValues :=
  {| internationalTrip := false; seniorityYears := 0%float; tafb := 0%float;
     hourlyRate := 0%float; credit := 0%float; position := Speaker;
     isMexicoCaribbean := false; nightPayHours := 0%float;
     aircraft := None; hoursInWidebody := Some 0%float |}.

(** The form after the number of TAFB hours has been cleared. *)
Definition rawClearedTafb : gmap string JsValue :=
  <["tafb" := JString EmptyString]> defaultValues.

(** Scenario B as it is submitted, with a key the schema does not know. *)
Definition rawWithNotes : gmap string JsValue :=
  <["notes" := JString "red-eye"]> (toRaw scenarioB).

(** A Purser on an aircraft the form does not offer. *)
Definition rawPurserOnA380 : gmap string JsValue :=
  <["aircraft" := JString "A380"]> (toRaw scenarioB).

(** A trip without hours, for someone with thirty years of seniority. *)
Definition emptyTrip : FormValues :=
  {| internationalTrip := true; seniorityYears := 30%float; tafb := 0%float;
     hourlyRate := 0%float; credit := 0%float; position := Purser;
     isMexicoCaribbean := true; nightPayHours := 0%float;
     aircraft := Some "widebody"; hoursInWidebody := Some 0%float |}.

(** The form filled in with scenario B, before it is submitted. *)
Definition scenarioBEntered : FormState :=
  {| fieldValues := toRaw scenarioB; results := None |}.

(** A session: the user becomes a Galley, types a text that is no number
    for the hours and submits, corrects it to 12 and submits, then makes
    the credit negative and submits once more. *)
Definition session : list Event :=
  [Change "position" (JString "Galley");
   Change "hoursInWidebody" (JString "abc");
   Submit;
   Change "hoursInWidebody" (JNumber 12%float);
   Submit;
   Change "credit" (JNumber (-1)%float);
   Submit].

(** ** Binary64 through its specification

    Auxiliary notions for reasoning about all doubles at once: the
    standard library specifies each primitive operation on [spec_float],
    a sign, a mantissa and an exponent. *)

Module Binary64.
Local Open Scope Z_scope.

(** The binary64 instance of the format parameters. *)
Abbreviation fexp := (SpecFloat.fexp prec emax).
Abbreviation shr_fexp := (SpecFloat.shr_fexp prec emax).
Abbreviation binary_round_aux := (SpecFloat.binary_round_aux prec emax).
Abbreviation binary_round := (SpecFloat.binary_round prec emax).
Abbreviation binary_normalize := (SpecFloat.binary_normalize prec emax).

(** Nothing has been lost by the shifts so far. *)
Definition exact_record (mrs : shr_record) : Prop :=
  shr_r mrs = false /\ shr_s mrs = false.

(** The second half of [binary_round_aux]: what is done to the rounded
    mantissa [m1] at exponent [e]. *)
Definition finish (s : bool) (m1 e : Z) : spec_float :=
  let '(mrs, e') := shr_fexp m1 e loc_Exact in
  match shr_m mrs with
  | Z0 => S754_zero s
  | Zpos m => if e' <=? emax - prec then S754_finite s m e' else S754_infinity s
  | Zneg _ => S754_nan
  end.

(** The value of [finish] for [0 <= m1 <= 2^53]. *)
Definition finished (s : bool) (m1 e : Z) : spec_float :=
  if m1 =? 0 then S754_zero s
  else if m1 <? 2 ^ 53
       then if e <=? 971 then S754_finite s (Z.to_pos m1) e else S754_infinity s
       else if e + 1 <=? 971 then S754_finite s (Z.to_pos (2 ^ 52)) (e + 1)
            else S754_infinity s.

(** Neither NaN nor negative: a zero of either sign, a positive finite
    number or plus infinity. *)
Definition nn (x : spec_float) : bool :=
  match x with
  | S754_zero _ => true
  | S754_infinity s | S754_finite s _ _ => negb s
  | S754_nan => false
  end.

(** Zero or finite. *)
Definition fin (x : spec_float) : bool :=
  match x with
  | S754_zero _ | S754_finite _ _ _ => true
  | _ => false
  end.

(** Zero, or finite and below [2^B] in absolute value. *)
Definition below (B : Z) (x : spec_float) : Prop :=
  match x with
  | S754_zero _ => True
  | S754_finite _ m e => Zdigits2 (Zpos m) + e <= B
  | _ => False
  end.

(** The sign of a result that is not NaN. *)
Definition signed (s : bool) (x : spec_float) : Prop :=
  match x with
  | S754_zero s' | S754_infinity s' | S754_finite s' _ _ => s' = s
  | S754_nan => False
  end.

(** [r] is plus infinity, or finite, positive and at least [mc * 2^ec],
    read off the representations: both are normal, so a larger exponent
    or the same exponent with a larger mantissa means a larger number. *)
Definition at_least (mc : positive) (ec : Z) (r : spec_float) : Prop :=
  match r with
  | S754_infinity false => True
  | S754_finite false m e => ec < e \/ (e = ec /\ Zpos mc <= Zpos m)
  | _ => False
  end.

(** The whole part of a number that is neither negative nor infinite. *)
Definition whole (x : spec_float) : Z :=
  match x with
  | S754_finite false m e =>
      if 0 <=? e then Zpos m * 2 ^ e else Zpos m / 2 ^ (- e)
  | _ => 0
  end.

(** The number two. *)
Definition two : spec_float := S754_finite false 4503599627370496 (-51).

(** The double for a whole number, as [of_uint63] builds it. *)
Definition SFofZ (n : Z) : spec_float := binary_normalize n 0 false.

(** Folds the number of binary digits of a mantissa back into [Zdigits2]. *)
Ltac fold_digits :=
  repeat match goal with
    | |- context [Zpos (digits2_pos ?m)] =>
        change (Zpos (digits2_pos m)) with (Zdigits2 (Zpos m))
    | H : context [Zpos (digits2_pos ?m)] |- _ =>
        change (Zpos (digits2_pos m)) with (Zdigits2 (Zpos m)) in H
    end.

End Binary64.

Module Binary64Facts.
Import Binary64.
Local Open Scope Z_scope.

(** *** The number of binary digits

    [Zdigits2 m] is the length of [m] in binary: [2^(d-1) <= m < 2^d]. *)

Lemma digits2_pos_size p : digits2_pos p = Pos.size p.
Proof. induction p; simpl; congruence. Qed.

Lemma Zdigits2_log2 m : 0 < m -> Zdigits2 m = Z.log2 m + 1.
Proof.
  destruct m as [|p|p]; try lia. intros _. simpl.
  rewrite digits2_pos_size.
  destruct p; simpl; lia.
Qed.

Lemma Zdigits2_nonneg m : 0 <= Zdigits2 m.
Proof. destruct m; simpl; lia. Qed.

Lemma Zdigits2_bounds m : 0 < m -> 2 ^ (Zdigits2 m - 1) <= m < 2 ^ Zdigits2 m.
Proof.
  intros H. rewrite Zdigits2_log2 by lia.
  replace (Z.log2 m + 1 - 1) with (Z.log2 m) by lia.
  replace (Z.log2 m + 1) with (Z.succ (Z.log2 m)) by lia.
  apply Z.log2_spec. lia.
Qed.

Lemma Zdigits2_unique m d : 2 ^ (d - 1) <= m < 2 ^ d -> 0 < m -> Zdigits2 m = d.
Proof.
  intros H Hm. rewrite Zdigits2_log2 by lia.
  assert (0 <= d - 1).
  { destruct (Z.le_gt_cases 0 (d - 1)); auto.
    assert (d <= 0) by lia.
    destruct (Z.eq_dec d 0) as [->|]; [simpl in H; lia|].
    rewrite (Z.pow_neg_r 2 d) in H by lia. lia. }
  rewrite (Z.log2_unique m (d - 1)); try lia.
  replace (Z.succ (d - 1)) with d by lia. lia.
Qed.

Lemma Zdigits2_le m d : 0 <= m -> 0 <= d -> m < 2 ^ d -> Zdigits2 m <= d.
Proof.
  intros Hm Hd H.
  destruct (Z.eq_dec m 0) as [->|]; [simpl; lia|].
  pose proof (Zdigits2_bounds m ltac:(lia)) as [B _].
  destruct (Z.le_gt_cases (Zdigits2 m) d); auto.
  assert (2 ^ d <= 2 ^ (Zdigits2 m - 1)) by (apply Z.pow_le_mono_r; lia).
  lia.
Qed.

Lemma Zdigits2_ge m d : 0 <= d -> 2 ^ d <= m -> d + 1 <= Zdigits2 m.
Proof.
  intros Hd H.
  assert (0 < m) by (pose proof (Z.pow_pos_nonneg 2 d); lia).
  pose proof (Zdigits2_bounds m ltac:(lia)) as [_ B].
  destruct (Z.le_gt_cases (d + 1) (Zdigits2 m)); auto.
  assert (2 ^ Zdigits2 m <= 2 ^ d) by (apply Z.pow_le_mono_r; lia).
  lia.
Qed.

Lemma Zdigits2_mono a b : 0 <= a <= b -> Zdigits2 a <= Zdigits2 b.
Proof.
  intros [Ha Hab].
  destruct (Z.eq_dec a 0) as [->|]; [apply Zdigits2_nonneg|].
  rewrite !Zdigits2_log2 by lia.
  pose proof (Z.log2_le_mono a b Hab). lia.
Qed.

Lemma Zdigits2_shiftl m k : 0 < m -> 0 <= k -> Zdigits2 (m * 2 ^ k) = Zdigits2 m + k.
Proof.
  intros Hm Hk.
  assert (0 < 2 ^ k) by (apply Z.pow_pos_nonneg; lia).
  rewrite !Zdigits2_log2 by nia.
  rewrite Z.log2_mul_pow2 by lia. lia.
Qed.

Lemma Zdigits2_shiftr m k : 0 <= m -> 0 <= k -> Zdigits2 (m / 2 ^ k) = Z.max (Zdigits2 m - k) 0.
Proof.
  intros Hm Hk.
  assert (P : 0 < 2 ^ k) by (apply Z.pow_pos_nonneg; lia).
  destruct (Z.eq_dec m 0) as [->|Hn].
  { rewrite Z.div_0_l by lia. simpl. lia. }
  pose proof (Zdigits2_bounds m ltac:(lia)) as [B1 B2].
  destruct (Z.le_gt_cases (Zdigits2 m) k) as [Hle|Hgt].
  - assert (m < 2 ^ k).
    { assert (2 ^ Zdigits2 m <= 2 ^ k) by (apply Z.pow_le_mono_r; lia). lia. }
    rewrite Z.div_small by lia. simpl. lia.
  - rewrite Z.max_l by lia.
    assert (2 ^ (Zdigits2 m - 1 - k) <= m / 2 ^ k).
    { apply Z.div_le_lower_bound; try lia.
      rewrite <- Z.pow_add_r by lia.
      replace (k + (Zdigits2 m - 1 - k)) with (Zdigits2 m - 1) by lia. lia. }
    assert (m / 2 ^ k < 2 ^ (Zdigits2 m - k)).
    { apply Z.div_lt_upper_bound; try lia.
      rewrite <- Z.pow_add_r by lia.
      replace (k + (Zdigits2 m - k)) with (Zdigits2 m) by lia. lia. }
    apply Zdigits2_unique.
    + replace (Zdigits2 m - k - 1) with (Zdigits2 m - 1 - k) by lia. lia.
    + assert (0 < 2 ^ (Zdigits2 m - 1 - k)) by (apply Z.pow_pos_nonneg; lia). lia.
Qed.

(** *** The exponent of a value

    A value of magnitude [2^e] is stored with exponent [fexp e]: 53 bits
    of mantissa, and never below the exponent of the subnormal numbers. *)

Lemma fexp_eq e : fexp e = Z.max (e - 53) (-1074).
Proof. reflexivity. Qed.

(** *** Right shifts

    Rounding drops the low bits of a mantissa one at a time and remembers
    in two flags what was lost. *)

Lemma shr_record_of_loc_m m l : shr_m (shr_record_of_loc m l) = m.
Proof. destruct l as [|[]]; reflexivity. Qed.

Lemma shr_1_m mrs : 0 <= shr_m mrs -> shr_m (shr_1 mrs) = shr_m mrs / 2.
Proof.
  destruct mrs as [m r s]. simpl. intros Hm.
  rewrite <- Z.div2_div.
  destruct m as [|[p|p|]|p]; try reflexivity. lia.
Qed.

Lemma iter_shr_1_m p : forall mrs, 0 <= shr_m mrs ->
  shr_m (SpecFloat.iter_pos shr_1 p mrs) = shr_m mrs / 2 ^ Zpos p.
Proof.
  induction p as [p IH|p IH|]; intros mrs Hm; simpl SpecFloat.iter_pos.
  - assert (H1 : 0 <= shr_m (shr_1 mrs)).
    { rewrite shr_1_m by lia. apply Z.div_pos; lia. }
    assert (P : 0 < 2 ^ Zpos p) by (apply Z.pow_pos_nonneg; lia).
    assert (H2 : 0 <= shr_m (SpecFloat.iter_pos shr_1 p (shr_1 mrs))).
    { rewrite IH by lia. apply Z.div_pos; lia. }
    rewrite IH, IH, shr_1_m by lia.
    rewrite !Z.div_div by lia.
    f_equal.
    replace (Zpos p~1) with (1 + Zpos p + Zpos p) by lia.
    rewrite !Z.pow_add_r by lia. change (2 ^ 1) with 2. ring.
  - assert (P : 0 < 2 ^ Zpos p) by (apply Z.pow_pos_nonneg; lia).
    assert (H2 : 0 <= shr_m (SpecFloat.iter_pos shr_1 p mrs)).
    { rewrite IH by lia. apply Z.div_pos; lia. }
    rewrite IH, IH by lia.
    rewrite !Z.div_div by lia.
    f_equal.
    replace (Zpos p~0) with (Zpos p + Zpos p) by lia.
    rewrite Z.pow_add_r by lia. reflexivity.
  - rewrite shr_1_m by lia. reflexivity.
Qed.

Lemma shr_1_exact mrs :
  0 <= shr_m mrs -> exact_record mrs -> shr_m mrs mod 2 = 0 ->
  exact_record (shr_1 mrs).
Proof.
  destruct mrs as [m r s]. unfold exact_record. simpl.
  intros Hm [-> ->] Hmod.
  destruct m as [|[p|p|]|p]; simpl; auto; try lia.
  - rewrite Pos2Z.inj_xI in Hmod.
    rewrite Z.add_comm, Z.mul_comm, Z.mod_add in Hmod by lia. discriminate.
  - discriminate.
Qed.

Lemma mod_pow2_split m a b :
  0 <= a -> 0 <= b -> m mod 2 ^ (a + b) = 0 ->
  m mod 2 ^ a = 0 /\ (m / 2 ^ a) mod 2 ^ b = 0.
Proof.
  intros Ha Hb H.
  assert (Pa : 0 < 2 ^ a) by (apply Z.pow_pos_nonneg; lia).
  assert (Pb : 0 < 2 ^ b) by (apply Z.pow_pos_nonneg; lia).
  rewrite Z.pow_add_r in H by lia.
  apply Z.mod_divide in H; [|lia]. destruct H as [k Hk].
  subst m. split.
  - apply Z.mod_divide; [lia|]. exists (k * 2 ^ b). ring.
  - replace (k * (2 ^ a * 2 ^ b)) with (k * 2 ^ b * 2 ^ a) by ring.
    rewrite Z.div_mul by lia.
    apply Z.mod_mul. lia.
Qed.

Lemma iter_shr_1_exact p : forall mrs,
  0 <= shr_m mrs -> exact_record mrs -> shr_m mrs mod 2 ^ Zpos p = 0 ->
  exact_record (SpecFloat.iter_pos shr_1 p mrs).
Proof.
  induction p as [p IH|p IH|]; intros mrs Hm Hex Hmod; simpl SpecFloat.iter_pos.
  - assert (P : 0 < 2 ^ Zpos p) by (apply Z.pow_pos_nonneg; lia).
    replace (Zpos p~1) with (1 + (Zpos p + Zpos p)) in Hmod by lia.
    apply mod_pow2_split in Hmod; try lia. destruct Hmod as [H1 H2].
    apply mod_pow2_split in H2; try lia. destruct H2 as [H2 H3].
    change (2 ^ 1) with 2 in *.
    assert (0 <= shr_m (shr_1 mrs)).
    { rewrite shr_1_m by lia. apply Z.div_pos; lia. }
    apply IH.
    + rewrite iter_shr_1_m by lia. apply Z.div_pos; lia.
    + apply IH; auto.
      * apply shr_1_exact; auto.
      * rewrite shr_1_m by lia. exact H2.
    + rewrite iter_shr_1_m, shr_1_m by lia. exact H3.
  - assert (P : 0 < 2 ^ Zpos p) by (apply Z.pow_pos_nonneg; lia).
    replace (Zpos p~0) with (Zpos p + Zpos p) in Hmod by lia.
    apply mod_pow2_split in Hmod; try lia. destruct Hmod as [H1 H2].
    apply IH.
    + rewrite iter_shr_1_m by lia. apply Z.div_pos; lia.
    + apply IH; auto.
    + rewrite iter_shr_1_m by lia. exact H2.
  - apply shr_1_exact; auto.
Qed.

Lemma loc_of_exact_record mrs : exact_record mrs -> loc_of_shr_record mrs = loc_Exact.
Proof. destruct mrs as [m r s]. intros [H1 H2]. simpl in *. subst. reflexivity. Qed.

(** [shr] on a non-negative mantissa: the mantissa is divided by [2^n],
    and nothing is lost when the dropped bits are all zero. *)
Lemma shr_spec m l e n :
  0 <= m -> 0 <= n ->
  shr_m (fst (shr (shr_record_of_loc m l) e n)) = m / 2 ^ n
  /\ snd (shr (shr_record_of_loc m l) e n) = e + n
  /\ (l = loc_Exact -> m mod 2 ^ n = 0 ->
      loc_of_shr_record (fst (shr (shr_record_of_loc m l) e n)) = loc_Exact).
Proof.
  intros Hm Hn. destruct n as [|p|p]; try lia; simpl.
  - rewrite shr_record_of_loc_m, Z.div_1_r. repeat split; try lia.
    intros -> _. reflexivity.
  - rewrite iter_shr_1_m; rewrite shr_record_of_loc_m; auto.
    repeat split; auto.
    intros -> Hmod. apply loc_of_exact_record, iter_shr_1_exact; simpl; auto.
    split; reflexivity.
Qed.

Lemma shr_noop mrs e n : n <= 0 -> shr mrs e n = (mrs, e).
Proof. destruct n; try reflexivity. lia. Qed.

(** *** The last step of rounding

    After the mantissa has been rounded to 53 bits it may have grown to
    [2^53]; [finish] renormalises it and decides between zero, a finite
    number and infinity.  [finished] says which, in closed form. *)

Lemma binary_round_aux_finish s mx ex lx :
  binary_round_aux s mx ex lx =
  finish s (round_nearest_even (shr_m (fst (shr_fexp mx ex lx)))
                               (loc_of_shr_record (fst (shr_fexp mx ex lx))))
         (snd (shr_fexp mx ex lx)).
Proof.
  unfold SpecFloat.binary_round_aux, finish.
  destruct (shr_fexp mx ex lx) as [mrs' e']. reflexivity.
Qed.

Lemma finish_spec s m1 e :
  0 <= m1 <= 2 ^ 53 -> -1074 <= e -> finish s m1 e = finished s m1 e.
Proof.
  intros Hm He. unfold finish, finished, SpecFloat.shr_fexp.
  destruct (Z.eqb_spec m1 0) as [->|Hn].
  { simpl Zdigits2. rewrite shr_noop by (rewrite fexp_eq; lia). reflexivity. }
  destruct (Z.ltb_spec m1 (2 ^ 53)) as [Hlt|Hge].
  - assert (Zdigits2 m1 <= 53) by (apply Zdigits2_le; lia).
    rewrite shr_noop by (rewrite fexp_eq; lia).
    simpl. destruct m1; try lia. reflexivity.
  - assert (m1 = 2 ^ 53) by lia. subst m1.
    replace (fexp (Zdigits2 (2 ^ 53) + e) - e) with 1.
    2:{ rewrite fexp_eq. change (Zdigits2 (2 ^ 53)) with 54. lia. }
    reflexivity.
Qed.

(** *** Rounding an aligned mantissa

    A mantissa is aligned when it carries at least the bits its value
    keeps, so that rounding only ever shifts to the right. *)

Lemma binary_round_aux_aligned s mx ex lx :
  0 <= mx -> ex <= fexp (Zdigits2 mx + ex) ->
  let n := fexp (Zdigits2 mx + ex) - ex in
  exists m1,
    mx / 2 ^ n <= m1 <= mx / 2 ^ n + 1
    /\ m1 <= 2 ^ 53
    /\ (lx = loc_Exact -> mx mod 2 ^ n = 0 -> m1 = mx / 2 ^ n)
    /\ binary_round_aux s mx ex lx = finished s m1 (fexp (Zdigits2 mx + ex)).
Proof.
  intros Hm Hal n.
  assert (Hn : 0 <= n) by (unfold n; lia).
  rewrite binary_round_aux_finish. unfold SpecFloat.shr_fexp. fold n.
  destruct (shr_spec mx lx ex n Hm Hn) as (Hq & He & Hex).
  set (mrs := fst (shr (shr_record_of_loc mx lx) ex n)) in *.
  rewrite He.
  replace (ex + n) with (fexp (Zdigits2 mx + ex)) by (unfold n; lia).
  assert (P : 0 < 2 ^ n) by (apply Z.pow_pos_nonneg; lia).
  assert (Hq0 : 0 <= mx / 2 ^ n) by (apply Z.div_pos; lia).
  assert (Hq53 : mx / 2 ^ n < 2 ^ 53).
  { assert (Zdigits2 (mx / 2 ^ n) <= 53).
    { rewrite Zdigits2_shiftr by lia. unfold n. rewrite fexp_eq. lia. }
    destruct (Z.eq_dec (mx / 2 ^ n) 0) as [->|]; [lia|].
    pose proof (Zdigits2_bounds (mx / 2 ^ n) ltac:(lia)) as [_ B].
    assert (2 ^ Zdigits2 (mx / 2 ^ n) <= 2 ^ 53) by (apply Z.pow_le_mono_r; lia).
    lia. }
  exists (round_nearest_even (shr_m mrs) (loc_of_shr_record mrs)).
  assert (R : shr_m mrs <= round_nearest_even (shr_m mrs) (loc_of_shr_record mrs)
              <= shr_m mrs + 1).
  { unfold round_nearest_even.
    destruct (loc_of_shr_record mrs) as [|[]]; try lia.
    destruct (Z.even (shr_m mrs)); lia. }
  rewrite <- Hq in Hq0, Hq53 |- *.
  split; [lia|]. split; [lia|]. split.
  - intros Hl Hmod. rewrite (Hex Hl Hmod). reflexivity.
  - apply finish_spec; [lia|rewrite fexp_eq; lia].
Qed.

(** *** Shapes of results *)

Lemma signed_nn x : signed false x -> nn x = true.
Proof. destruct x; simpl; intros; subst; auto; contradiction. Qed.

Lemma below_fin B x : below B x -> fin x = true.
Proof. destruct x; simpl; auto; contradiction. Qed.

Lemma below_le B B' x : B <= B' -> below B x -> below B' x.
Proof. destruct x; simpl; auto. lia. Qed.

Lemma shr_m_nonneg m l e n :
  0 <= m -> 0 <= shr_m (fst (shr (shr_record_of_loc m l) e n)).
Proof.
  intros Hm. destruct (Z.le_gt_cases n 0).
  - rewrite shr_noop by lia. simpl. rewrite shr_record_of_loc_m. lia.
  - destruct (shr_spec m l e n) as (-> & _); try lia.
    apply Z.div_pos; [lia | apply Z.pow_pos_nonneg; lia].
Qed.

Lemma round_nearest_even_ge m l : m <= round_nearest_even m l.
Proof.
  unfold round_nearest_even. destruct l as [|[]]; try lia.
  destruct (Z.even m); lia.
Qed.

Lemma finish_signed s m1 e : 0 <= m1 -> signed s (finish s m1 e).
Proof.
  intros Hm. unfold finish, SpecFloat.shr_fexp.
  pose proof (shr_m_nonneg m1 loc_Exact e (fexp (Zdigits2 m1 + e) - e) Hm) as H.
  destruct (shr _ e _) as [mrs e']. simpl in H.
  destruct (shr_m mrs); try lia; [reflexivity|].
  destruct (e' <=? emax - prec); reflexivity.
Qed.

(** Rounding a non-negative mantissa never yields NaN and keeps the sign. *)
Lemma binary_round_aux_signed s mx ex lx :
  0 <= mx -> signed s (binary_round_aux s mx ex lx).
Proof.
  intros Hm. rewrite binary_round_aux_finish. apply finish_signed.
  pose proof (shr_m_nonneg mx lx ex (fexp (Zdigits2 mx + ex) - ex) Hm) as H.
  unfold SpecFloat.shr_fexp.
  pose proof (round_nearest_even_ge
                (shr_m (fst (shr (shr_record_of_loc mx lx) ex
                                 (fexp (Zdigits2 mx + ex) - ex))))
                (loc_of_shr_record
                   (fst (shr (shr_record_of_loc mx lx) ex
                             (fexp (Zdigits2 mx + ex) - ex))))).
  lia.
Qed.

Lemma finished_below s m1 e B :
  0 <= m1 <= 2 ^ 53 -> e + 54 <= B -> B <= 1024 -> below B (finished s m1 e).
Proof.
  intros Hm He HB. unfold finished.
  destruct (Z.eqb_spec m1 0); [exact I|].
  destruct (Z.ltb_spec m1 (2 ^ 53)).
  - destruct (Z.leb_spec e 971); [|lia]. simpl.
    assert (Zdigits2 m1 <= 53) by (apply Zdigits2_le; lia).
    destruct m1; try lia. simpl in *. lia.
  - destruct (Z.leb_spec (e + 1) 971); [|lia]. simpl. lia.
Qed.

(** Rounding an aligned mantissa whose value is below [2^B] gives a finite
    result below [2^(B+1)]. *)
Lemma binary_round_aux_below s mx ex lx B :
  0 <= mx -> ex <= fexp (Zdigits2 mx + ex) ->
  Zdigits2 mx + ex <= B -> -1021 <= B <= 1023 ->
  below (B + 1) (binary_round_aux s mx ex lx).
Proof.
  intros Hm Hal HD HB.
  destruct (binary_round_aux_aligned s mx ex lx Hm Hal) as (m1 & H1 & H2 & _ & ->).
  apply finished_below; try lia.
  - split; [|lia].
    assert (0 <= mx / 2 ^ (fexp (Zdigits2 mx + ex) - ex)); [|lia].
    apply Z.div_pos; [lia | apply Z.pow_pos_nonneg; lia].
  - rewrite fexp_eq. lia.
Qed.

(** *** Valid representations *)

Lemma valid_finite s m e :
  valid_binary (S754_finite s m e) = true ->
  fexp (Zdigits2 (Zpos m) + e) = e /\ e <= 971.
Proof.
  unfold SpecFloat.valid_binary, bounded, canonical_mantissa. simpl.
  intros H. apply andb_prop in H as [H1 H2].
  apply Z.eqb_eq in H1. apply Z.leb_le in H2. split; [exact H1|exact H2].
Qed.

Lemma valid_below x : valid_binary x = true -> fin x = true -> below 1024 x.
Proof.
  destruct x as [| | |s m e]; intros H F; try discriminate F; try exact I.
  apply valid_finite in H as [H1 H2].
  rewrite fexp_eq in H1. unfold below. lia.
Qed.

Lemma Zdigits2_pos_ge1 m : 1 <= Zdigits2 (Zpos m).
Proof. simpl. lia. Qed.

Lemma Zdigits2_mul a b :
  0 < a -> 0 < b ->
  Zdigits2 a + Zdigits2 b - 1 <= Zdigits2 (a * b) <= Zdigits2 a + Zdigits2 b.
Proof.
  intros Ha Hb.
  pose proof (Zdigits2_bounds a Ha) as [A1 A2].
  pose proof (Zdigits2_bounds b Hb) as [B1 B2].
  assert (1 <= Zdigits2 a).
  { destruct a; try lia. apply Zdigits2_pos_ge1. }
  assert (1 <= Zdigits2 b).
  { destruct b; try lia. apply Zdigits2_pos_ge1. }
  split.
  - assert (Zdigits2 a - 1 + (Zdigits2 b - 1) + 1 <= Zdigits2 (a * b)); [|lia].
    apply Zdigits2_ge; [lia|].
    rewrite Z.pow_add_r by lia.
    apply Z.mul_le_mono_nonneg; try lia; apply Z.pow_nonneg; lia.
  - apply Zdigits2_le; try nia.
    rewrite Z.pow_add_r by lia.
    apply Z.mul_lt_mono_nonneg; lia.
Qed.

(** *** Multiplication *)

Lemma SFmul_nn x y :
  nn x = true -> nn y = true -> fin x = true -> fin y = true ->
  nn (SF64mul x y) = true.
Proof.
  destruct x as [sx|sx| |sx mx ex], y as [sy|sy| |sy my ey];
    simpl; try discriminate; auto.
  intros Hx Hy _ _. apply negb_true_iff in Hx, Hy. subst.
  apply signed_nn, binary_round_aux_signed. lia.
Qed.

Lemma SFmul_below x y Bx By :
  valid_binary x = true -> valid_binary y = true ->
  below Bx x -> below By y -> -1021 <= Bx + By <= 1023 ->
  below (Bx + By + 1) (SF64mul x y).
Proof.
  destruct x as [sx|sx| |sx mx ex], y as [sy|sy| |sy my ey];
    simpl; try contradiction; auto.
  intros Vx Vy Hx Hy HB. fold_digits.
  apply (valid_finite sx) in Vx as [Cx _]. apply (valid_finite sy) in Vy as [Cy _].
  rewrite fexp_eq in Cx, Cy.
  pose proof (Zdigits2_mul (Zpos mx) (Zpos my) ltac:(lia) ltac:(lia)) as [D1 D2].
  pose proof (Zdigits2_pos_ge1 mx). pose proof (Zdigits2_pos_ge1 my).
  change (Zpos (mx * my)) with (Zpos mx * Zpos my).
  apply binary_round_aux_below; try lia.
  rewrite fexp_eq. lia.
Qed.

(** *** Addition *)

Lemma shl_align_spec mx ex ex' :
  Zpos (fst (shl_align mx ex ex')) = Zpos mx * 2 ^ (ex - Z.min ex ex')
  /\ snd (shl_align mx ex ex') = Z.min ex ex'.
Proof.
  unfold shl_align.
  destruct (ex' - ex) as [|d|d] eqn:E; simpl.
  - replace (ex - Z.min ex ex') with 0 by lia. simpl. lia.
  - replace (ex - Z.min ex ex') with 0 by lia. simpl. lia.
  - replace (ex - Z.min ex ex') with (Zpos d) by lia.
    split; [|lia].
    rewrite <- Z.shiftl_mul_pow2 by lia. simpl.
    apply (Pos.iter_swap_gen _ _ Zpos xO (Z.mul 2)). reflexivity.
Qed.

(** [binary_round] aligns its mantissa before rounding it. *)
Lemma binary_round_aligned s m e :
  exists mz ez,
    binary_round s m e = binary_round_aux s (Zpos mz) ez loc_Exact
    /\ Zdigits2 (Zpos mz) + ez = Zdigits2 (Zpos m) + e
    /\ ez <= fexp (Zdigits2 (Zpos mz) + ez)
    /\ ez = Z.min e (fexp (Zdigits2 (Zpos m) + e))
    /\ Zpos mz = Zpos m * 2 ^ (e - ez).
Proof.
  unfold SpecFloat.binary_round.
  change (Zpos (digits2_pos m)) with (Zdigits2 (Zpos m)).
  destruct (shl_align_spec m e (fexp (Zdigits2 (Zpos m) + e))) as [H1 H2].
  destruct (shl_align m e (fexp (Zdigits2 (Zpos m) + e))) as [mz ez].
  cbn [fst snd] in H1, H2. exists mz, ez.
  assert (D : Zdigits2 (Zpos mz) + ez = Zdigits2 (Zpos m) + e).
  { rewrite H1, Zdigits2_shiftl by lia. lia. }
  split; [reflexivity|]. split; [exact D|].
  split; [rewrite D; lia|]. split; [lia|]. rewrite H1, H2. reflexivity.
Qed.

Lemma SFadd_nn x y : nn x = true -> nn y = true -> nn (SF64add x y) = true.
Proof.
  destruct x as [sx|sx| |sx mx ex], y as [sy|sy| |sy my ey];
    simpl; try discriminate; auto.
  - destruct sx, sy; reflexivity.
  - intros Hx Hy. apply negb_true_iff in Hx, Hy. subst. reflexivity.
  - intros Hx Hy. apply negb_true_iff in Hx, Hy. subst. simpl.
    destruct (binary_round_aligned false
                (fst (shl_align mx ex (Z.min ex ey))
                 + fst (shl_align my ey (Z.min ex ey))) (Z.min ex ey))
      as (mz & ez & -> & _).
    apply signed_nn, binary_round_aux_signed. lia.
Qed.

Lemma SFadd_below x y B :
  nn x = true -> nn y = true -> below B x -> below B y ->
  -1022 <= B <= 1022 -> below (B + 2) (SF64add x y).
Proof.
  destruct x as [sx|sx| |sx mx ex], y as [sy|sy| |sy my ey];
    simpl; try contradiction; auto; try lia.
  - destruct sx, sy; auto.
  - intros Hx Hy Bx By HB. apply negb_true_iff in Hx, Hy. subst. simpl.
    fold_digits.
    destruct (shl_align_spec mx ex (Z.min ex ey)) as [X1 _].
    destruct (shl_align_spec my ey (Z.min ex ey)) as [Y1 _].
    set (ax := fst (shl_align mx ex (Z.min ex ey))) in *.
    set (ay := fst (shl_align my ey (Z.min ex ey))) in *.
    set (ez := Z.min ex ey) in *.
    rewrite Z.min_r in X1 by lia. rewrite Z.min_r in Y1 by lia.
    destruct (binary_round_aligned false (ax + ay) ez)
      as (mz & ez' & -> & D & Hal & _).
    replace (B + 2) with (B + 1 + 1) by lia.
    apply binary_round_aux_below; try lia.
    rewrite D.
    pose proof (Zdigits2_pos_ge1 mx). pose proof (Zdigits2_pos_ge1 my).
    pose proof (Zdigits2_bounds (Zpos mx) ltac:(lia)) as [_ Ux].
    pose proof (Zdigits2_bounds (Zpos my) ltac:(lia)) as [_ Uy].
    assert (Zdigits2 (Zpos (ax + ay)) <= B - ez + 1); [|lia].
    apply Zdigits2_le; try lia.
    rewrite Pos2Z.inj_add, X1, Y1.
    assert (Zpos mx * 2 ^ (ex - ez) < 2 ^ (B - ez)).
    { apply Z.lt_le_trans with (2 ^ (Zdigits2 (Zpos mx) + (ex - ez))).
      - rewrite Z.pow_add_r by lia.
        apply Z.mul_lt_mono_pos_r; [apply Z.pow_pos_nonneg; lia|lia].
      - apply Z.pow_le_mono_r; lia. }
    assert (Zpos my * 2 ^ (ey - ez) < 2 ^ (B - ez)).
    { apply Z.lt_le_trans with (2 ^ (Zdigits2 (Zpos my) + (ey - ez))).
      - rewrite Z.pow_add_r by lia.
        apply Z.mul_lt_mono_pos_r; [apply Z.pow_pos_nonneg; lia|lia].
      - apply Z.pow_le_mono_r; lia. }
    rewrite Z.pow_add_r by lia. change (2 ^ 1) with 2. lia.
Qed.

(** *** A lower bound on sums *)

Lemma finished_at_least mc ec m1 e :
  2 ^ 52 <= m1 <= 2 ^ 53 -> ec < e \/ (e = ec /\ Zpos mc <= m1) ->
  at_least mc ec (finished false m1 e).
Proof.
  intros Hm H. unfold finished.
  destruct (Z.eqb_spec m1 0); [lia|].
  destruct (Z.ltb_spec m1 (2 ^ 53)).
  - destruct (e <=? 971); [|exact I].
    destruct m1; simpl; lia.
  - destruct (e + 1 <=? 971); [|exact I]. simpl. lia.
Qed.

(** Adding a non-negative number to a positive normal number does not
    make it smaller. *)
Lemma SFadd_at_least mc ec y :
  Zdigits2 (Zpos mc) = 53 -> -1074 <= ec ->
  nn y = true ->
  at_least mc ec (SF64add (S754_finite false mc ec) y).
Proof.
  intros Hd Hec Hy.
  destruct y as [sy|sy| |sy my ey]; simpl in Hy; try discriminate.
  - simpl. lia.
  - apply negb_true_iff in Hy. subst. exact I.
  - apply negb_true_iff in Hy. subst. simpl.
    destruct (shl_align_spec mc ec (Z.min ec ey)) as [X1 _].
    destruct (shl_align_spec my ey (Z.min ec ey)) as [Y1 _].
    set (ax := fst (shl_align mc ec (Z.min ec ey))) in *.
    set (ay := fst (shl_align my ey (Z.min ec ey))) in *.
    set (ez := Z.min ec ey) in *.
    rewrite Z.min_r in X1 by lia. rewrite Z.min_r in Y1 by lia.
    destruct (binary_round_aligned false (ax + ay) ez)
      as (mz & ez' & -> & D & Hal & Hez & Hmz).
    destruct (binary_round_aux_aligned false (Zpos mz) ez' loc_Exact
                ltac:(lia) Hal) as (m1 & H1 & H2 & _ & ->).
    rewrite D in *.
    set (DD := Zdigits2 (Zpos (ax + ay)) + ez) in *.
    assert (Dax : Zdigits2 (Zpos ax) = 53 + (ec - ez)).
    { rewrite X1, Zdigits2_shiftl by lia. lia. }
    assert (HD : 53 + ec <= DD).
    { pose proof (Zdigits2_mono (Zpos ax) (Zpos (ax + ay)) ltac:(lia)).
      unfold DD. lia. }
    assert (Hf : fexp DD = DD - 53) by (rewrite fexp_eq; lia).
    rewrite Hf in *.
    set (n := DD - 53 - ez') in *.
    assert (Hn : 0 <= n) by (unfold n; lia).
    assert (P : 0 < 2 ^ n) by (apply Z.pow_pos_nonneg; lia).
    assert (Hq : Zdigits2 (Zpos mz / 2 ^ n) = 53).
    { rewrite Zdigits2_shiftr by lia. unfold n, DD in *. lia. }
    assert (Hq52 : 2 ^ 52 <= Zpos mz / 2 ^ n).
    { assert (0 <= Zpos mz / 2 ^ n) by (apply Z.div_pos; lia).
      destruct (Z.eq_dec (Zpos mz / 2 ^ n) 0) as [E|E].
      - rewrite E in Hq. discriminate.
      - pose proof (Zdigits2_bounds (Zpos mz / 2 ^ n) ltac:(lia)) as [B _].
        rewrite Hq in B. exact B. }
    apply finished_at_least; [lia|].
    destruct (Z.eq_dec (DD - 53) ec) as [E|E]; [right|left; lia].
    split; [exact E|].
    apply Z.le_trans with (Zpos mz / 2 ^ n); [|lia].
    apply Z.div_le_lower_bound; [lia|].
    rewrite Hmz, Pos2Z.inj_add, X1.
    replace n with (ec - ez') by (unfold n; lia).
    replace (ec - ez') with ((ec - ez) + (ez - ez')) by lia.
    rewrite Z.pow_add_r by lia.
    assert (0 < 2 ^ (ez - ez')) by (apply Z.pow_pos_nonneg; lia).
    assert (0 < 2 ^ (ec - ez)) by (apply Z.pow_pos_nonneg; lia).
    nia.
Qed.

Lemma at_least_leb m0 e0 mc ec r :
  e0 < ec \/ (e0 = ec /\ Zpos m0 <= Zpos mc) ->
  at_least mc ec r -> SFleb (S754_finite false m0 e0) r = true.
Proof.
  intros H0 H. destruct r as [s|s| |s m e]; simpl in H; try contradiction.
  - destruct s; [contradiction|reflexivity].
  - destruct s; [contradiction|].
    unfold SFleb, SFcompare.
    destruct (Z.compare_spec e0 e) as [E|E|E]; try reflexivity; try lia.
    change (Pos.compare_cont Eq m0 m) with (Pos.compare m0 m).
    destruct (Pos.compare_spec m0 m) as [E'|E'|E']; try reflexivity. lia.
Qed.

(** *** Division by two *)

Lemma SFdiv_core_two mx ex :
  let e' := Z.min (fexp (Zdigits2 (Zpos mx) + ex - 2)) (ex + 51) in
  let m' := Zpos mx * 2 ^ (ex + 51 - e') in
  SFdiv_core_binary prec emax (Zpos mx) ex 4503599627370496 (-51)
  = (m' / 2 ^ 52, e', new_location (2 ^ 52) (m' mod 2 ^ 52)).
Proof.
  intros e' m'. unfold SFdiv_core_binary.
  change (Zdigits2 4503599627370496) with 53.
  replace (Zdigits2 (Zpos mx) + ex - (53 + -51)) with (Zdigits2 (Zpos mx) + ex - 2) by lia.
  replace (ex - -51) with (ex + 51) by lia.
  fold e'.
  assert (Hs : 0 <= ex + 51 - e') by (unfold e'; lia).
  assert (Hm : match ex + 51 - e' with
               | Zpos _ => Z.shiftl (Zpos mx) (ex + 51 - e')
               | Z0 => Zpos mx
               | Zneg _ => 0
               end = m').
  { unfold m'. rewrite <- Z.shiftl_mul_pow2 by lia.
    destruct (ex + 51 - e'); try lia; reflexivity. }
  rewrite Hm. change 4503599627370496 with (2 ^ 52).
  unfold Z.div, Z.modulo.
  destruct (Z.div_eucl m' (2 ^ 52)). reflexivity.
Qed.

Lemma SFdiv_two_nn x : nn x = true -> nn (SF64div x two) = true.
Proof.
  destruct x as [sx|sx| |sx mx ex]; simpl; try discriminate; auto.
  - destruct sx; auto.
  - intros Hx. apply negb_true_iff in Hx. subst.
    pose proof (SFdiv_core_two mx ex) as E. cbv zeta in E.
    unfold SF64div, SFdiv, two. rewrite E.
    apply signed_nn, binary_round_aux_signed.
    apply Z.div_pos; [|lia].
    apply Z.mul_nonneg_nonneg; [lia|]. apply Z.pow_nonneg. lia.
Qed.

Lemma SFdiv_two_below x :
  valid_binary x = true -> fin x = true -> below 1024 (SF64div x two).
Proof.
  destruct x as [sx|sx| |sx mx ex]; intros V F; try discriminate F.
  - exact I.
  - apply valid_finite in V as [C Hex]. rewrite fexp_eq in C.
    pose proof (SFdiv_core_two mx ex) as E. cbv zeta in E.
    unfold SF64div, SFdiv, two. rewrite E. clear E.
    set (e' := Z.min (fexp (Zdigits2 (Zpos mx) + ex - 2)) (ex + 51)).
    assert (He' : e' = Z.min (Z.max (Zdigits2 (Zpos mx) + ex - 55) (-1074)) (ex + 51))
      by (unfold e'; rewrite fexp_eq; f_equal; lia).
    pose proof (Zdigits2_pos_ge1 mx) as Hd.
    assert (Hs : 0 <= ex + 51 - e') by lia.
    assert (P : 0 < 2 ^ (ex + 51 - e')) by (apply Z.pow_pos_nonneg; lia).
    assert (Hq : Zdigits2 (Zpos mx * 2 ^ (ex + 51 - e') / 2 ^ 52)
                 = Z.max (Zdigits2 (Zpos mx) + (ex + 51 - e') - 52) 0).
    { rewrite Zdigits2_shiftr by nia. rewrite Zdigits2_shiftl by lia. reflexivity. }
    replace 1024 with (1023 + 1) by lia.
    apply binary_round_aux_below; try (rewrite Hq); try (rewrite fexp_eq); try lia.
    apply Z.div_pos; nia.
Qed.

(** *** Exact results *)

(** Rounding loses nothing when the bits it drops are all zero. *)
Lemma binary_round_aux_exact s M e :
  0 < M -> e <= fexp (Zdigits2 M + e) ->
  M mod 2 ^ (fexp (Zdigits2 M + e) - e) = 0 ->
  fexp (Zdigits2 M + e) <= 971 ->
  binary_round_aux s M e loc_Exact
  = S754_finite s (Z.to_pos (M / 2 ^ (fexp (Zdigits2 M + e) - e)))
                (fexp (Zdigits2 M + e)).
Proof.
  intros HM Hal Hmod Hf.
  destruct (binary_round_aux_aligned s M e loc_Exact ltac:(lia) Hal)
    as (m1 & _ & _ & Hex & ->).
  rewrite (Hex eq_refl Hmod).
  set (n := fexp (Zdigits2 M + e) - e) in *.
  assert (Hn : 0 <= n) by (unfold n; lia).
  assert (P : 0 < 2 ^ n) by (apply Z.pow_pos_nonneg; lia).
  assert (Hq : Zdigits2 (M / 2 ^ n) <= 53).
  { rewrite Zdigits2_shiftr by lia. unfold n. rewrite fexp_eq. lia. }
  assert (Hpos : 0 < M / 2 ^ n).
  { apply Z.mod_divide in Hmod; [|lia]. destruct Hmod as [k Hk].
    rewrite Hk, Z.div_mul by lia. nia. }
  assert (Hlt : M / 2 ^ n < 2 ^ 53).
  { pose proof (Zdigits2_bounds _ Hpos) as [_ U].
    assert (2 ^ Zdigits2 (M / 2 ^ n) <= 2 ^ 53) by (apply Z.pow_le_mono_r; lia).
    lia. }
  unfold finished.
  destruct (Z.eqb_spec (M / 2 ^ n) 0); [lia|].
  destruct (Z.ltb_spec (M / 2 ^ n) (2 ^ 53)); [|lia].
  destruct (Z.leb_spec (fexp (Zdigits2 M + e)) 971); [reflexivity|lia].
Qed.

(** A whole number [k] below [2^53], given as [k * 2^(-e)] at the
    exponent [e], is normalised to the double of [k]. *)
Lemma binary_round_whole s m e k :
  0 < k < 2 ^ 53 -> e <= 0 -> Zpos m = k * 2 ^ (- e) ->
  binary_round s m e
  = S754_finite s (Z.to_pos (k * 2 ^ (53 - Zdigits2 k))) (Zdigits2 k - 53).
Proof.
  intros Hk He Hm.
  assert (Hdk : Zdigits2 k <= 53) by (apply Zdigits2_le; lia).
  assert (Hdk1 : 1 <= Zdigits2 k).
  { destruct k; try lia. apply Zdigits2_pos_ge1. }
  destruct (binary_round_aligned s m e) as (mz & ez & -> & D & Hal & Hez & Hmz).
  assert (Dm : Zdigits2 (Zpos m) + e = Zdigits2 k).
  { rewrite Hm, Zdigits2_shiftl by lia. lia. }
  rewrite Dm in *.
  assert (Hfe : fexp (Zdigits2 k) = Zdigits2 k - 53) by (rewrite fexp_eq; lia).
  assert (Hmz' : Zpos mz = k * 2 ^ (- ez)).
  { rewrite Hmz, Hm, <- Z.mul_assoc, <- Z.pow_add_r by lia.
    f_equal. f_equal. lia. }
  rewrite binary_round_aux_exact; rewrite ?D, ?Hfe; try lia.
  - f_equal. f_equal. rewrite Hmz'.
    replace (- ez) with ((53 - Zdigits2 k) + (Zdigits2 k - 53 - ez)) at 1 by lia.
    rewrite Z.pow_add_r, Z.mul_assoc by lia.
    apply Z.div_mul.
    assert (0 < 2 ^ (Zdigits2 k - 53 - ez)) by (apply Z.pow_pos_nonneg; lia). lia.
  - rewrite Hmz'.
    replace (- ez) with ((53 - Zdigits2 k) + (Zdigits2 k - 53 - ez)) by lia.
    rewrite Z.pow_add_r, Z.mul_assoc by lia.
    apply Z.mod_mul.
    assert (0 < 2 ^ (Zdigits2 k - 53 - ez)) by (apply Z.pow_pos_nonneg; lia). lia.
Qed.

(** *** Whole numbers *)

Lemma SFofZ_pos n :
  0 < n < 2 ^ 53 ->
  SFofZ n = S754_finite false (Z.to_pos (n * 2 ^ (53 - Zdigits2 n)))
                        (Zdigits2 n - 53).
Proof.
  intros Hn. destruct n as [|p|p]; try lia.
  unfold SFofZ, SpecFloat.binary_normalize.
  apply binary_round_whole; [lia|lia|].
  change (2 ^ (- 0)) with 1. lia.
Qed.

Lemma SFofZ_shape n :
  0 <= n < 2 ^ 53 -> nn (SFofZ n) = true /\ below 53 (SFofZ n).
Proof.
  intros Hn. destruct (Z.eq_dec n 0) as [->|].
  - split; [reflexivity|exact I].
  - rewrite SFofZ_pos by lia. split; [reflexivity|].
    unfold below.
    assert (Zdigits2 n <= 53) by (apply Zdigits2_le; lia).
    assert (0 < 2 ^ (53 - Zdigits2 n)) by (apply Z.pow_pos_nonneg; lia).
    rewrite Z2Pos.id by nia.
    rewrite Zdigits2_shiftl by lia. lia.
Qed.

(** Whole numbers add exactly as long as the sum stays below [2^53]. *)
Lemma SFadd_whole a b :
  0 <= a -> 0 < b -> a + b < 2 ^ 53 ->
  SF64add (SFofZ a) (SFofZ b) = SFofZ (a + b).
Proof.
  intros Ha Hb Hab.
  destruct (Z.eq_dec a 0) as [->|Hna].
  { rewrite Z.add_0_l, (SFofZ_pos b) by lia. reflexivity. }
  assert (Hda : Zdigits2 a <= 53) by (apply Zdigits2_le; lia).
  assert (Hdb : Zdigits2 b <= 53) by (apply Zdigits2_le; lia).
  assert (Hda1 : 1 <= Zdigits2 a) by (destruct a; try lia; apply Zdigits2_pos_ge1).
  assert (Hdb1 : 1 <= Zdigits2 b) by (destruct b; try lia; apply Zdigits2_pos_ge1).
  assert (Pa : 0 < 2 ^ (53 - Zdigits2 a)) by (apply Z.pow_pos_nonneg; lia).
  assert (Pb : 0 < 2 ^ (53 - Zdigits2 b)) by (apply Z.pow_pos_nonneg; lia).
  rewrite (SFofZ_pos a), (SFofZ_pos b), (SFofZ_pos (a + b)) by lia.
  unfold SF64add, SFadd. cbn [cond_Zopp].
  set (ma := Z.to_pos (a * 2 ^ (53 - Zdigits2 a))).
  set (mb := Z.to_pos (b * 2 ^ (53 - Zdigits2 b))).
  set (ez := Z.min (Zdigits2 a - 53) (Zdigits2 b - 53)).
  destruct (shl_align_spec ma (Zdigits2 a - 53) ez) as [X1 _].
  destruct (shl_align_spec mb (Zdigits2 b - 53) ez) as [Y1 _].
  rewrite Z.min_r in X1 by (unfold ez; lia).
  rewrite Z.min_r in Y1 by (unfold ez; lia).
  unfold SpecFloat.binary_normalize.
  change (Zpos (fst (shl_align ma (Zdigits2 a - 53) ez))
          + Zpos (fst (shl_align mb (Zdigits2 b - 53) ez)))
    with (Zpos (fst (shl_align ma (Zdigits2 a - 53) ez)
                + fst (shl_align mb (Zdigits2 b - 53) ez))).
  apply binary_round_whole; try lia.
  rewrite Pos2Z.inj_add, X1, Y1. unfold ma, mb.
  rewrite !Z2Pos.id by nia.
  rewrite <- !Z.mul_assoc, <- !Z.pow_add_r by (unfold ez; lia).
  replace (53 - Zdigits2 a + (Zdigits2 a - 53 - ez)) with (- ez) by lia.
  replace (53 - Zdigits2 b + (Zdigits2 b - 53 - ez)) with (- ez) by lia.
  ring.
Qed.

(** Halving a normal number well above the subnormal range only lowers
    its exponent. *)
Lemma SFdiv_two_normal mx ex :
  Zdigits2 (Zpos mx) = 53 -> -1072 <= ex <= 971 ->
  SF64div (S754_finite false mx ex) two = S754_finite false mx (ex - 1).
Proof.
  intros Hd Hex.
  pose proof (SFdiv_core_two mx ex) as E. cbv zeta in E.
  unfold SF64div, SFdiv, two. rewrite E. clear E.
  rewrite Hd, fexp_eq.
  replace (Z.min (Z.max (53 + ex - 2 - 53) (-1074)) (ex + 51)) with (ex - 2) by lia.
  replace (ex + 51 - (ex - 2)) with 53 by lia.
  replace (Zpos mx * 2 ^ 53) with (Zpos mx * 2 * 2 ^ 52)
    by (change (2 ^ 53) with (2 * 2 ^ 52); ring).
  rewrite Z.div_mul, Z.mod_mul by lia.
  change (new_location (2 ^ 52) 0) with loc_Exact.
  assert (D : Zdigits2 (Zpos mx * 2) = 54).
  { change 2 with (2 ^ 1) at 1. rewrite Zdigits2_shiftl by lia. lia. }
  cbn [xorb].
  rewrite binary_round_aux_exact; rewrite ?D, ?fexp_eq; try lia.
  - replace (Z.max (54 + (ex - 2) - 53) (-1074)) with (ex - 1) by lia.
    replace (ex - 1 - (ex - 2)) with 1 by lia.
    change (2 ^ 1) with 2. rewrite Z.div_mul by lia. reflexivity.
  - replace (Z.max (54 + (ex - 2) - 53) (-1074) - (ex - 2)) with 1 by lia.
    change (2 ^ 1) with 2. apply Z.mod_mul. lia.
Qed.

End Binary64Facts.

(** ** Facts about JavaScript numbers *)

Module NumberFacts.
Import Binary64 Binary64Facts.
Local Open Scope float_scope.

Lemma SFeqb_refl x : SFeqb x x = negb match x with S754_nan => true | _ => false end.
Proof.
  destruct x as [s|s| |s m e]; try destruct s; try reflexivity;
    unfold SFeqb, SFcompare;
    rewrite Z.compare_refl, Pos.compare_cont_refl; reflexivity.
Qed.

Lemma is_nan_spec x :
  PrimFloat.is_nan x = match Prim2SF x with S754_nan => true | _ => false end.
Proof.
  unfold PrimFloat.is_nan. rewrite FloatAxioms.eqb_spec, SFeqb_refl. apply negb_involutive.
Qed.

Lemma nonneg_spec x : JS.nonneg x = nn (Prim2SF x).
Proof.
  unfold JS.nonneg. rewrite FloatAxioms.leb_spec.
  change (Prim2SF 0) with (S754_zero false).
  destruct (Prim2SF x) as [s|s| |s m e]; try destruct s; reflexivity.
Qed.

Lemma isFinite_spec x : JS.isFinite x = fin (Prim2SF x).
Proof.
  unfold JS.isFinite, is_finite, is_infinity.
  rewrite is_nan_spec, FloatAxioms.eqb_spec, FloatAxioms.abs_spec.
  change (Prim2SF infinity) with (S754_infinity false).
  destruct (Prim2SF x) as [s|s| |s m e]; reflexivity.
Qed.

Lemma Prim2SF_two : Prim2SF 2 = two.
Proof. reflexivity. Qed.

(** A number that passes [min(0)]: not [NaN] and not below zero. *)
Lemma min0_nonneg x :
  PrimFloat.is_nan x = false -> (x <? 0) = false -> JS.nonneg x = true.
Proof.
  rewrite is_nan_spec, FloatAxioms.ltb_spec, nonneg_spec.
  change (Prim2SF 0) with (S754_zero false).
  destruct (Prim2SF x) as [s|s| |s m e]; try destruct s;
    try reflexivity; try discriminate.
Qed.

Lemma nonneg_not_nan x : JS.nonneg x = true -> PrimFloat.is_nan x = false.
Proof.
  rewrite is_nan_spec, nonneg_spec.
  destruct (Prim2SF x); try reflexivity; discriminate.
Qed.

Lemma mul_nonneg x y :
  JS.nonneg x = true -> JS.nonneg y = true ->
  JS.isFinite x = true -> JS.isFinite y = true ->
  JS.nonneg (x * y) = true.
Proof.
  rewrite !nonneg_spec, !isFinite_spec, FloatAxioms.mul_spec. apply SFmul_nn.
Qed.

Lemma add_nonneg x y :
  JS.nonneg x = true -> JS.nonneg y = true -> JS.nonneg (x + y) = true.
Proof. rewrite !nonneg_spec, FloatAxioms.add_spec. apply SFadd_nn. Qed.

Lemma half_nonneg x : JS.nonneg x = true -> JS.nonneg (x / 2) = true.
Proof. rewrite !nonneg_spec, FloatAxioms.div_spec, Prim2SF_two. apply SFdiv_two_nn. Qed.

Lemma half_below x :
  JS.isFinite x = true -> below 1024 (Prim2SF (x / 2)).
Proof.
  rewrite isFinite_spec, FloatAxioms.div_spec, Prim2SF_two.
  apply SFdiv_two_below, Prim2SF_valid.
Qed.

Lemma of_Z_spec n : (0 <= n < 2 ^ 53)%Z -> Prim2SF (JS.of_Z n) = SFofZ n.
Proof.
  intros Hn. unfold JS.of_Z, SFofZ. rewrite FloatAxioms.of_uint63_spec.
  rewrite Uint63.of_Z_spec, Z.mod_small; [reflexivity|].
  change wB with (2 ^ 63)%Z.
  assert (2 ^ 53 < 2 ^ 63)%Z by reflexivity. lia.
Qed.

Lemma shiftr_mantissa m e :
  (Zdigits2 (Zpos m) <= 53)%Z -> (e < 0)%Z ->
  (0 <= Z.shiftr (Zpos m) (- e) < 2 ^ 53)%Z.
Proof.
  intros Hd He. rewrite Z.shiftr_div_pow2 by lia.
  assert (P : (0 < 2 ^ (- e))%Z) by (apply Z.pow_pos_nonneg; lia).
  pose proof (Zdigits2_bounds (Zpos m) ltac:(lia)) as [_ U].
  assert (2 ^ Zdigits2 (Zpos m) <= 2 ^ 53)%Z by (apply Z.pow_le_mono_r; lia).
  split; [apply Z.div_pos; lia|].
  apply Z.le_lt_trans with (Zpos m); [|lia].
  apply Z.div_le_upper_bound; nia.
Qed.

(** [Math.floor] of a non-negative finite number is again one. *)
Lemma floor_shape x :
  nn (Prim2SF x) = true -> fin (Prim2SF x) = true ->
  nn (Prim2SF (JS.Math_floor x)) = true
  /\ below 1024 (Prim2SF (JS.Math_floor x)).
Proof.
  intros Hn Hf. unfold JS.Math_floor.
  pose proof (Prim2SF_valid x) as V.
  destruct (Prim2SF x) as [s|s| |s m e] eqn:E; try discriminate.
  - rewrite E. split; [reflexivity|exact I].
  - destruct (Z.leb_spec 0 e).
    + rewrite E. split; [exact Hn|]. apply valid_below; auto.
    + simpl in Hn. apply negb_true_iff in Hn. subst s.
      apply valid_finite in V as [C _]. rewrite fexp_eq in C.
      assert (Zdigits2 (Zpos m) <= 53)%Z by lia.
      pose proof (shiftr_mantissa m e ltac:(lia) ltac:(lia)) as Hq.
      change (of_uint63 (of_Z (Z.shiftr (Zpos m) (- e))))
        with (JS.of_Z (Z.shiftr (Zpos m) (- e))).
      rewrite of_Z_spec by lia.
      destruct (SFofZ_shape _ Hq) as [N B]. split; [exact N|].
      apply below_le with 53%Z; [lia|exact B].
Qed.

(** *** The per-diem rate *)

Local Abbreviation seniorityFactor v :=
  (JS.Math_floor (seniorityYears v / 2)).

Lemma seniorityFactor_shape v :
  JS.nonneg (seniorityYears v) = true -> JS.isFinite (seniorityYears v) = true ->
  nn (Prim2SF (seniorityFactor v)) = true
  /\ below 1024 (Prim2SF (seniorityFactor v)).
Proof.
  intros Hs Hf. apply floor_shape.
  - rewrite <- nonneg_spec. apply half_nonneg, Hs.
  - apply below_fin with 1024%Z, half_below, Hf.
Qed.

Lemma seniorityStep_shape v :
  JS.nonneg (seniorityYears v) = true -> JS.isFinite (seniorityYears v) = true ->
  nn (Prim2SF (seniorityFactor v * 0.05)) = true
  /\ below 1021 (Prim2SF (seniorityFactor v * 0.05)).
Proof.
  intros Hs Hf. destruct (seniorityFactor_shape v Hs Hf) as [N B].
  rewrite FloatAxioms.mul_spec. split.
  - apply SFmul_nn; auto. apply below_fin with 1024%Z, B.
  - replace 1021%Z with (1024 + -4 + 1)%Z by reflexivity.
    apply SFmul_below; auto using Prim2SF_valid.
    + change (Prim2SF 0.05) with (S754_finite false 7205759403792794 (-57)).
      simpl. lia.
    + lia.
Qed.

(** A per-diem base [c], a positive normal number between 2 and 4, plus
    the seniority step. *)
Lemma base_plus_step v c mc :
  Prim2SF c = S754_finite false mc (-51) -> Zdigits2 (Zpos mc) = 53%Z ->
  JS.nonneg (seniorityYears v) = true -> JS.isFinite (seniorityYears v) = true ->
  nn (Prim2SF (c + seniorityFactor v * 0.05)) = true
  /\ below 1023 (Prim2SF (c + seniorityFactor v * 0.05))
  /\ at_least mc (-51) (Prim2SF (c + seniorityFactor v * 0.05)).
Proof.
  intros Hc Hd Hs Hf. destruct (seniorityStep_shape v Hs Hf) as [N B].
  rewrite FloatAxioms.add_spec, Hc. repeat split.
  - apply SFadd_nn; auto.
  - replace 1023%Z with (1021 + 2)%Z by reflexivity.
    apply SFadd_below; auto; try lia.
    simpl. fold_digits. lia.
  - apply SFadd_at_least; auto. lia.
Qed.

Lemma perdiem_bounds v :
  JS.nonneg (seniorityYears v) = true -> JS.isFinite (seniorityYears v) = true ->
  JS.nonneg (perdiem (calculateTripValue v)) = true
  /\ JS.isFinite (perdiem (calculateTripValue v)) = true
  /\ (2.2 <=? perdiem (calculateTripValue v)) = true.
Proof.
  intros Hs Hf. unfold calculateTripValue. cbn [perdiem].
  rewrite nonneg_spec, isFinite_spec, FloatAxioms.leb_spec.
  change (Prim2SF 2.2) with (S754_finite false 4953959590107546 (-51)).
  destruct (internationalTrip v).
  - destruct (base_plus_step v 2.7 6079859496950170 eq_refl eq_refl Hs Hf)
      as (N & B & A).
    split; [exact N|]. split; [apply below_fin with 1023%Z, B|].
    apply at_least_leb with (2 := A). right. split; [reflexivity|]. lia.
  - destruct (base_plus_step v 2.2 4953959590107546 eq_refl eq_refl Hs Hf)
      as (N & B & A).
    split; [exact N|]. split; [apply below_fin with 1023%Z, B|].
    apply at_least_leb with (2 := A). right. split; [reflexivity|]. lia.
Qed.

(** *** The other components *)

Lemma validated_fields v :
  validated v = true ->
  JS.nonneg (seniorityYears v) = true /\ JS.nonneg (tafb v) = true
  /\ JS.nonneg (hourlyRate v) = true /\ JS.nonneg (credit v) = true
  /\ JS.nonneg (nightPayHours v) = true
  /\ (forall h, hoursInWidebody v = Some h -> JS.nonneg h = true).
Proof.
  unfold validated, numericValues. rewrite forallb_app. simpl.
  rewrite !andb_true_iff. intros [(H1 & H2 & H3 & H4 & H5 & _) H6].
  repeat split; auto.
  intros h Hh. rewrite Hh in H6. simpl in H6.
  apply andb_true_iff in H6 as [H6 _]. exact H6.
Qed.

Lemma allFinite_fields v :
  allFinite v = true ->
  JS.isFinite (seniorityYears v) = true /\ JS.isFinite (tafb v) = true
  /\ JS.isFinite (hourlyRate v) = true /\ JS.isFinite (credit v) = true
  /\ JS.isFinite (nightPayHours v) = true.
Proof.
  unfold allFinite, numericValues. rewrite forallb_app. simpl.
  rewrite !andb_true_iff. intros [(H1 & H2 & H3 & H4 & H5 & _) _].
  repeat split; auto.
Qed.

Lemma number_or_nonneg h d :
  (forall x, h = Some x -> JS.nonneg x = true) -> JS.nonneg d = true ->
  JS.nonneg (JS.number_or h d) = true.
Proof.
  intros Hh Hd. destruct h as [x|]; simpl; auto.
  destruct (JS.truthy x); auto.
Qed.

Lemma positionCredit_nonneg v :
  validated v = true -> JS.isFinite (credit v) = true ->
  JS.nonneg (positionCredit (calculateTripValue v)) = true.
Proof.
  intros V F. destruct (validated_fields v V) as (_ & _ & _ & Hc & _ & Hh).
  unfold calculateTripValue. cbn [positionCredit].
  destruct (position v).
  - apply mul_nonneg; auto.
  - apply number_or_nonneg; auto.
  - repeat match goal with
           | |- context [if ?b then _ else _] => destruct b
           end;
      try (apply mul_nonneg; auto); reflexivity.
Qed.

(** *** Commutativity of the product *)

Lemma SFmul_comm x y : SF64mul x y = SF64mul y x.
Proof.
  destruct x as [sx|sx| |sx mx ex], y as [sy|sy| |sy my ey]; simpl;
    rewrite ?(xorb_comm sx sy); try reflexivity.
  rewrite (Pos.mul_comm mx my), (Z.add_comm ex ey). reflexivity.
Qed.

Lemma mul_comm x y : x * y = y * x.
Proof.
  apply Prim2SF_inj. rewrite !FloatAxioms.mul_spec. apply SFmul_comm.
Qed.

(** *** Whole numbers of years *)

Lemma add_of_Z a b :
  (0 <= a)%Z -> (0 < b)%Z -> (a + b < 2 ^ 53)%Z ->
  JS.of_Z a + JS.of_Z b = JS.of_Z (a + b).
Proof.
  intros Ha Hb Hab. apply Prim2SF_inj.
  rewrite FloatAxioms.add_spec, !of_Z_spec by lia.
  apply SFadd_whole; lia.
Qed.

Lemma floor_half_of_Z n :
  (0 <= n < 2 ^ 53)%Z -> JS.Math_floor (JS.of_Z n / 2) = JS.of_Z (n / 2).
Proof.
  intros Hn. destruct (Z.eq_dec n 0%Z) as [->|Hn0]; [reflexivity|].
  assert (Hd : (Zdigits2 n <= 53)%Z) by (apply Zdigits2_le; lia).
  assert (Hd1 : (1 <= Zdigits2 n)%Z) by (destruct n; try lia; apply Zdigits2_pos_ge1).
  assert (P : (0 < 2 ^ (53 - Zdigits2 n))%Z) by (apply Z.pow_pos_nonneg; lia).
  assert (E : Prim2SF (JS.of_Z n / 2)
              = S754_finite false (Z.to_pos (n * 2 ^ (53 - Zdigits2 n)))
                            (Zdigits2 n - 53 - 1)).
  { rewrite FloatAxioms.div_spec, of_Z_spec, SFofZ_pos, Prim2SF_two by lia.
    apply SFdiv_two_normal; [|lia].
    rewrite Z2Pos.id by nia. rewrite Zdigits2_shiftl by lia. lia. }
  unfold JS.Math_floor. rewrite E.
  destruct (Z.leb_spec 0 (Zdigits2 n - 53 - 1)); [lia|].
  unfold JS.of_Z. do 2 f_equal.
  rewrite Z2Pos.id by nia. rewrite Z.shiftr_div_pow2 by lia.
  replace (- (Zdigits2 n - 53 - 1))%Z with (1 + (53 - Zdigits2 n))%Z by lia.
  rewrite Z.pow_add_r by lia. change (2 ^ 1)%Z with 2%Z.
  apply Z.div_mul_cancel_r; lia.
Qed.

(** Two more whole years raise the seniority factor by one. *)
Lemma seniorityFactor_plus_two v n :
  (0 <= n)%Z -> (n + 2 < 2 ^ 53)%Z -> seniorityYears v = JS.of_Z n ->
  seniorityFactor (withSeniorityYears (seniorityYears v + 2) v)
  = seniorityFactor v + 1.
Proof.
  intros Hn Hn2 Hs. cbn [seniorityYears withSeniorityYears]. rewrite Hs.
  change 2 with (JS.of_Z 2) at 1. rewrite add_of_Z by lia.
  rewrite !floor_half_of_Z by lia.
  change 1 with (JS.of_Z 1).
  assert (0 <= n / 2 <= n)%Z.
  { split; [apply Z.div_pos; lia|]. apply Z.div_le_upper_bound; lia. }
  rewrite add_of_Z by lia.
  f_equal. replace (n + 2)%Z with (n + 1 * 2)%Z by lia.
  apply Z.div_add. lia.
Qed.

(** A number equals itself unless it is [NaN]. *)
Lemma eqb_same x : (x =? x) = negb (PrimFloat.is_nan x).
Proof. unfold PrimFloat.is_nan. rewrite negb_involutive. reflexivity. Qed.

(** The amounts of a validated record with finite numbers are [>= 0]. *)
Lemma amounts_nonneg v :
  validated v = true -> allFinite v = true ->
  JS.nonneg (perdiemValue (calculateTripValue v)) = true
  /\ JS.nonneg (internationalCredit (calculateTripValue v)) = true
  /\ JS.nonneg (nightPayCredit (calculateTripValue v)) = true
  /\ JS.nonneg (totalTripValue (calculateTripValue v)) = true.
Proof.
  intros V F.
  destruct (validated_fields v V) as (Hs & Ht & Hr & Hc & Hn & Hh).
  destruct (allFinite_fields v F) as (Fs & Ft & Fr & Fc & Fn).
  destruct (perdiem_bounds v Hs Fs) as (Pn & Pf & _).
  pose proof (positionCredit_nonneg v V Fc) as PC.
  assert (PV : JS.nonneg (perdiemValue (calculateTripValue v)) = true)
    by (apply mul_nonneg; assumption).
  assert (IC : JS.nonneg (internationalCredit (calculateTripValue v)) = true).
  { unfold calculateTripValue. cbn [internationalCredit].
    destruct (internationalTrip v); [|reflexivity].
    apply mul_nonneg; auto. }
  assert (NC : JS.nonneg (nightPayCredit (calculateTripValue v)) = true)
    by (apply half_nonneg; assumption).
  repeat split; try assumption.
  change (totalTripValue (calculateTripValue v))
    with (hourlyRate v * credit v + perdiemValue (calculateTripValue v)
          + positionCredit (calculateTripValue v)
          + internationalCredit (calculateTripValue v)
          + nightPayCredit (calculateTripValue v)).
  repeat apply add_nonneg; try assumption.
  apply mul_nonneg; assumption.
Qed.

Lemma ltb_zero_not_nan x : (x <? 0) = true -> PrimFloat.is_nan x = false.
Proof.
  rewrite FloatAxioms.ltb_spec, is_nan_spec.
  destruct (Prim2SF x); try reflexivity; discriminate.
Qed.

End NumberFacts.

(** ** Facts about two more years of seniority *)

Module StepFacts.
Import Binary64 Binary64Facts NumberFacts.
Local Open Scope Z_scope.

Lemma whole_small m e :
  Zdigits2 (Zpos m) + e <= 0 -> whole (S754_finite false m e) = 0.
Proof.
  intros H. unfold whole.
  pose proof (Zdigits2_pos_ge1 m) as Hd.
  destruct (Z.leb_spec 0 e); [lia|].
  pose proof (Zdigits2_bounds (Zpos m) ltac:(lia)) as [_ U].
  apply Z.div_small. split; [lia|].
  apply Z.lt_le_trans with (1 := U). apply Z.pow_le_mono_r; lia.
Qed.

(** The canonical form of a whole number. *)
Lemma SFofZ_canonical N m e :
  0 < N < 2 ^ 53 -> Zdigits2 (Zpos m) = 53 -> e <= 0 ->
  Zpos m = N * 2 ^ (- e) ->
  SFofZ N = S754_finite false m e.
Proof.
  intros HN Hd He Hm.
  assert (D : Zdigits2 N = 53 + e).
  { rewrite Hm, Zdigits2_shiftl in Hd by lia. lia. }
  rewrite SFofZ_pos, D by lia.
  replace (53 - (53 + e)) with (- e) by lia.
  rewrite <- Hm. simpl Z.to_pos. f_equal. lia.
Qed.

Lemma whole_SFofZ n : 0 <= n < 2 ^ 53 -> whole (SFofZ n) = n.
Proof.
  intros Hn. destruct (Z.eq_dec n 0) as [->|Hn0]; [reflexivity|].
  rewrite SFofZ_pos by lia. unfold whole.
  assert (Hd : Zdigits2 n <= 53) by (apply Zdigits2_le; lia).
  assert (P : 0 < 2 ^ (53 - Zdigits2 n)) by (apply Z.pow_pos_nonneg; lia).
  rewrite Z2Pos.id by nia.
  destruct (Z.leb_spec 0 (Zdigits2 n - 53)).
  - replace (Zdigits2 n - 53) with 0 by lia.
    replace (53 - Zdigits2 n) with 0 by lia. simpl. lia.
  - replace (- (Zdigits2 n - 53)) with (53 - Zdigits2 n) by lia.
    apply Z.div_mul. lia.
Qed.

(** Half of a number below [2^-1020] is below [2^-1020]. *)
Lemma SFdiv_two_tiny m e :
  valid_binary (S754_finite false m e) = true -> e < -1072 ->
  signed false (SF64div (S754_finite false m e) two)
  /\ below (-1020) (SF64div (S754_finite false m e) two).
Proof.
  intros V He. apply valid_finite in V as [C Hex]. rewrite fexp_eq in C.
  pose proof (SFdiv_core_two m e) as E. cbv zeta in E.
  unfold SF64div, SFdiv, two. rewrite E. clear E. cbn [xorb].
  set (e' := Z.min (fexp (Zdigits2 (Zpos m) + e - 2)) (e + 51)).
  assert (He' : e' = Z.min (Z.max (Zdigits2 (Zpos m) + e - 55) (-1074)) (e + 51))
    by (unfold e'; rewrite fexp_eq; f_equal; lia).
  pose proof (Zdigits2_pos_ge1 m) as Hd.
  assert (Hs : 0 <= e + 51 - e') by lia.
  assert (P : 0 < 2 ^ (e + 51 - e')) by (apply Z.pow_pos_nonneg; lia).
  assert (Hq : Zdigits2 (Zpos m * 2 ^ (e + 51 - e') / 2 ^ 52)
               = Z.max (Zdigits2 (Zpos m) + (e + 51 - e') - 52) 0).
  { rewrite Zdigits2_shiftr by nia. rewrite Zdigits2_shiftl by lia. reflexivity. }
  assert (Q : 0 <= Zpos m * 2 ^ (e + 51 - e') / 2 ^ 52) by (apply Z.div_pos; nia).
  split.
  - apply binary_round_aux_signed. exact Q.
  - replace (-1020) with (-1021 + 1) by lia.
    apply binary_round_aux_below; try (rewrite Hq); try (rewrite fexp_eq); try lia.
Qed.

(** [Math.floor] of a number below one that is neither negative nor
    [-0]. *)
Lemma floor_of_tiny z :
  signed false (Prim2SF z) -> below 0 (Prim2SF z) ->
  JS.Math_floor z = JS.of_Z 0.
Proof.
  intros Hs Hb. unfold JS.Math_floor.
  destruct (Prim2SF z) as [s|s| |s m e] eqn:E; simpl in Hs, Hb;
    try contradiction.
  - subst s. apply Prim2SF_inj. rewrite E. reflexivity.
  - subst s. pose proof (Zdigits2_pos_ge1 m) as Hd.
    destruct (Z.leb_spec 0 e); [lia|].
    rewrite Z.shiftr_div_pow2 by lia.
    pose proof (whole_small m e Hb) as W. unfold whole in W.
    destruct (Z.leb_spec 0 e); [lia|]. rewrite W. reflexivity.
Qed.

(** The seniority factor of a positive number of years is the double of
    half its whole part, rounded down. *)
Lemma floor_half_whole x m e :
  Prim2SF x = S754_finite false m e ->
  whole (S754_finite false m e) < 2 ^ 53 ->
  JS.Math_floor (x / 2)%float = JS.of_Z (whole (S754_finite false m e) / 2).
Proof.
  intros E Hw.
  pose proof (Prim2SF_valid x) as V. rewrite E in V.
  pose proof V as V'. apply valid_finite in V' as [C Hex].
  rewrite fexp_eq in C.
  pose proof (Zdigits2_pos_ge1 m) as Hd1.
  assert (Hx2 : Prim2SF (x / 2)%float = SF64div (S754_finite false m e) two).
  { rewrite FloatAxioms.div_spec, E, Prim2SF_two. reflexivity. }
  destruct (Z.lt_ge_cases e (-1072)) as [He|He].
  - (* very small numbers *)
    destruct (SFdiv_two_tiny m e V He) as [S B]. rewrite <- Hx2 in S, B.
    rewrite floor_of_tiny; [|exact S|apply below_le with (2 := B); lia].
    rewrite whole_small by lia. reflexivity.
  - assert (Hd : Zdigits2 (Zpos m) = 53) by lia.
    rewrite SFdiv_two_normal in Hx2 by lia.
    pose proof (Zdigits2_bounds (Zpos m) ltac:(lia)) as [L U]. rewrite Hd in L, U.
    change (2 ^ (53 - 1)) with (2 ^ 52) in L.
    unfold JS.Math_floor. rewrite Hx2.
    unfold whole in *.
    destruct (Z.leb_spec 0 e) as [H0|H0].
    + (* a whole number below 2^53 with 53 digits has exponent 0 *)
      assert (e = 0).
      { destruct (Z.eq_dec e 0) as [|N]; [assumption|].
        assert (2 ^ 1 <= 2 ^ e) by (apply Z.pow_le_mono_r; lia).
        change (2 ^ 1) with 2 in *. change (2 ^ 53) with (2 * 2 ^ 52) in Hw. nia. }
      subst e. simpl (0 - 1). cbn [Z.leb Z.compare].
      rewrite Z.shiftr_div_pow2 by lia. simpl (- -1).
      change (2 ^ 0) with 1. rewrite Z.mul_1_r. change (2 ^ 1) with 2.
      reflexivity.
    + destruct (Z.leb_spec 0 (e - 1)); [lia|].
      rewrite Z.shiftr_div_pow2 by lia.
      unfold JS.of_Z. do 2 f_equal.
      replace (- (e - 1)) with (- e + 1) by lia.
      rewrite Z.pow_add_r by lia. change (2 ^ 1) with 2.
      rewrite Z.div_div by (try apply Z.pow_pos_nonneg; lia). reflexivity.
Qed.

(** *** Two more years

    The sum of a positive number with a fractional part and two lies
    between two whole numbers that are doubles, the whole part plus two
    and plus three, and rounding cannot leave that interval. *)
Lemma SFadd_two_sandwich m e my ey :
  valid_binary (S754_finite false m e) = true -> e < 0 ->
  Zpos my = 2 ^ 52 -> ey = -51 ->
  let w := Zpos m / 2 ^ (- e) in
  exists m1 t,
    0 <= t <= 51 /\ 2 ^ 52 <= m1 <= 2 ^ 53
    /\ (w + 2) * 2 ^ t <= m1 <= (w + 3) * 2 ^ t
    /\ (Zpos m mod 2 ^ (- e) = 0 -> m1 = (w + 2) * 2 ^ t)
    /\ SF64add (S754_finite false m e) (S754_finite false my ey)
       = finished false m1 (- t).
Proof.
  intros V He Hmy Hey w.
  apply valid_finite in V as [C Hex]. rewrite fexp_eq in C.
  pose proof (Zdigits2_pos_ge1 m) as Hd1.
  pose proof (Zdigits2_bounds (Zpos m) ltac:(lia)) as [_ Um].
  assert (Hm53 : Zpos m < 2 ^ 53).
  { apply Z.lt_le_trans with (1 := Um). apply Z.pow_le_mono_r; lia. }
  simpl.
  destruct (shl_align_spec m e (Z.min e ey)) as [X1 _].
  destruct (shl_align_spec my ey (Z.min e ey)) as [Y1 _].
  set (ax := fst (shl_align m e (Z.min e ey))) in *.
  set (ay := fst (shl_align my ey (Z.min e ey))) in *.
  set (ez := Z.min e ey) in *.
  rewrite Z.min_r in X1 by lia. rewrite Z.min_r in Y1 by lia.
  assert (Hez : ez <= -51) by (unfold ez; lia).
  assert (Hez' : ez <= e) by (unfold ez; lia).
  set (D := 2 ^ (- ez)).
  assert (PD : 0 < D) by (apply Z.pow_pos_nonneg; lia).
  assert (Pe : 0 < 2 ^ (- e)) by (apply Z.pow_pos_nonneg; lia).
  assert (Pa : 0 < 2 ^ (e - ez)) by (apply Z.pow_pos_nonneg; lia).
  assert (HD : D = 2 ^ (- e) * 2 ^ (e - ez)).
  { unfold D. rewrite <- Z.pow_add_r by lia. f_equal. lia. }
  assert (HY : Zpos ay = 2 * D).
  { rewrite Y1, Hmy, Hey. unfold D. rewrite <- Z.pow_add_r by lia.
    replace (52 + (-51 - ez)) with (1 + - ez) by lia.
    rewrite Z.pow_add_r by lia. reflexivity. }
  assert (Hw : 0 <= w) by (apply Z.div_pos; lia).
  assert (Hw52 : w < 2 ^ 52).
  { apply Z.div_lt_upper_bound; [lia|].
    assert (2 ^ 1 <= 2 ^ (- e)) by (apply Z.pow_le_mono_r; lia).
    change (2 ^ 1) with 2 in *. change (2 ^ 53) with (2 * 2 ^ 52) in Hm53. nia. }
  assert (HX : w * D <= Zpos ax < (w + 1) * D).
  { rewrite X1, HD.
    pose proof (Z.div_mod (Zpos m) (2 ^ (- e)) ltac:(lia)) as DM.
    pose proof (Z.mod_pos_bound (Zpos m) (2 ^ (- e)) Pe) as MB.
    fold w in DM. nia. }
  assert (HM : (w + 2) * D <= Zpos (ax + ay) < (w + 3) * D)
    by (rewrite Pos2Z.inj_add, HY; lia).
  (* the number of digits of the sum *)
  assert (Dlo : - ez + 2 <= Zdigits2 (Zpos (ax + ay))).
  { assert (2 ^ (- ez + 1) <= Zpos (ax + ay)).
    { rewrite Z.pow_add_r by lia. fold D. change (2 ^ 1) with 2. nia. }
    pose proof (Zdigits2_ge (Zpos (ax + ay)) (- ez + 1) ltac:(lia) H). lia. }
  assert (Dhi : Zdigits2 (Zpos (ax + ay)) <= - ez + 53).
  { apply Zdigits2_le; try lia.
    rewrite Z.pow_add_r by lia. fold D.
    change (2 ^ 53) with (2 * 2 ^ 52). nia. }
  destruct (binary_round_aligned false (ax + ay) ez)
    as (mz & ez' & -> & D0 & Hal & Hez2 & Hmz).
  destruct (binary_round_aux_aligned false (Zpos mz) ez' loc_Exact
              ltac:(lia) Hal) as (m1 & H1 & H2 & Hexact & ->).
  rewrite D0 in *.
  set (DD := Zdigits2 (Zpos (ax + ay)) + ez) in *.
  assert (Hf : fexp DD = DD - 53) by (rewrite fexp_eq; unfold DD; lia).
  rewrite Hf in *.
  assert (Eez : ez' = ez) by (unfold DD in *; lia).
  assert (Hmz' : Zpos mz = Zpos (ax + ay)).
  { rewrite Hmz. replace (ez - ez') with 0 by lia. apply Z.mul_1_r. }
  rewrite Hmz', Eez in *. clear Hmz Hez2.
  set (n := DD - 53 - ez) in *.
  assert (Hn : 0 <= n) by (unfold n, DD; lia).
  assert (Pn : 0 < 2 ^ n) by (apply Z.pow_pos_nonneg; lia).
  set (t := 53 - DD).
  assert (Ht : 0 <= t <= 51) by (unfold t, DD; lia).
  assert (Pt : 0 < 2 ^ t) by (apply Z.pow_pos_nonneg; lia).
  assert (HDt : D = 2 ^ t * 2 ^ n).
  { unfold D. rewrite <- Z.pow_add_r by lia. f_equal. unfold t, n. lia. }
  assert (Hq : Zdigits2 (Zpos (ax + ay) / 2 ^ n) = 53).
  { rewrite Zdigits2_shiftr by lia. unfold n, DD. lia. }
  assert (Hq52 : 2 ^ 52 <= Zpos (ax + ay) / 2 ^ n).
  { assert (0 <= Zpos (ax + ay) / 2 ^ n) by (apply Z.div_pos; lia).
    destruct (Z.eq_dec (Zpos (ax + ay) / 2 ^ n) 0) as [E|E].
    - rewrite E in Hq. discriminate.
    - pose proof (Zdigits2_bounds (Zpos (ax + ay) / 2 ^ n) ltac:(lia)) as [B _].
      rewrite Hq in B. exact B. }
  exists m1, t. split; [exact Ht|]. split; [lia|]. split.
  - split.
    + apply Z.le_trans with (Zpos (ax + ay) / 2 ^ n); [|lia].
      apply Z.div_le_lower_bound; [lia|]. rewrite HDt in HM. nia.
    + assert (Zpos (ax + ay) / 2 ^ n < (w + 3) * 2 ^ t); [|lia].
      apply Z.div_lt_upper_bound; [lia|]. rewrite HDt in HM. nia.
  - split; [|f_equal; unfold t; lia].
    intros Hmod.
    assert (EM : Zpos (ax + ay) = (w + 2) * 2 ^ t * 2 ^ n).
    { rewrite Pos2Z.inj_add, HY, X1, <- Z.mul_assoc, <- HDt.
      apply Z.mod_divide in Hmod; [|lia]. destruct Hmod as [c Hc].
      assert (c = w) by (unfold w; rewrite Hc, Z.div_mul; lia). subst c.
      rewrite Hc, HD. ring. }
    rewrite Hexact; [|reflexivity|rewrite EM; apply Z.mod_mul; lia].
    rewrite EM. apply Z.div_mul. lia.
Qed.

(** A rounded mantissa between the whole numbers [W] and [W + 1]: the
    result has the whole part [W], or it is the whole number [W + 1]. *)
Lemma finished_whole m1 t W :
  0 <= t <= 52 -> 2 ^ 52 <= m1 <= 2 ^ 53 -> 0 <= W -> W + 1 < 2 ^ 53 ->
  W * 2 ^ t <= m1 <= (W + 1) * 2 ^ t ->
  exists m' e',
    finished false m1 (- t) = S754_finite false m' e'
    /\ (whole (S754_finite false m' e') = W
        \/ (whole (S754_finite false m' e') = W + 1
            /\ S754_finite false m' e' = SFofZ (W + 1)))
    /\ (m1 = W * 2 ^ t -> whole (S754_finite false m' e') = W).
Proof.
  intros Ht Hm HW HW1 Hb.
  assert (Pt : 0 < 2 ^ t) by (apply Z.pow_pos_nonneg; lia).
  assert (V : exists m' e',
             finished false m1 (- t) = S754_finite false m' e'
             /\ Zdigits2 (Zpos m') = 53 /\ e' <= 0
             /\ Zpos m' * 2 ^ (e' + t) = m1 /\ 0 <= e' + t).
  { unfold finished.
    destruct (Z.eqb_spec m1 0); [lia|].
    destruct (Z.ltb_spec m1 (2 ^ 53)).
    - destruct (Z.leb_spec (- t) 971); [|lia].
      exists (Z.to_pos m1), (- t). split; [reflexivity|].
      rewrite Z2Pos.id by lia. split.
      + apply Zdigits2_unique; [|lia]. change (2 ^ (53 - 1)) with (2 ^ 52). lia.
      + split; [lia|]. replace (- t + t) with 0 by lia.
        change (2 ^ 0) with 1. lia.
    - destruct (Z.leb_spec (- t + 1) 971); [|lia].
      assert (t <> 0).
      { intros ->. change (2 ^ 0) with 1 in Hb. lia. }
      exists (Z.to_pos (2 ^ 52)), (- t + 1). split; [reflexivity|].
      split; [reflexivity|]. split; [lia|].
      replace (- t + 1 + t) with 1 by lia.
      change (Zpos (Z.to_pos (2 ^ 52)) * 2 ^ 1) with (2 ^ 53). lia. }
  destruct V as (m' & e' & E & Hd & He' & Hv & Hs).
  exists m', e'. split; [exact E|].
  assert (Pe : 0 < 2 ^ (- e')) by (apply Z.pow_pos_nonneg; lia).
  assert (Ps : 0 < 2 ^ (e' + t)) by (apply Z.pow_pos_nonneg; lia).
  assert (Ht2 : 2 ^ t = 2 ^ (- e') * 2 ^ (e' + t)).
  { rewrite <- Z.pow_add_r by lia. f_equal. lia. }
  assert (Hwh : whole (S754_finite false m' e') = Zpos m' / 2 ^ (- e')).
  { unfold whole. destruct (Z.leb_spec 0 e'); [|reflexivity].
    replace e' with 0 by lia. change (2 ^ (- 0)) with 1. change (2 ^ 0) with 1.
    rewrite Z.div_1_r. lia. }
  rewrite Hwh.
  assert (Hb' : W * 2 ^ (- e') <= Zpos m' <= (W + 1) * 2 ^ (- e')).
  { rewrite Ht2 in Hb. rewrite <- Hv in Hb. nia. }
  split.
  - destruct (Z.eq_dec (Zpos m') ((W + 1) * 2 ^ (- e'))) as [Q|Q].
    + right. split.
      * rewrite Q. apply Z.div_mul. lia.
      * symmetry. apply SFofZ_canonical; auto. lia.
    + left. symmetry. apply Z.div_unique with (Zpos m' - W * 2 ^ (- e')); lia.
  - intros Q. assert (Q' : Zpos m' = W * 2 ^ (- e')).
    { rewrite Ht2, <- Hv in Q. nia. }
    rewrite Q'. apply Z.div_mul. lia.
Qed.

(** *** One more unit in the last place *)

(** A mantissa that is a double's mantissa times a power of two rounds to
    that double. *)
Lemma binary_round_exact s M ez m' e' :
  Zdigits2 (Zpos m') = 53 -> ez <= e' -> -1074 <= e' <= 971 ->
  Zpos M = Zpos m' * 2 ^ (e' - ez) ->
  binary_round s M ez = S754_finite s m' e'.
Proof.
  intros Hd Hez He' HM.
  assert (P : 0 < 2 ^ (e' - ez)) by (apply Z.pow_pos_nonneg; lia).
  assert (DM : Zdigits2 (Zpos M) + ez = 53 + e').
  { rewrite HM, Zdigits2_shiftl by lia. lia. }
  destruct (binary_round_aligned s M ez) as (mz & ez0 & -> & D & Hal & Hez0 & Hmz).
  rewrite DM in *.
  assert (Hf : fexp (53 + e') = e') by (rewrite fexp_eq; lia).
  rewrite Hf in *.
  rewrite Z.min_l in Hez0 by lia. subst ez0.
  assert (Hmz' : Zpos mz = Zpos M).
  { rewrite Hmz. replace (ez - ez) with 0 by lia. apply Z.mul_1_r. }
  rewrite binary_round_aux_exact; rewrite ?D, ?Hf; try lia.
  - f_equal. rewrite Hmz', HM, Z.div_mul by lia. reflexivity.
  - rewrite Hmz', HM. apply Z.mod_mul. lia.
Qed.

Lemma SFadd_one_unit m e my ey :
  Zdigits2 (Zpos m) = 53 -> -1022 <= e <= 970 ->
  Zpos my = 2 ^ 52 -> ey = e - 52 ->
  (Zpos m + 1 < 2 ^ 53 ->
   SF64add (S754_finite false m e) (S754_finite false my ey)
   = S754_finite false (m + 1) e)
  /\ (Zpos m + 1 = 2 ^ 53 ->
      SF64add (S754_finite false m e) (S754_finite false my ey)
      = S754_finite false 4503599627370496 (e + 1)).
Proof.
  intros Hd He Hmy Hey.
  pose proof (Zdigits2_bounds (Zpos m) ltac:(lia)) as [L U]. rewrite Hd in L, U.
  change (2 ^ (53 - 1)) with (2 ^ 52) in L.
  assert (E : SF64add (S754_finite false m e) (S754_finite false my ey)
              = binary_round false
                  (fst (shl_align m e (Z.min e ey))
                   + fst (shl_align my ey (Z.min e ey))) (Z.min e ey))
    by reflexivity.
  rewrite E. clear E.
  destruct (shl_align_spec m e (Z.min e ey)) as [X1 _].
  destruct (shl_align_spec my ey (Z.min e ey)) as [Y1 _].
  set (ax := fst (shl_align m e (Z.min e ey))) in *.
  set (ay := fst (shl_align my ey (Z.min e ey))) in *.
  rewrite Z.min_r in X1 by lia. rewrite Z.min_r in Y1 by lia.
  replace (Z.min e ey) with (e - 52) in * by lia.
  replace (e - (e - 52)) with 52 in X1 by lia.
  replace (ey - (e - 52)) with 0 in Y1 by lia.
  change (2 ^ 0) with 1 in Y1. rewrite Z.mul_1_r, Hmy in Y1.
  assert (HM : Zpos (ax + ay) = (Zpos m + 1) * 2 ^ 52)
    by (rewrite Pos2Z.inj_add, X1, Y1; ring).
  split; intros Hm.
  - apply binary_round_exact; try lia.
    + apply Zdigits2_unique; [|lia]. change (2 ^ (53 - 1)) with (2 ^ 52). lia.
    + replace (e - (e - 52)) with 52 by lia. rewrite HM. reflexivity.
  - apply binary_round_exact; try lia; [reflexivity|].
    replace (e + 1 - (e - 52)) with 53 by lia. rewrite HM, Hm.
    reflexivity.
Qed.

(** *** The seniority factor two years later *)

Local Open Scope float_scope.

(** For a positive number of years with a fractional exponent the factor
    is the double of [q], half the whole part, and two years later it is
    the double of [q + 1], unless the sum of the years and two has been
    rounded up to the even whole number [2 * (q + 2)]. *)
Lemma factor_step x m e :
  Prim2SF x = S754_finite false m e -> (e < 0)%Z ->
  let q := (Zpos m / 2 ^ (- e) / 2)%Z in
  (0 <= q < 2 ^ 51)%Z
  /\ JS.Math_floor (x / 2) = JS.of_Z q
  /\ (JS.Math_floor ((x + 2) / 2) = JS.of_Z (q + 1)
      \/ (JS.Math_floor ((x + 2) / 2) = JS.of_Z (q + 2)
          /\ x + 2 = JS.of_Z (2 * (q + 2))))
  /\ (JS.Math_floor x = x -> JS.Math_floor ((x + 2) / 2) = JS.of_Z (q + 1)).
Proof.
  intros E He q.
  pose proof (Prim2SF_valid x) as V. rewrite E in V.
  set (w := (Zpos m / 2 ^ (- e))%Z) in *.
  assert (Ww : whole (S754_finite false m e) = w).
  { unfold whole. destruct (Z.leb_spec 0 e); [lia|reflexivity]. }
  destruct (SFadd_two_sandwich m e 4503599627370496 (-51) V He eq_refl eq_refl)
    as (m1 & t & Ht & Hm1 & Hb & Hx & Ey).
  fold w in Hb.
  assert (Hw : (0 <= w < 2 ^ 52)%Z).
  { assert (Pe : (0 < 2 ^ (- e))%Z) by (apply Z.pow_pos_nonneg; lia).
    split; [apply Z.div_pos; lia|].
    pose proof V as V'. apply valid_finite in V' as [C _]. rewrite fexp_eq in C.
    pose proof (Zdigits2_bounds (Zpos m) ltac:(lia)) as [_ U].
    assert (2 ^ Zdigits2 (Zpos m) <= 2 ^ 53)%Z by (apply Z.pow_le_mono_r; lia).
    assert (2 ^ 1 <= 2 ^ (- e))%Z by (apply Z.pow_le_mono_r; lia).
    apply Z.div_lt_upper_bound; [lia|].
    change (2 ^ 1)%Z with 2%Z in *. change (2 ^ 53)%Z with (2 * 2 ^ 52)%Z in *.
    nia. }
  pose proof (Z.div_mod w 2 ltac:(lia)) as DM.
  pose proof (Z.mod_pos_bound w 2 ltac:(lia)) as MB.
  fold q in DM.
  assert (Hq : (0 <= q < 2 ^ 51)%Z).
  { change (2 ^ 52)%Z with (2 * 2 ^ 51)%Z in Hw. lia. }
  split; [exact Hq|]. split.
  - rewrite (floor_half_whole x m e E) by (rewrite Ww; lia).
    rewrite Ww. reflexivity.
  - destruct (finished_whole m1 t (w + 2) ltac:(lia) Hm1 ltac:(lia) ltac:(lia))
      as (m' & e' & Ef & Wy & Wx).
    { replace (w + 2 + 1)%Z with (w + 3)%Z by lia. exact Hb. }
    assert (Ey' : Prim2SF (x + 2) = S754_finite false m' e').
    { rewrite FloatAxioms.add_spec, E, Prim2SF_two. unfold two.
      rewrite Ey. exact Ef. }
    assert (F : JS.Math_floor ((x + 2) / 2)
                = JS.of_Z (whole (S754_finite false m' e') / 2)).
    { apply floor_half_whole; [exact Ey'|]. destruct Wy as [->|[-> _]]; lia. }
    rewrite F. split.
    + destruct Wy as [->|[-> Es]].
      * left. f_equal. symmetry. apply Z.div_unique with (w mod 2)%Z; lia.
      * destruct (Z.eq_dec (w mod 2)%Z 0%Z) as [Ev|Od].
        -- left. f_equal. symmetry. apply Z.div_unique with 1%Z; lia.
        -- right. split.
           ++ f_equal. symmetry. apply Z.div_unique with 0%Z; lia.
           ++ apply Prim2SF_inj. rewrite Ey', Es, of_Z_spec by lia.
              f_equal. lia.
    + (* whole years: the sum is exact *)
      intros Fx.
      assert (Hmod : (Zpos m mod 2 ^ (- e) = 0)%Z).
      { unfold JS.Math_floor in Fx. rewrite E in Fx.
        destruct (Z.leb_spec 0 e); [lia|].
        rewrite Z.shiftr_div_pow2 in Fx by lia. fold w in Fx.
        change (of_uint63 (Uint63.of_Z w)) with (JS.of_Z w) in Fx.
        apply (f_equal Prim2SF) in Fx. rewrite of_Z_spec, E in Fx by lia.
        destruct (Z.eq_dec w 0%Z) as [W0|W0].
        - rewrite W0 in Fx. discriminate Fx.
        - rewrite SFofZ_pos in Fx by lia.
          assert (Hdw : (Zdigits2 w <= 53)%Z) by (apply Zdigits2_le; lia).
          assert (Pw : (0 < 2 ^ (53 - Zdigits2 w))%Z)
            by (apply Z.pow_pos_nonneg; lia).
          injection Fx as Fm Fe.
          assert (Em : Zpos m = (w * 2 ^ (53 - Zdigits2 w))%Z).
          { rewrite <- Fm. rewrite Z2Pos.id by nia. reflexivity. }
          rewrite Em. replace (- e)%Z with (53 - Zdigits2 w)%Z by lia.
          apply Z.mod_mul. lia. }
      rewrite (Wx (Hx Hmod)). f_equal. symmetry.
      apply Z.div_unique with (w mod 2)%Z; lia.
Qed.

(** Reading a comparison with a positive double off the
    representations. *)
Lemma ltb_finite x b m e mb eb :
  Prim2SF x = S754_finite false m e -> Prim2SF b = S754_finite false mb eb ->
  (x <? b) = true -> (e < eb)%Z \/ (e = eb /\ (Zpos m < Zpos mb)%Z).
Proof.
  intros Ex Eb. rewrite FloatAxioms.ltb_spec, Ex, Eb.
  unfold SFltb, SFcompare.
  destruct (Z.compare_spec e eb) as [->|H|H]; try discriminate; [|auto].
  change (Pos.compare_cont Eq m mb) with (Pos.compare m mb).
  destruct (Pos.compare_spec m mb); try discriminate. right. split; [reflexivity|lia].
Qed.

(** A double with the exponent zero is a whole number. *)
Lemma whole_double x m :
  Prim2SF x = S754_finite false m 0 -> x = JS.of_Z (Zpos m).
Proof.
  intros E. pose proof (Prim2SF_valid x) as V. rewrite E in V.
  apply valid_finite in V as [C _]. rewrite fexp_eq in C.
  pose proof (Zdigits2_bounds (Zpos m) ltac:(lia)) as [_ U].
  assert (Hd : Zdigits2 (Zpos m) = 53%Z) by lia. rewrite Hd in U.
  apply Prim2SF_inj. rewrite E, of_Z_spec by lia.
  symmetry. apply SFofZ_canonical; try lia.
Qed.

(** The per-diem rates of up to fifty steps of seniority, one and two
    steps apart, on both bases. *)
Lemma step_table :
  forallb
    (fun q =>
       forallb
         (fun base =>
            (abs (base + JS.of_Z (q + 1) * 0.05 - (base + JS.of_Z q * 0.05) - 0.05)
             <=? 1.1e-15)
            && (abs (base + JS.of_Z (q + 2) * 0.05 - (base + JS.of_Z q * 0.05) - 0.1)
                <=? 1.1e-15))
         [2.2; 2.7])
    (map Z.of_nat (seq 0 50)) = true.
Proof. vm_compute. reflexivity. Qed.

Lemma step_close q base :
  (0 <= q < 50)%Z -> base = 2.2 \/ base = 2.7 ->
  (abs (base + JS.of_Z (q + 1) * 0.05 - (base + JS.of_Z q * 0.05) - 0.05)
   <=? 1.1e-15) = true
  /\ (abs (base + JS.of_Z (q + 2) * 0.05 - (base + JS.of_Z q * 0.05) - 0.1)
      <=? 1.1e-15) = true.
Proof.
  intros Hq Hb. pose proof step_table as T.
  rewrite List.forallb_forall in T.
  specialize (T q). cbv beta in T.
  assert (I : In q (map Z.of_nat (seq 0 50))).
  { apply in_map_iff. exists (Z.to_nat q). split; [lia|].
    apply in_seq. lia. }
  specialize (T I). rewrite List.forallb_forall in T.
  specialize (T base). cbv beta in T. apply andb_true_iff.
  apply T. simpl. destruct Hb as [->| ->]; auto.
Qed.

Lemma one_is_not_zero_plus_two (z : float) :
  Prim2SF z = S754_zero false \/ Prim2SF z = S754_zero true ->
  1 = z + 2 -> False.
Proof.
  intros Hz H. apply (f_equal Prim2SF) in H.
  rewrite FloatAxioms.add_spec in H.
  destruct Hz as [Hz|Hz]; rewrite Hz in H; vm_compute in H; discriminate H.
Qed.

(** [Math.floor] leaves a double with a non-negative exponent as it
    is. *)
Lemma floor_id z s m e :
  Prim2SF z = S754_finite s m e -> (0 <= e)%Z -> JS.Math_floor z = z.
Proof.
  intros E He. unfold JS.Math_floor. rewrite E.
  destruct (Z.leb_spec 0 e); [reflexivity|lia].
Qed.

(** Years from [2^53] to [2^54] are even whole numbers, and two more
    years are one more unit in the last place. *)
Lemma even_years_step x m :
  Prim2SF x = S754_finite false m 1 ->
  JS.Math_floor ((x + 2) / 2) = JS.Math_floor (x / 2) + 1.
Proof.
  intros E. pose proof (Prim2SF_valid x) as V. rewrite E in V.
  apply valid_finite in V as [C _]. rewrite fexp_eq in C.
  assert (Hd : Zdigits2 (Zpos m) = 53%Z) by lia.
  pose proof (Zdigits2_bounds (Zpos m) ltac:(lia)) as [_ U]. rewrite Hd in U.
  assert (H2 : Prim2SF (x / 2) = S754_finite false m 0).
  { rewrite FloatAxioms.div_spec, E, Prim2SF_two.
    apply (SFdiv_two_normal m 1); [exact Hd|lia]. }
  assert (S1 : Prim2SF (x + 2)
               = SF64add (S754_finite false m 1)
                         (S754_finite false 4503599627370496 (-51))).
  { rewrite FloatAxioms.add_spec, E, Prim2SF_two. reflexivity. }
  assert (S0 : Prim2SF (x / 2 + 1)
               = SF64add (S754_finite false m 0)
                         (S754_finite false 4503599627370496 (-52))).
  { rewrite FloatAxioms.add_spec, H2. reflexivity. }
  destruct (SFadd_one_unit m 1 4503599627370496 (-51) Hd ltac:(lia)
              eq_refl eq_refl) as [A1 B1].
  destruct (SFadd_one_unit m 0 4503599627370496 (-52) Hd ltac:(lia)
              eq_refl eq_refl) as [A0 B0].
  rewrite (floor_id (x / 2) false m 0 H2) by lia.
  destruct (Z.eq_dec (Zpos m + 1)%Z (2 ^ 53)%Z) as [T|T].
  - rewrite (B1 T) in S1. rewrite (B0 T) in S0.
    assert (H3 : Prim2SF ((x + 2) / 2)
                 = S754_finite false 4503599627370496 1).
    { rewrite FloatAxioms.div_spec, S1, Prim2SF_two.
      apply (SFdiv_two_normal 4503599627370496 2); [reflexivity|lia]. }
    rewrite (floor_id _ _ _ _ H3) by lia.
    apply Prim2SF_inj. rewrite H3, S0. reflexivity.
  - rewrite (A1 ltac:(lia)) in S1. rewrite (A0 ltac:(lia)) in S0.
    assert (Hd' : Zdigits2 (Zpos (m + 1)) = 53%Z).
    { apply Zdigits2_unique; [|lia].
      pose proof (Zdigits2_bounds (Zpos m) ltac:(lia)) as [L _].
      rewrite Hd in L. lia. }
    assert (H3 : Prim2SF ((x + 2) / 2) = S754_finite false (m + 1) 0).
    { rewrite FloatAxioms.div_spec, S1, Prim2SF_two.
      apply (SFdiv_two_normal (m + 1) 1); [exact Hd'|lia]. }
    rewrite (floor_id _ _ _ _ H3) by lia.
    apply Prim2SF_inj. rewrite H3, S0. reflexivity.
Qed.

(** The seniority factor and the per-diem rate two years later, for any
    number of years from zero to below [2^54]. *)
Lemma years_step x :
  JS.nonneg x = true -> (x <? 18014398509481984) = true ->
  let k := JS.Math_floor (x / 2) in
  let k' := JS.Math_floor ((x + 2) / 2) in
  (k' = k + 1 \/ (k' = k + 2 /\ x + 2 = k' + k'))
  /\ (JS.Math_floor x = x -> k' = k + 1)
  /\ ((x <? 100) = true ->
      forall base, base = 2.2 \/ base = 2.7 ->
        (k' = k + 1 ->
         (abs (base + k' * 0.05 - (base + k * 0.05) - 0.05) <=? 1.1e-15) = true)
        /\ (k' = k + 2 ->
            (abs (base + k' * 0.05 - (base + k * 0.05) - 0.1) <=? 1.1e-15) = true)).
Proof.
  intros N L. cbv zeta.
  pose proof N as N'. rewrite nonneg_spec in N'.
  destruct (Prim2SF x) as [s|s| |s m e] eqn:E; simpl in N'; try discriminate N'.
  - (* zero *)
    assert (Z : x = 0 \/ x = -0).
    { destruct s; [right|left]; apply Prim2SF_inj; rewrite E; reflexivity. }
    assert (K : JS.Math_floor ((x + 2) / 2) = JS.Math_floor (x / 2) + 1)
      by (destruct Z as [-> | ->]; reflexivity).
    split; [left; exact K|]. split; [intros _; exact K|].
    intros _ base Hb. split.
    + intros _. destruct Z as [-> | ->], Hb as [-> | ->]; reflexivity.
    + intros H. exfalso.
      apply (one_is_not_zero_plus_two (JS.Math_floor (x / 2))).
      * destruct Z as [-> | ->]; [left|right]; reflexivity.
      * rewrite <- H. destruct Z as [-> | ->]; reflexivity.
  - (* infinity *)
    apply negb_true_iff in N'. subst s.
    rewrite FloatAxioms.ltb_spec, E in L. vm_compute in L. discriminate L.
  - apply negb_true_iff in N'. subst s.
    assert (He : (e < 0 \/ e = 0 \/ e = 1)%Z).
    { destruct (ltb_finite x 18014398509481984 m e 4503599627370496 2
                  E eq_refl L) as [He|[-> Hm]]; [lia|].
      pose proof (Prim2SF_valid x) as V. rewrite E in V.
      apply valid_finite in V as [C _]. rewrite fexp_eq in C.
      pose proof (Zdigits2_bounds (Zpos m) ltac:(lia)) as [Lm _].
      replace (Zdigits2 (Zpos m)) with 53%Z in Lm by lia.
      change (2 ^ (53 - 1))%Z with 4503599627370496%Z in Lm. lia. }
    destruct He as [He|[-> | ->]].
    + (* years with a fractional exponent *)
      destruct (factor_step x m e E He) as (Hq & K & K' & Kw).
      set (q := (Zpos m / 2 ^ (- e) / 2)%Z) in *.
      assert (K1 : JS.Math_floor (x / 2) + 1 = JS.of_Z (q + 1)).
      { rewrite K. change 1 with (JS.of_Z 1). apply add_of_Z; lia. }
      assert (K2 : JS.Math_floor (x / 2) + 2 = JS.of_Z (q + 2)).
      { rewrite K. change 2 with (JS.of_Z 2). apply add_of_Z; lia. }
      split; [|split].
      * destruct K' as [K'|[K' S]]; [left; congruence|right].
        split; [congruence|].
        rewrite K', add_of_Z by lia. rewrite S. f_equal. lia.
      * intros Fx. rewrite (Kw Fx). congruence.
      * intros L100 base Hb.
        assert (Hq50 : (0 <= q < 50)%Z).
        { split; [lia|].
          assert (Pe : (0 < 2 ^ (- e))%Z) by (apply Z.pow_pos_nonneg; lia).
          assert (W : (Zpos m / 2 ^ (- e) < 100)%Z).
          { apply Z.div_lt_upper_bound; [lia|].
            destruct (ltb_finite x 100 m e 7036874417766400 (-46) E eq_refl L100)
              as [He'|[-> Hm']].
            - pose proof (Prim2SF_valid x) as V. rewrite E in V.
              apply valid_finite in V as [C _]. rewrite fexp_eq in C.
              pose proof (Zdigits2_bounds (Zpos m) ltac:(lia)) as [_ U].
              assert (2 ^ Zdigits2 (Zpos m) <= 2 ^ 53)%Z
                by (apply Z.pow_le_mono_r; lia).
              assert (2 ^ 47 <= 2 ^ (- e))%Z by (apply Z.pow_le_mono_r; lia).
              change (2 ^ 53)%Z with (64 * 2 ^ 47)%Z in *. nia.
            - change (2 ^ (- -46))%Z with 70368744177664%Z. lia. }
          unfold q. apply Z.div_lt_upper_bound; lia. }
        destruct (step_close q base Hq50 Hb) as [S1 S2].
        split; intros ->; [rewrite K1|rewrite K2]; rewrite K; assumption.
    + (* whole years from 2^52 to 2^53 *)
      pose proof (whole_double x m E) as X.
      assert (Hm53 : (Zpos m < 2 ^ 53)%Z).
      { pose proof (Prim2SF_valid x) as V. rewrite E in V.
        apply valid_finite in V as [C _]. rewrite fexp_eq in C.
        pose proof (Zdigits2_bounds (Zpos m) ltac:(lia)) as [_ U].
        replace (Zdigits2 (Zpos m)) with 53%Z in U by lia. exact U. }
      assert (K : JS.Math_floor ((x + 2) / 2) = JS.Math_floor (x / 2) + 1).
      { destruct (Z_lt_le_dec (Zpos m + 2)%Z (2 ^ 53)%Z) as [Hs|Hs].
        - rewrite X. change 2 with (JS.of_Z 2) at 1. rewrite add_of_Z by lia.
          rewrite !floor_half_of_Z by lia.
          change 1 with (JS.of_Z 1).
          assert (0 <= Zpos m / 2 <= Zpos m)%Z.
          { split; [apply Z.div_pos; lia|]. apply Z.div_le_upper_bound; lia. }
          rewrite add_of_Z by lia.
          f_equal. replace (Zpos m + 2)%Z with (Zpos m + 1 * 2)%Z by lia.
          apply Z.div_add. lia.
        - (* the last two whole numbers below 2^53 *)
          change (2 ^ 53)%Z with 9007199254740992%Z in *.
          assert (Hm : (Zpos m = 9007199254740990 \/ Zpos m = 9007199254740991)%Z)
            by lia.
          rewrite X. destruct Hm as [-> | ->]; vm_compute; reflexivity. }
      split; [left; exact K|]. split; [intros _; exact K|].
      intros L100. exfalso.
      destruct (ltb_finite x 100 m 0 7036874417766400 (-46) E eq_refl L100)
        as [He'|[He' _]]; lia.
    + (* even years from 2^53 to 2^54 *)
      split; [left; exact (even_years_step x m E)|].
      split; [intros _; exact (even_years_step x m E)|].
      intros L100. exfalso.
      destruct (ltb_finite x 100 m 1 7036874417766400 (-46) E eq_refl L100)
        as [He'|[He' _]]; lia.
Qed.

End StepFacts.

(** ** Facts about the schema *)

Module SchemaFacts.
Import Zod.
Local Open Scope list_scope.

Local Abbreviation nonNegative S msg := (min 0 msg (coerce_number S)).

Lemma issues_of_ap {A B} (f : SafeParse (A -> B)) (x : SafeParse A) :
  issues_of (f <*> x) = issues_of f ++ issues_of x.
Proof. destruct f, x; reflexivity. Qed.

Lemma success_ap {A B} (f : SafeParse (A -> B)) (x : SafeParse A) :
  success (f <*> x) = success f && success x.
Proof. destruct f, x; reflexivity. Qed.

(** The issues of the whole object are the issues of its ten keys, in the
    order of the shape. *)
Lemma formSchema_issues S raw :
  issues_of (formSchema S raw)
  = issues_of (field raw "internationalTrip" boolean)
    ++ issues_of (field raw "seniorityYears"
                    (nonNegative S "Seniority years must be a positive number"))
    ++ issues_of (field raw "tafb" (nonNegative S "TAFB must be a positive number"))
    ++ issues_of (field raw "hourlyRate"
                    (nonNegative S "Hourly rate must be a positive number"))
    ++ issues_of (field raw "credit"
                    (nonNegative S "Credit hours must be a positive number"))
    ++ issues_of (field raw "position" positionEnum)
    ++ issues_of (field raw "isMexicoCaribbean" boolean)
    ++ issues_of (field raw "nightPayHours"
                    (nonNegative S "Night pay hours must be a positive number"))
    ++ issues_of (field raw "aircraft" (optional string_))
    ++ issues_of (field raw "hoursInWidebody"
                    (optional
                       (nonNegative S "Hours in widebody must be a positive number"))).
Proof.
  unfold formSchema. rewrite !issues_of_ap. simpl issues_of at 1.
  rewrite app_nil_l, <- !app_assoc. reflexivity.
Qed.

Lemma formSchema_success S raw :
  success (formSchema S raw)
  = success (field raw "internationalTrip" boolean)
    && success (field raw "seniorityYears"
                  (nonNegative S "Seniority years must be a positive number"))
    && success (field raw "tafb" (nonNegative S "TAFB must be a positive number"))
    && success (field raw "hourlyRate"
                  (nonNegative S "Hourly rate must be a positive number"))
    && success (field raw "credit"
                  (nonNegative S "Credit hours must be a positive number"))
    && success (field raw "position" positionEnum)
    && success (field raw "isMexicoCaribbean" boolean)
    && success (field raw "nightPayHours"
                  (nonNegative S "Night pay hours must be a positive number"))
    && success (field raw "aircraft" (optional string_))
    && success (field raw "hoursInWidebody"
                  (optional
                     (nonNegative S "Hours in widebody must be a positive number"))).
Proof. unfold formSchema. rewrite !success_ap. reflexivity. Qed.

(** Every issue of a key carries the key as its path. *)
Lemma issues_at_field {A} raw key (s : Schema A) k :
  issues_at k (issues_of (field raw key s))
  = if String.eqb key k then issues_of (field raw key s) else [].
Proof.
  unfold field, issues_at.
  destruct (s (prop raw key)) as [a|i]; simpl.
  - destruct (String.eqb key k); reflexivity.
  - induction i as [|r i IH]; simpl.
    + destruct (String.eqb key k); reflexivity.
    + rewrite IH. destruct (String.eqb key k); reflexivity.
Qed.

Lemma issues_off_field {A} raw key (s : Schema A) k :
  List.filter (fun i => negb (String.eqb (path i) k)) (issues_of (field raw key s))
  = if String.eqb key k then [] else issues_of (field raw key s).
Proof.
  unfold field.
  destruct (s (prop raw key)) as [a|i]; simpl.
  - destruct (String.eqb key k); reflexivity.
  - induction i as [|r i IH]; simpl.
    + destruct (String.eqb key k); reflexivity.
    + rewrite IH. destruct (String.eqb key k); reflexivity.
Qed.

Lemma field_success {A} raw key (s : Schema A) :
  proper s ->
  success (field raw key s) = match issues_of (field raw key s) with
                              | [] => true
                              | _ => false
                              end.
Proof.
  intros P. unfold field. pose proof (P (prop raw key)) as H.
  destruct (s (prop raw key)) as [a|[|r i]]; simpl; congruence.
Qed.

Lemma proper_boolean : proper boolean.
Proof. intros [| |b|x|s]; simpl; congruence. Qed.

Lemma proper_string : proper string_.
Proof. intros [| |b|x|s]; simpl; congruence. Qed.

Lemma proper_nonNegative S msg : proper (nonNegative S msg).
Proof.
  intros v. unfold min, coerce_number.
  destruct (PrimFloat.is_nan _); [congruence|].
  destruct (_ <? _)%float; congruence.
Qed.

Lemma proper_optional {A} (s : Schema A) : proper s -> proper (optional s).
Proof.
  intros P v. pose proof (P v) as H. unfold optional.
  destruct v; try congruence; destruct (s _); congruence.
Qed.

Lemma proper_positionEnum : proper positionEnum.
Proof.
  intros v. unfold positionEnum.
  destruct v as [| |b|x|s]; try congruence.
  repeat match goal with
         | |- context [match ?x with _ => _ end] => destruct x
         end; congruence.
Qed.

Lemma nil_app_iff {A} (l1 l2 : list A) :
  match l1 ++ l2 with [] => true | _ => false end
  = match l1 with [] => true | _ => false end
    && match l2 with [] => true | _ => false end.
Proof. destruct l1, l2; reflexivity. Qed.

(** The parse succeeds exactly when it raises no issue. *)
Lemma formSchema_success_issues S raw :
  success (formSchema S raw)
  = match issues_of (formSchema S raw) with [] => true | _ => false end.
Proof.
  rewrite formSchema_success, formSchema_issues, !nil_app_iff.
  rewrite !field_success;
    auto using proper_boolean, proper_string, proper_nonNegative,
               proper_optional, proper_positionEnum.
  rewrite !andb_assoc. reflexivity.
Qed.

(** What a numeric key raises. *)
Lemma required_number_issues S raw key msg :
  String.eqb key "hoursInWidebody" = false ->
  issues_of (field raw key (nonNegative S msg)) = numericIssues S raw key msg.
Proof.
  intros Hk. unfold field, numericIssues, min, coerce_number.
  rewrite Hk. simpl.
  destruct (PrimFloat.is_nan _) eqn:E.
  - unfold invalid_type_issue, getParsedType. rewrite E. reflexivity.
  - destruct (_ <? _)%float; reflexivity.
Qed.

Lemma optional_number_issues S raw msg :
  issues_of (field raw "hoursInWidebody" (optional (nonNegative S msg)))
  = numericIssues S raw "hoursInWidebody" msg.
Proof.
  unfold field, numericIssues, optional, min, coerce_number.
  simpl String.eqb. cbn [andb].
  destruct (prop raw "hoursInWidebody") as [| |b|x|s] eqn:Ev;
    try reflexivity;
    cbn [isUndefined];
    (destruct (PrimFloat.is_nan _) eqn:E;
     [unfold invalid_type_issue, getParsedType; rewrite E; reflexivity
     |destruct (_ <? _)%float; reflexivity]).
Qed.

Lemma numeric_key_issues S raw key msg :
  In (key, msg) numericKeys ->
  issues_at key (issues_of (formSchema S raw)) = numericIssues S raw key msg.
Proof.
  intros Hin. rewrite formSchema_issues. unfold issues_at.
  rewrite !List.filter_app.
  repeat change (List.filter (fun i => String.eqb (path i) key))
    with (issues_at key).
  rewrite !issues_at_field.
  simpl in Hin.
  repeat destruct Hin as [Hin|Hin]; try contradiction;
    injection Hin as <- <-; simpl;
    rewrite ?app_nil_r;
    first [apply required_number_issues; reflexivity
          |apply optional_number_issues].
Qed.

(** What gets through a numeric key passed its [min(0)] check. *)
Lemma field_nonNegative_ok S raw key msg d :
  field raw key (nonNegative S msg) = Success d -> JS.nonneg d = true.
Proof.
  unfold field, min, coerce_number.
  destruct (PrimFloat.is_nan _) eqn:E1; [discriminate|].
  destruct (_ <? _)%float eqn:E2; [discriminate|].
  intros H. injection H as <-. apply NumberFacts.min0_nonneg; assumption.
Qed.

Lemma field_optional_nonNegative_ok S raw key msg d h :
  field raw key (optional (nonNegative S msg)) = Success d ->
  d = Some h -> JS.nonneg h = true.
Proof.
  unfold field, optional, min, coerce_number.
  destruct (prop raw key) as [| |b|x|s];
    try (intros H; injection H as <-; discriminate);
    (destruct (PrimFloat.is_nan _) eqn:E1; [discriminate|];
     destruct (_ <? _)%float eqn:E2; [discriminate|];
     intros H Hd; injection H as <-; injection Hd as <-;
     apply NumberFacts.min0_nonneg; assumption).
Qed.

(** The schema only lets through records whose numbers are all [>= 0]. *)
Lemma formSchema_validated S raw v :
  formSchema S raw = Success v -> validated v = true.
Proof.
  unfold formSchema. intros H.
  destruct (field raw "internationalTrip" boolean) eqn:E1; [|discriminate].
  destruct (field raw "seniorityYears" _) eqn:E2; [|discriminate].
  destruct (field raw "tafb" _) eqn:E3; [|discriminate].
  destruct (field raw "hourlyRate" _) eqn:E4; [|discriminate].
  destruct (field raw "credit" _) eqn:E5; [|discriminate].
  destruct (field raw "position" _) eqn:E6; [|discriminate].
  destruct (field raw "isMexicoCaribbean" _) eqn:E7; [|discriminate].
  destruct (field raw "nightPayHours" _) eqn:E8; [|discriminate].
  destruct (field raw "aircraft" _) eqn:E9; [|discriminate].
  destruct (field raw "hoursInWidebody" _) eqn:E10; [|discriminate].
  simpl in H. injection H as <-.
  unfold validated, numericValues. rewrite forallb_app. simpl.
  rewrite (field_nonNegative_ok _ _ _ _ _ E2), (field_nonNegative_ok _ _ _ _ _ E3),
    (field_nonNegative_ok _ _ _ _ _ E4), (field_nonNegative_ok _ _ _ _ _ E5),
    (field_nonNegative_ok _ _ _ _ _ E8). simpl.
  match goal with
  | |- context [match ?d with Some _ => _ | None => _ end] =>
      destruct d as [h|]; [|reflexivity]
  end. simpl.
  rewrite (field_optional_nonNegative_ok _ _ _ _ _ h E10 eq_refl). reflexivity.
Qed.

(** Removing a key of the raw object leaves the other keys as they were,
    and an optional key that is absent raises nothing. *)
Lemma field_delete_ne {A} (raw : gmap string JsValue) k key (s : Schema A) :
  k <> key -> field (delete k raw) key s = field raw key s.
Proof. intros H. unfold field, prop. rewrite lookup_delete_ne by exact H. reflexivity. Qed.

Lemma field_delete_eq {A} (raw : gmap string JsValue) k (s : Schema A) :
  field (delete k raw) k (optional s) = Success None.
Proof. unfold field, prop. rewrite lookup_delete_eq. reflexivity. Qed.

Lemma formSchema_omit S raw k :
  k = "aircraft" \/ k = "hoursInWidebody" ->
  issues_of (formSchema S (delete k raw))
  = issues_off k (issues_of (formSchema S raw)).
Proof.
  unfold issues_off.
  intros [-> | ->]; rewrite !formSchema_issues, !List.filter_app,
    !issues_off_field; simpl;
    rewrite ?field_delete_eq, ?app_nil_r;
    rewrite !field_delete_ne by discriminate; reflexivity.
Qed.

Lemma no_issue_off (l : list Issue) k :
  match issues_off k l with
  | [] => true
  | _ => false
  end = forallb (fun i => String.eqb (path i) k) l.
Proof.
  unfold issues_off.
  induction l as [|i l IH]; simpl; [reflexivity|].
  destruct (String.eqb (path i) k); simpl; auto.
Qed.

Lemma forallb_issues_off (p : Issue -> bool) (l : list Issue) k :
  forallb p (issues_off k l)
  = forallb (fun i => p i || String.eqb (path i) k) l.
Proof.
  unfold issues_off.
  induction l as [|i l IH]; simpl; [reflexivity|].
  destruct (String.eqb (path i) k); simpl; rewrite IH, ?orb_true_r, ?orb_false_r;
    reflexivity.
Qed.

End SchemaFacts.

(** ** Facts about the form: parsing, the calculation and submissions *)

Module FormFacts.
Import Zod Binary64 Binary64Facts NumberFacts SchemaFacts.
Local Open Scope list_scope.

Local Abbreviation nonNegative S msg := (min 0 msg (coerce_number S)).

(** *** The enum and the object of a record *)

Lemma positionEnum_string s :
  positionEnum (JString s)
  = if String.eqb s "Speaker" then OK Speaker
    else if String.eqb s "Galley" then OK Galley
    else if String.eqb s "Purser" then OK Purser
    else INVALID
           [{| raw_code := invalid_enum_value;
               raw_message :=
                 ("Invalid enum value. Expected 'Speaker' | 'Galley' | 'Purser'"
                  ++ ", received '" ++ s ++ "'")%string |}].
Proof.
  do 8 (try (destruct s as [|[[|] [|] [|] [|] [|] [|] [|] [|]] s];
             try reflexivity)).
Qed.

Lemma prop_toRaw v :
  prop (toRaw v) "internationalTrip" = JBool (internationalTrip v)
  /\ prop (toRaw v) "seniorityYears" = JNumber (seniorityYears v)
  /\ prop (toRaw v) "tafb" = JNumber (tafb v)
  /\ prop (toRaw v) "hourlyRate" = JNumber (hourlyRate v)
  /\ prop (toRaw v) "credit" = JNumber (credit v)
  /\ prop (toRaw v) "position" = JString (positionName (position v))
  /\ prop (toRaw v) "isMexicoCaribbean" = JBool (isMexicoCaribbean v)
  /\ prop (toRaw v) "nightPayHours" = JNumber (nightPayHours v)
  /\ prop (toRaw v) "aircraft"
     = match aircraft v with Some a => JString a | None => JUndefined end
  /\ prop (toRaw v) "hoursInWidebody"
     = match hoursInWidebody v with Some h => JNumber h | None => JUndefined end.
Proof.
  destruct v as [i s t r c p m n [a|] [h|]]; repeat split; reflexivity.
Qed.

Lemma nonneg_not_below x : JS.nonneg x = true -> (x <? 0)%float = false.
Proof.
  rewrite nonneg_spec, FloatAxioms.ltb_spec.
  change (Prim2SF 0) with (S754_zero false).
  destruct (Prim2SF x) as [s|s| |s m e]; try destruct s;
    try reflexivity; discriminate.
Qed.

(** *** One key at a time *)

Lemma field_boolean raw key b :
  field raw key boolean = Success b <-> prop raw key = JBool b.
Proof.
  unfold field. destruct (prop raw key); simpl; split; intros H;
    try discriminate; injection H as <-; reflexivity.
Qed.

Lemma field_nonNegative S raw key msg d :
  field raw key (nonNegative S msg) = Success d
  <-> d = Number S (prop raw key) /\ JS.nonneg d = true.
Proof.
  unfold field, min, coerce_number. split.
  - destruct (PrimFloat.is_nan _) eqn:E1; [discriminate|].
    destruct (_ <? _)%float eqn:E2; [discriminate|].
    intros H. injection H as <-. split; [reflexivity|].
    apply min0_nonneg; assumption.
  - intros [-> N].
    rewrite (nonneg_not_nan _ N), (nonneg_not_below _ N). reflexivity.
Qed.

Lemma field_optional_nonNegative S raw key msg d :
  field raw key (optional (nonNegative S msg)) = Success d
  <-> match d with
      | None => prop raw key = JUndefined
      | Some h => prop raw key <> JUndefined
                  /\ h = Number S (prop raw key) /\ JS.nonneg h = true
      end.
Proof.
  unfold field, optional, min, coerce_number. split.
  - destruct (prop raw key) as [| |b|x|s];
      try (intros H; injection H as <-; reflexivity);
      (destruct (PrimFloat.is_nan _) eqn:E1; [discriminate|];
       destruct (_ <? _)%float eqn:E2; [discriminate|];
       intros H; injection H as <-;
       split; [discriminate|]; split; [reflexivity|];
       apply min0_nonneg; assumption).
  - destruct d as [h|].
    + intros (U & -> & N).
      rewrite (nonneg_not_nan _ N), (nonneg_not_below _ N).
      destruct (prop raw key); try reflexivity. contradiction.
    + intros ->. reflexivity.
Qed.

Lemma field_position raw key p :
  field raw key positionEnum = Success p
  <-> prop raw key = JString (positionName p).
Proof.
  unfold field. split.
  - destruct (prop raw key) as [| |b|x|s]; try discriminate.
    rewrite positionEnum_string.
    destruct (String.eqb_spec s "Speaker") as [->|_];
      [intros H; injection H as <-; reflexivity|].
    destruct (String.eqb_spec s "Galley") as [->|_];
      [intros H; injection H as <-; reflexivity|].
    destruct (String.eqb_spec s "Purser") as [->|_];
      [intros H; injection H as <-; reflexivity|discriminate].
  - intros ->. destruct p; reflexivity.
Qed.

Lemma field_optional_string raw key a :
  field raw key (optional string_) = Success a
  <-> prop raw key = match a with Some s => JString s | None => JUndefined end.
Proof.
  unfold field, optional. destruct (prop raw key), a; simpl; split; intros H;
    try discriminate; try reflexivity; injection H as <-; reflexivity.
Qed.

(** *** The object from its keys *)

Lemma formSchema_fields S raw v :
  formSchema S raw = Success v
  <-> field raw "internationalTrip" boolean = Success (internationalTrip v)
      /\ field raw "seniorityYears"
           (nonNegative S "Seniority years must be a positive number")
         = Success (seniorityYears v)
      /\ field raw "tafb" (nonNegative S "TAFB must be a positive number")
         = Success (tafb v)
      /\ field raw "hourlyRate"
           (nonNegative S "Hourly rate must be a positive number")
         = Success (hourlyRate v)
      /\ field raw "credit"
           (nonNegative S "Credit hours must be a positive number")
         = Success (credit v)
      /\ field raw "position" positionEnum = Success (position v)
      /\ field raw "isMexicoCaribbean" boolean = Success (isMexicoCaribbean v)
      /\ field raw "nightPayHours"
           (nonNegative S "Night pay hours must be a positive number")
         = Success (nightPayHours v)
      /\ field raw "aircraft" (optional string_) = Success (aircraft v)
      /\ field raw "hoursInWidebody"
           (optional
              (nonNegative S "Hours in widebody must be a positive number"))
         = Success (hoursInWidebody v).
Proof.
  unfold formSchema. split.
  - intros H.
    destruct (field raw "internationalTrip" boolean); [|discriminate].
    destruct (field raw "seniorityYears" _); [|discriminate].
    destruct (field raw "tafb" _); [|discriminate].
    destruct (field raw "hourlyRate" _); [|discriminate].
    destruct (field raw "credit" _); [|discriminate].
    destruct (field raw "position" _); [|discriminate].
    destruct (field raw "isMexicoCaribbean" _); [|discriminate].
    destruct (field raw "nightPayHours" _); [|discriminate].
    destruct (field raw "aircraft" _); [|discriminate].
    destruct (field raw "hoursInWidebody" _); [|discriminate].
    simpl in H. injection H as <-. repeat split.
  - intros (E1 & E2 & E3 & E4 & E5 & E6 & E7 & E8 & E9 & E10).
    rewrite E1, E2, E3, E4, E5, E6, E7, E8, E9, E10.
    destruct v; reflexivity.
Qed.

(** *** Round trips *)

Lemma formSchema_toRaw S v :
  validated v = true -> formSchema S (toRaw v) = Success v.
Proof.
  intros V.
  destruct (validated_fields v V) as (Ns & Nt & Nr & Nc & Nn & Nh).
  destruct (prop_toRaw v) as (P1 & P2 & P3 & P4 & P5 & P6 & P7 & P8 & P9 & P10).
  apply formSchema_fields. repeat split.
  - apply field_boolean, P1.
  - apply field_nonNegative. rewrite P2. auto.
  - apply field_nonNegative. rewrite P3. auto.
  - apply field_nonNegative. rewrite P4. auto.
  - apply field_nonNegative. rewrite P5. auto.
  - apply field_position, P6.
  - apply field_boolean, P7.
  - apply field_nonNegative. rewrite P8. auto.
  - apply field_optional_string, P9.
  - apply field_optional_nonNegative. rewrite P10.
    destruct (hoursInWidebody v) as [h|]; [|reflexivity].
    split; [discriminate|]. auto.
Qed.

(** The parsed object, key by key. *)
Lemma formSchema_coerced S raw v key :
  formSchema S raw = Success v -> In key schemaKeys ->
  prop (toRaw v) key = coerced S key (prop raw key).
Proof.
  intros H Hk.
  apply formSchema_fields in H
    as (E1 & E2 & E3 & E4 & E5 & E6 & E7 & E8 & E9 & E10).
  apply field_boolean in E1, E7.
  apply field_nonNegative in E2 as [E2 _], E3 as [E3 _], E4 as [E4 _],
    E5 as [E5 _], E8 as [E8 _].
  apply field_position in E6. apply field_optional_string in E9.
  apply field_optional_nonNegative in E10.
  destruct (prop_toRaw v) as (P1 & P2 & P3 & P4 & P5 & P6 & P7 & P8 & P9 & P10).
  simpl in Hk.
  repeat destruct Hk as [Hk|Hk]; try contradiction; subst key;
    unfold coerced; simpl; congruence || idtac.
  rewrite P10. destruct (hoursInWidebody v) as [h|].
  - destruct E10 as (U & -> & _).
    destruct (prop raw "hoursInWidebody"); try reflexivity. contradiction.
  - rewrite E10. reflexivity.
Qed.

(** *** Keys the schema does not know *)

Lemma prop_insert_ne (raw : gmap string JsValue) k x key :
  k <> key -> prop (<[k := x]> raw) key = prop raw key.
Proof. intros H. unfold prop. rewrite lookup_insert_ne by exact H. reflexivity. Qed.

Lemma prop_insert_eq (raw : gmap string JsValue) k x :
  prop (<[k := x]> raw) k = x.
Proof. unfold prop. rewrite lookup_insert_eq. reflexivity. Qed.

Lemma prop_delete_ne (raw : gmap string JsValue) k key :
  k <> key -> prop (delete k raw) key = prop raw key.
Proof. intros H. unfold prop. rewrite lookup_delete_ne by exact H. reflexivity. Qed.

Lemma formSchema_props S raw raw' :
  (forall key, In key schemaKeys -> prop raw' key = prop raw key) ->
  formSchema S raw' = formSchema S raw.
Proof.
  intros H. unfold formSchema, field.
  rewrite !H by (simpl; tauto). reflexivity.
Qed.

(** *** The issues, key by key *)

Lemma field_paths {A} raw key (s : Schema A) :
  (forall x i, s x = INVALID i -> length i <= 1) ->
  sublist (map path (issues_of (field raw key s))) [key].
Proof.
  intros H. unfold field. specialize (H (prop raw key)).
  destruct (s (prop raw key)) as [a|i]; simpl.
  - apply sublist_nil_l.
  - specialize (H i eq_refl). destruct i as [|r [|r' i]]; simpl in *.
    + apply sublist_nil_l.
    + reflexivity.
    + lia.
Qed.

Lemma one_boolean x i : boolean x = INVALID i -> length i <= 1.
Proof. destruct x; simpl; intros H; try discriminate; injection H as <-; simpl; lia. Qed.

Lemma one_string x i : string_ x = INVALID i -> length i <= 1.
Proof. destruct x; simpl; intros H; try discriminate; injection H as <-; simpl; lia. Qed.

Lemma one_nonNegative S msg x i : nonNegative S msg x = INVALID i -> length i <= 1.
Proof.
  unfold min, coerce_number.
  destruct (PrimFloat.is_nan _); [intros H; injection H as <-; simpl; lia|].
  destruct (_ <? _)%float; [intros H; injection H as <-; simpl; lia|discriminate].
Qed.

Lemma one_optional {A} (s : Schema A) :
  (forall x i, s x = INVALID i -> length i <= 1) ->
  forall x i, optional s x = INVALID i -> length i <= 1.
Proof.
  intros H x i. specialize (H x). unfold optional.
  destruct x; try discriminate;
    (destruct (s _); [discriminate|intros E; injection E as <-; auto]).
Qed.

Lemma one_positionEnum x i : positionEnum x = INVALID i -> length i <= 1.
Proof.
  destruct x as [| |b|y|s]; try (simpl; intros H; injection H as <-; simpl; lia).
  rewrite positionEnum_string.
  repeat match goal with
         | |- context [if ?b then _ else _] => destruct b
         end; try discriminate.
  intros H; injection H as <-; simpl; lia.
Qed.

(** The paths of the issues follow the shape: every key at most once. *)
Lemma formSchema_paths S raw :
  sublist (map path (issues_of (formSchema S raw))) schemaKeys.
Proof.
  rewrite formSchema_issues, !map_app.
  change schemaKeys
    with (["internationalTrip"] ++ ["seniorityYears"] ++ ["tafb"]
          ++ ["hourlyRate"] ++ ["credit"] ++ ["position"]
          ++ ["isMexicoCaribbean"] ++ ["nightPayHours"] ++ ["aircraft"]
          ++ ["hoursInWidebody"])%list.
  repeat apply sublist_app;
    apply field_paths;
    first [exact one_boolean
          |exact one_positionEnum
          |exact (one_nonNegative _ _)
          |exact (one_optional _ one_string)
          |exact (one_optional _ (one_nonNegative _ _))].
Qed.

(** The issues under one key are those of the key's own schema. *)
Ltac isolate_key :=
  rewrite formSchema_issues; unfold issues_at;
  rewrite !List.filter_app;
  repeat match goal with
    | |- context [List.filter (fun i => String.eqb (path i) ?k)] =>
        change (List.filter (fun i => String.eqb (path i) k))
          with (issues_at k)
    end;
  rewrite !issues_at_field; simpl; rewrite ?app_nil_r.

Lemma boolean_issues raw key :
  issues_of (field raw key boolean)
  = match prop raw key with
    | JBool _ => []
    | x => [wrongType key "boolean" x]
    end.
Proof. unfold field. destruct (prop raw key); reflexivity. Qed.

Lemma position_issues raw key :
  issues_of (field raw key positionEnum)
  = match prop raw key with
    | JString s =>
        if existsb (String.eqb s) (map positionName [Speaker; Galley; Purser])
        then []
        else [{| code := invalid_enum_value; path := key;
                 message :=
                   ("Invalid enum value. Expected 'Speaker' | 'Galley' | 'Purser'"
                    ++ ", received '" ++ s ++ "'")%string |}]
    | x => [wrongType key "'Speaker' | 'Galley' | 'Purser'" x]
    end.
Proof.
  unfold field. destruct (prop raw key) as [| |b|x|s]; try reflexivity.
  rewrite positionEnum_string. simpl.
  destruct (String.eqb s "Speaker"), (String.eqb s "Galley"),
    (String.eqb s "Purser"); reflexivity.
Qed.

Lemma aircraft_issues raw key :
  issues_of (field raw key (optional string_))
  = match prop raw key with
    | JUndefined | JString _ => []
    | x => [wrongType key "string" x]
    end.
Proof. unfold field. destruct (prop raw key); reflexivity. Qed.

Lemma issues_at_internationalTrip S raw :
  issues_at "internationalTrip" (issues_of (formSchema S raw))
  = issues_of (field raw "internationalTrip" boolean).
Proof. isolate_key. reflexivity. Qed.

Lemma issues_at_isMexicoCaribbean S raw :
  issues_at "isMexicoCaribbean" (issues_of (formSchema S raw))
  = issues_of (field raw "isMexicoCaribbean" boolean).
Proof. isolate_key. reflexivity. Qed.

Lemma issues_at_position S raw :
  issues_at "position" (issues_of (formSchema S raw))
  = issues_of (field raw "position" positionEnum).
Proof. isolate_key. reflexivity. Qed.

Lemma issues_at_aircraft S raw :
  issues_at "aircraft" (issues_of (formSchema S raw))
  = issues_of (field raw "aircraft" (optional string_)).
Proof. isolate_key. reflexivity. Qed.

(** The issues under a key depend on the value under the key only. *)
Lemma field_local {A} raw raw' key (s : Schema A) k :
  prop raw k = prop raw' k ->
  (if String.eqb key k then issues_of (field raw key s) else [])
  = (if String.eqb key k then issues_of (field raw' key s) else []).
Proof.
  intros H. destruct (String.eqb_spec key k) as [->|_]; [|reflexivity].
  unfold field. rewrite H. reflexivity.
Qed.

Lemma failure_of_issue S raw k i :
  issues_at k (issues_of (formSchema S raw)) = [i] ->
  success (formSchema S raw) = false.
Proof.
  intros E. rewrite formSchema_success_issues.
  destruct (issues_of (formSchema S raw)); [discriminate E|reflexivity].
Qed.

(** *** The calculation *)

Lemma purser_other_aircraft v :
  position v = Purser ->
  (forall a, aircraft v = Some a -> ~ In a (map fst aircraftOptions)) ->
  positionCredit (calculateTripValue v) = 0%float.
Proof.
  intros Hp Hn. unfold calculateTripValue. cbn [positionCredit]. rewrite Hp.
  destruct (aircraft v) as [a|]; [|reflexivity].
  specialize (Hn a eq_refl). simpl in Hn.
  assert (N : forall s, In s (map fst aircraftOptions) -> String.eqb a s = false).
  { intros s Hs. apply String.eqb_neq. intros ->. apply Hn. exact Hs. }
  assert (E : JS.string_or (Some a) EmptyString = a) by (destruct a; reflexivity).
  rewrite E. unfold JS.includes, JS.strict_eq_string. simpl.
  rewrite !N by (simpl; tauto). reflexivity.
Qed.

(** The per-diem rate is a positive finite number. *)
Lemma perdiem_positive v :
  JS.nonneg (seniorityYears v) = true -> JS.isFinite (seniorityYears v) = true ->
  exists m e, Prim2SF (perdiem (calculateTripValue v)) = S754_finite false m e.
Proof.
  intros Hs Hf. unfold calculateTripValue. cbn [perdiem].
  destruct (internationalTrip v).
  - destruct (base_plus_step v 2.7 6079859496950170 eq_refl eq_refl Hs Hf)
      as (_ & B & A).
    destruct (Prim2SF _) as [s|s| |s m e]; simpl in A, B; try contradiction.
    destruct s; [contradiction|]. eauto.
  - destruct (base_plus_step v 2.2 4953959590107546 eq_refl eq_refl Hs Hf)
      as (_ & B & A).
    destruct (Prim2SF _) as [s|s| |s m e]; simpl in A, B; try contradiction.
    destruct s; [contradiction|]. eauto.
Qed.

Lemma perdiem_international v :
  internationalTrip v = true ->
  JS.nonneg (seniorityYears v) = true -> JS.isFinite (seniorityYears v) = true ->
  (2.7 <=? perdiem (calculateTripValue v))%float = true.
Proof.
  intros Hi Hs Hf. unfold calculateTripValue. cbn [perdiem]. rewrite Hi.
  rewrite FloatAxioms.leb_spec.
  change (Prim2SF 2.7) with (S754_finite false 6079859496950170 (-51)).
  destruct (base_plus_step v 2.7 6079859496950170 eq_refl eq_refl Hs Hf)
    as (_ & _ & A).
  apply at_least_leb with (2 := A). right. split; [reflexivity|]. lia.
Qed.

(** Zero times a positive finite number is zero. *)
Lemma zero_mul x m e :
  Prim2SF x = S754_finite false m e -> (0 * x)%float = 0%float.
Proof.
  intros H. apply Prim2SF_inj. rewrite FloatAxioms.mul_spec, H. reflexivity.
Qed.

(** *** Submissions *)

Lemma run_snoc S es e st : run S (es ++ [e]) st = step S (run S es st) e.
Proof. unfold run. rewrite fold_left_app. reflexivity. Qed.

Lemma snoc_split {A} (es es1 es2 : list A) e x :
  es ++ [e] = es1 ++ x :: es2 ->
  (es2 = [] /\ e = x /\ es = es1)
  \/ exists es2', es2 = es2' ++ [e] /\ es = es1 ++ x :: es2'.
Proof.
  destruct es2 as [|y es2 _] using rev_ind; intros H.
  - left. apply app_inj_tail in H as [-> ->]. auto.
  - right. exists es2.
    change (es1 ++ x :: es2 ++ [y]) with (es1 ++ (x :: es2) ++ [y]) in H.
    rewrite app_assoc in H. apply app_inj_tail in H as [-> ->]. auto.
Qed.

Lemma handleSubmit_cases S st :
  (exists v, formSchema S (fieldValues st) = Success v
             /\ handleSubmit S st
                = {| fieldValues := fieldValues st;
                     results := Some (calculateTripValue v) |})
  \/ (success (formSchema S (fieldValues st)) = false
      /\ handleSubmit S st = st).
Proof.
  unfold handleSubmit.
  destruct (formSchema S (fieldValues st)) as [v|i]; [left|right]; eauto.
Qed.

(** Starting without results, the results are those of the last
    submission that passed the schema, and there are none when no
    submission did. *)
Lemma results_run S st0 es :
  results st0 = None ->
  match results (run S es st0) with
  | Some r =>
      exists es1 es2 v,
        es = es1 ++ Submit :: es2
        /\ formSchema S (fieldValues (run S es1 st0)) = Success v
        /\ r = calculateTripValue v
        /\ forall es3 es4,
             es2 = es3 ++ Submit :: es4 ->
             success (formSchema S (fieldValues
                        (run S (es1 ++ Submit :: es3) st0))) = false
  | None =>
      forall es1 es2,
        es = es1 ++ Submit :: es2 ->
        success (formSchema S (fieldValues (run S es1 st0))) = false
  end.
Proof.
  intros H0. induction es as [|e es IH] using rev_ind.
  - cbn [run fold_left]. rewrite H0. intros es1 es2 H.
    destruct es1; discriminate H.
  - rewrite run_snoc.
    assert (Keep : results (step S (run S es st0) e) = results (run S es st0) ->
                   (e = Submit ->
                    success (formSchema S (fieldValues (run S es st0))) = false) ->
                   match results (step S (run S es st0) e) with
                   | Some r =>
                       exists es1 es2 v,
                         es ++ [e] = es1 ++ Submit :: es2
                         /\ formSchema S (fieldValues (run S es1 st0))
                            = Success v
                         /\ r = calculateTripValue v
                         /\ forall es3 es4,
                              es2 = es3 ++ Submit :: es4 ->
                              success (formSchema S (fieldValues
                                         (run S (es1 ++ Submit :: es3) st0)))
                              = false
                   | None =>
                       forall es1 es2,
                         es ++ [e] = es1 ++ Submit :: es2 ->
                         success (formSchema S (fieldValues (run S es1 st0)))
                         = false
                   end).
    { intros -> Hf.
      destruct (results (run S es st0)) as [r|].
      - destruct IH as (es1 & es2 & v & -> & P & -> & L).
        exists es1, (es2 ++ [e]), v. split.
        { rewrite <- app_assoc. reflexivity. }
        split; [exact P|]. split; [reflexivity|].
        intros es3 es4 H.
        apply snoc_split in H as [(-> & -> & ->)|(es4' & -> & ->)].
        + apply Hf. reflexivity.
        + apply (L es3 es4'). reflexivity.
      - intros es1 es2 H.
        apply snoc_split in H as [(-> & -> & ->)|(es2' & -> & ->)].
        + apply Hf. reflexivity.
        + apply (IH es1 es2'). reflexivity. }
    destruct e as [name value|].
    + apply Keep; [reflexivity|discriminate].
    + destruct (handleSubmit_cases S (run S es st0)) as [(v & P & E)|(F & E)].
      * cbn [step]. rewrite E. cbn [results]. exists es, [], v.
        split; [reflexivity|]. split; [exact P|]. split; [reflexivity|].
        intros es3 es4 H. destruct es3; discriminate H.
      * apply Keep; [cbn [step]; rewrite E; reflexivity|]. intros _. exact F.
Qed.

Lemma handleSubmit_defaults S :
  handleSubmit S initialState
  = {| fieldValues := defaultValues;
       results := Some {| perdiem := 2.2; perdiemValue := 0;
                          positionCredit := 0; internationalCredit := 0;
                          nightPayCredit := 0; totalTripValue := 0 |}%float |}.
Proof. vm_compute. reflexivity. Qed.

End FormFacts.

(** ** Sample computations *)

Import Binary64 Binary64Facts NumberFacts StepFacts SchemaFacts.
Local Open Scope float_scope.

Example Math_floor_samples :
  map JS.Math_floor [2.5; 2; 0.3; 0; -0; -0.3; -2.5; -3; 4503599627370495.5;
                     1e300; infinity; neg_infinity]
  = [2; 2; 0; 0; -0; -1; -3; -3; 4503599627370495; 1e300; infinity;
     neg_infinity]
  /\ PrimFloat.is_nan (JS.Math_floor nan) = true.
Proof. split; reflexivity. Qed.

(** The two worked scenarios of the specification, as the doubles the
    code produces. *)
Example scenarioA_result :
  calculateTripValue scenarioA
  = {| perdiem := 2.3000000000000003; perdiemValue := 23.000000000000004;
       positionCredit := 50; internationalCredit := 0; nightPayCredit := 2;
       totalTripValue := 1075 |}.
Proof. reflexivity. Qed.

Example scenarioB_result :
  calculateTripValue scenarioB
  = {| perdiem := 2.9500000000000002; perdiemValue := 59;
       positionCredit := 90; internationalCredit := 60; nightPayCredit := 0;
       totalTripValue := 2009 |}.
Proof. reflexivity. Qed.

(** ** The properties of the calculation *)

(** C1, as stated, fails for one kind of input: [Infinity] passes the
    schema, and with it the per-diem value and the total are [NaN], which
    equals nothing, not even the sum it was computed as. *)
Lemma total_unequal_when_not_a_number :
  let r := calculateTripValue endlessSeniority in
  validated endlessSeniority = true
  /\ PrimFloat.is_nan (totalTripValue r) = true
  /\ (totalTripValue r
      =? hourlyRate endlessSeniority * credit endlessSeniority + perdiemValue r
         + positionCredit r + internationalCredit r + nightPayCredit r) = false
  /\ (perdiemValue r =? perdiem r * tafb endlessSeniority) = false.
Proof. repeat split; reflexivity. Qed.

(** C1, amended: for every validated record whose numbers are all finite
    the total equals ([==]) the sum of the five components, in the order
    the code adds them: [hourlyRate * credit], the per-diem value
    [perdiem * tafb], the position credit, the international credit
    ([credit * 2] on an international trip, [0] otherwise) and the night
    pay credit [nightPayHours / 2]; the components equal these values.
    For every record at all, the total and the sum are the same double,
    and they fail to be equal only when that double is [NaN]. *)
Theorem total_is_sum_of_components (v : FormValues) :
  let r := calculateTripValue v in
  let sum :=
    hourlyRate v * credit v + perdiemValue r + positionCredit r
    + internationalCredit r + nightPayCredit r in
  (validated v = true -> allFinite v = true ->
   (totalTripValue r =? sum) = true
   /\ (perdiemValue r =? perdiem r * tafb v) = true
   /\ (internationalCredit r
       =? if internationalTrip v then credit v * 2 else 0) = true
   /\ (nightPayCredit r =? nightPayHours v / 2) = true)
  /\ (totalTripValue r = sum
      /\ perdiemValue r = perdiem r * tafb v
      /\ internationalCredit r
         = (if internationalTrip v then credit v * 2 else 0)
      /\ nightPayCredit r = nightPayHours v / 2)
  /\ (totalTripValue r =? sum) = negb (PrimFloat.is_nan (totalTripValue r))
  /\ (perdiemValue r =? perdiem r * tafb v)
     = negb (PrimFloat.is_nan (perdiemValue r)).
Proof.
  cbv zeta.
  assert (T : totalTripValue (calculateTripValue v)
              = hourlyRate v * credit v + perdiemValue (calculateTripValue v)
                + positionCredit (calculateTripValue v)
                + internationalCredit (calculateTripValue v)
                + nightPayCredit (calculateTripValue v)) by reflexivity.
  assert (P : perdiemValue (calculateTripValue v)
              = perdiem (calculateTripValue v) * tafb v) by apply mul_comm.
  assert (I : internationalCredit (calculateTripValue v)
              = if internationalTrip v then credit v * 2 else 0)
    by reflexivity.
  assert (N : nightPayCredit (calculateTripValue v) = nightPayHours v / 2)
    by reflexivity.
  split; [|split; [auto|split]].
  - intros V F.
    destruct (amounts_nonneg v V F) as (Pn & Cn & Nn & Tn).
    apply nonneg_not_nan in Pn, Cn, Nn, Tn.
    rewrite <- T, <- P.
    change (if internationalTrip v then credit v * 2 else 0)
      with (internationalCredit (calculateTripValue v)).
    change (nightPayHours v / 2) with (nightPayCredit (calculateTripValue v)).
    rewrite !eqb_same, Pn, Cn, Nn, Tn. auto.
  - rewrite <- T. apply eqb_same.
  - rewrite <- P. apply eqb_same.
Qed.

Lemma total_is_sum_of_components_witness :
  validated scenarioB = true /\ allFinite scenarioB = true
  /\ (totalTripValue (calculateTripValue scenarioB)
      =? hourlyRate scenarioB * credit scenarioB
         + perdiemValue (calculateTripValue scenarioB)
         + positionCredit (calculateTripValue scenarioB)
         + internationalCredit (calculateTripValue scenarioB)
         + nightPayCredit (calculateTripValue scenarioB)) = true.
Proof.
  split; [reflexivity|]. split; [reflexivity|].
  exact (proj1 (proj1 (total_is_sum_of_components scenarioB)
                  eq_refl eq_refl)).
Defined.

(** C2: the per-diem rate is [2.70 + floor(seniorityYears / 2) * 0.05] on
    an international trip and [2.20 + floor(seniorityYears / 2) * 0.05]
    otherwise; for a whole number [n] of years the floor is the integer
    quotient [n / 2]. *)
Theorem perdiem_formula (v : FormValues) :
  perdiem (calculateTripValue v)
  = (if internationalTrip v
     then 2.7 + JS.Math_floor (seniorityYears v / 2) * 0.05
     else 2.2 + JS.Math_floor (seniorityYears v / 2) * 0.05)
  /\ (forall n : Z,
        (0 <= n < 2 ^ 53)%Z -> seniorityYears v = JS.of_Z n ->
        perdiem (calculateTripValue v)
        = if internationalTrip v
          then 2.7 + JS.of_Z (n / 2) * 0.05
          else 2.2 + JS.of_Z (n / 2) * 0.05).
Proof.
  split; [reflexivity|].
  intros n Hn Hs. unfold calculateTripValue. cbn [perdiem].
  rewrite Hs, floor_half_of_Z by exact Hn. reflexivity.
Qed.

Lemma perdiem_formula_witness :
  (0 <= 10 < 2 ^ 53)%Z /\ seniorityYears scenarioB = JS.of_Z 10
  /\ perdiem (calculateTripValue scenarioB) = 2.7 + JS.of_Z 5 * 0.05.
Proof.
  assert (H : (0 <= 10 < 2 ^ 53)%Z) by (split; [lia|reflexivity]).
  split; [exact H|]. split; [reflexivity|].
  exact (proj2 (perdiem_formula scenarioB) 10%Z H eq_refl).
Defined.

(** C3: for a Purser the position credit is [credit] times the multiplier
    of the aircraft group and the region, and [0] for any other aircraft
    or none. *)
Theorem purser_position_credit (v : FormValues) :
  position v = Purser ->
  let pc := positionCredit (calculateTripValue v) in
  let regional := isMexicoCaribbean v in
  (forall a, In a ["A319"; "A320"; "B737"]%string -> aircraft v = Some a ->
     pc = if regional then credit v * 2 else credit v * 1)
  /\ (forall a, In a ["B737-800"; "B737-900"; "B757"]%string ->
      aircraft v = Some a ->
      pc = if regional then credit v * 3 else credit v * 2)
  /\ (aircraft v = Some "widebody"%string ->
      pc = if regional then credit v * 4 else credit v * 3)
  /\ ((forall a, aircraft v = Some a -> ~ In a (map fst aircraftOptions)) ->
      pc = 0).
Proof.
  intros Hp. cbv zeta. unfold calculateTripValue. cbn [positionCredit].
  rewrite Hp. repeat split.
  - intros a Ha E. rewrite E. simpl in Ha.
    repeat destruct Ha as [Ha|Ha]; try contradiction; subst a; reflexivity.
  - intros a Ha E. rewrite E. simpl in Ha.
    repeat destruct Ha as [Ha|Ha]; try contradiction; subst a; reflexivity.
  - intros E. rewrite E. reflexivity.
  - intros Hn. destruct (aircraft v) as [a|]; [|reflexivity].
    specialize (Hn a eq_refl). simpl in Hn.
    assert (N : forall s, In s (map fst aircraftOptions) -> String.eqb a s = false).
    { intros s Hs. apply String.eqb_neq. intros ->. apply Hn. exact Hs. }
    assert (E : JS.string_or (Some a) "" = a) by (destruct a; reflexivity).
    rewrite E. unfold JS.includes, JS.strict_eq_string. simpl.
    rewrite !N by (simpl; tauto). reflexivity.
Qed.

Lemma purser_position_credit_witness :
  position scenarioB = Purser
  /\ positionCredit (calculateTripValue scenarioB) = credit scenarioB * 3.
Proof.
  split; [reflexivity|].
  apply (purser_position_credit scenarioB eq_refl) with (a := "B757"%string).
  - simpl. tauto.
  - reflexivity.
Defined.

(** C4: for a Galley the position credit is [hoursInWidebody] when it is
    set and [0] when it is not, whatever [credit], the region and the
    aircraft are.  Equality with [hoursInWidebody] is equality of numbers
    ([===]); the two are the same double unless [hoursInWidebody] is [-0],
    for which the code gives [0]. *)
Theorem galley_position_credit (v : FormValues) :
  position v = Galley -> validated v = true ->
  let pc := positionCredit (calculateTripValue v) in
  (forall h, hoursInWidebody v = Some h -> (pc =? h) = true)
  /\ (forall h, hoursInWidebody v = Some h -> JS.truthy h = true -> pc = h)
  /\ (hoursInWidebody v = None -> pc = 0)
  /\ (forall v', position v' = Galley ->
        hoursInWidebody v' = hoursInWidebody v ->
        positionCredit (calculateTripValue v') = pc).
Proof.
  intros Hp V. cbv zeta. unfold calculateTripValue. cbn [positionCredit].
  rewrite Hp.
  destruct (validated_fields v V) as (_ & _ & _ & _ & _ & Hh).
  repeat split.
  - intros h E. rewrite E. simpl. specialize (Hh h E).
    apply nonneg_not_nan in Hh.
    unfold JS.truthy. rewrite Hh, orb_false_r.
    unfold PrimFloat.is_nan in Hh. apply negb_false_iff in Hh.
    destruct (PrimFloat.is_zero h) eqn:Z; simpl; [|exact Hh].
    unfold PrimFloat.is_zero in Z.
    rewrite FloatAxioms.eqb_spec in Z |- *.
    change (Prim2SF zero) with (S754_zero false) in Z.
    change (Prim2SF 0) with (S754_zero false).
    destruct (Prim2SF h) as [s|s| |s m e]; try destruct s;
      try reflexivity; discriminate.
  - intros h E T. rewrite E. simpl. rewrite T. reflexivity.
  - intros E. rewrite E. reflexivity.
  - intros v' Hp' E. rewrite Hp', E. reflexivity.
Qed.

Lemma galley_position_credit_witness :
  position scenarioC = Galley /\ validated scenarioC = true
  /\ positionCredit (calculateTripValue scenarioC) = 12.
Proof.
  split; [reflexivity|]. split; [reflexivity|].
  apply (galley_position_credit scenarioC eq_refl eq_refl); reflexivity.
Defined.




(** ** The properties of the schema *)

(** C6: a negative value under any of the six numeric keys makes the parse
    fail, and the key gets its own [too_small] issue with its message,
    whatever the other keys hold: every violating key is reported by the
    same call, each with exactly one issue. *)
Theorem negative_fields_all_reported
    (S : string -> JS.number) (raw : gmap string JsValue) (key msg : string) :
  In (key, msg) numericKeys ->
  (Zod.Number S (Zod.prop raw key) <? 0) = true ->
  Zod.success (formSchema S raw) = false
  /\ Zod.issues_at key (Zod.issues_of (formSchema S raw))
     = [{| Zod.code := Zod.too_small; Zod.path := key; Zod.message := msg |}].
Proof.
  intros Hin Hneg.
  assert (E : Zod.issues_at key (Zod.issues_of (formSchema S raw))
              = [{| Zod.code := Zod.too_small; Zod.path := key;
                    Zod.message := msg |}]).
  { rewrite numeric_key_issues with (1 := Hin). unfold numericIssues.
    rewrite Hneg, (ltb_zero_not_nan _ Hneg).
    destruct (String.eqb key "hoursInWidebody" && isUndefined (Zod.prop raw key))
      eqn:U; [|reflexivity].
    apply andb_true_iff in U as [_ U].
    destruct (Zod.prop raw key); try discriminate U. discriminate Hneg. }
  split; [|exact E].
  rewrite formSchema_success_issues.
  destruct (Zod.issues_of (formSchema S raw)); [discriminate E|reflexivity].
Qed.

Lemma negative_fields_all_reported_witness :
  In ("tafb"%string, "TAFB must be a positive number"%string) numericKeys
  /\ (Zod.Number noNumericStrings (Zod.prop rawNegatives "tafb") <? 0) = true
  /\ Zod.success (formSchema noNumericStrings rawNegatives) = false
  /\ Zod.issues_at "tafb" (Zod.issues_of (formSchema noNumericStrings rawNegatives))
     = [{| Zod.code := Zod.too_small; Zod.path := "tafb";
           Zod.message := "TAFB must be a positive number" |}].
Proof.
  assert (Hin : In ("tafb"%string, "TAFB must be a positive number"%string)
                   numericKeys) by (simpl; tauto).
  split; [exact Hin|]. split; [reflexivity|].
  apply (negative_fields_all_reported noNumericStrings rawNegatives _ _ Hin).
  reflexivity.
Defined.

(** The three negative numbers of one submission are reported together,
    next to the issue of another key. *)
Lemma negatives_reported_together :
  map Zod.path (Zod.issues_of (formSchema noNumericStrings rawNegatives))
  = ["seniorityYears"; "tafb"; "aircraft"; "hoursInWidebody"]%string.
Proof. reflexivity. Qed.

(** C7, as stated, fails: a value that does not coerce to a number is
    reported under its key, but with the message of zod's type check, not
    with the message given to [min]. *)
Lemma coercion_failure_message :
  PrimFloat.is_nan
    (Zod.Number noNumericStrings (Zod.prop rawNotANumber "seniorityYears")) = true
  /\ Zod.issues_at "seniorityYears"
       (Zod.issues_of (formSchema noNumericStrings rawNotANumber))
     = [{| Zod.code := Zod.invalid_type; Zod.path := "seniorityYears";
           Zod.message := "Expected number, received nan" |}]
  /\ Zod.issues_at "tafb"
       (Zod.issues_of (formSchema noNumericStrings rawNotANumber))
     = [{| Zod.code := Zod.invalid_type; Zod.path := "tafb";
           Zod.message := "Expected number, received nan" |}]
  /\ String.eqb "Expected number, received nan"
                "Seniority years must be a positive number" = false.
Proof. repeat split; reflexivity. Qed.

(** C7, amended: for each numeric key the issues under the key are those
    of [numericIssues]: none when the optional key is absent; otherwise
    one [invalid_type] issue with the message of the type check when the
    coerced value is [NaN], one [too_small] issue with the message of the
    key when it is below zero, and none in any other case; zero raises
    none. *)
Theorem numeric_field_issues
    (S : string -> JS.number) (raw : gmap string JsValue) (key msg : string) :
  In (key, msg) numericKeys ->
  Zod.issues_at key (Zod.issues_of (formSchema S raw))
  = numericIssues S raw key msg
  /\ (Zod.Number S (Zod.prop raw key) = 0 ->
      Zod.issues_at key (Zod.issues_of (formSchema S raw)) = []).
Proof.
  intros Hin. rewrite numeric_key_issues with (1 := Hin).
  split; [reflexivity|].
  intros Z. unfold numericIssues. rewrite Z.
  destruct (String.eqb key "hoursInWidebody" && isUndefined (Zod.prop raw key));
    reflexivity.
Qed.

Lemma numeric_field_issues_witness :
  In ("hourlyRate"%string, "Hourly rate must be a positive number"%string)
     numericKeys
  /\ Zod.Number noNumericStrings (Zod.prop rawNegatives "hourlyRate") = 0
  /\ Zod.issues_at "hourlyRate"
       (Zod.issues_of (formSchema noNumericStrings rawNegatives)) = [].
Proof.
  assert (Hin : In ("hourlyRate"%string,
                    "Hourly rate must be a positive number"%string)
                   numericKeys) by (simpl; tauto).
  split; [exact Hin|]. split; [reflexivity|].
  apply (numeric_field_issues noNumericStrings rawNegatives _ _ Hin).
  reflexivity.
Defined.

(** C8: leaving out [aircraft], [hoursInWidebody] or both never raises an
    issue: the issues of the submission without them are the issues of
    the other keys, whatever [position] is, and the parse succeeds exactly
    when no other key raises one. *)
Theorem optional_keys_never_fail
    (S : string -> JS.number) (raw : gmap string JsValue) :
  let all := Zod.issues_of (formSchema S raw) in
  let noAircraft := formSchema S (delete "aircraft" raw) in
  let noHours := formSchema S (delete "hoursInWidebody" raw) in
  let neither := formSchema S (delete "aircraft" (delete "hoursInWidebody" raw)) in
  Zod.issues_of noAircraft = Zod.issues_off "aircraft" all
  /\ Zod.issues_of noHours = Zod.issues_off "hoursInWidebody" all
  /\ Zod.issues_of neither
     = Zod.issues_off "aircraft" (Zod.issues_off "hoursInWidebody" all)
  /\ Zod.success noAircraft
     = forallb (fun i => String.eqb (Zod.path i) "aircraft") all
  /\ Zod.success noHours
     = forallb (fun i => String.eqb (Zod.path i) "hoursInWidebody") all
  /\ Zod.success neither
     = forallb (fun i => String.eqb (Zod.path i) "aircraft"
                         || String.eqb (Zod.path i) "hoursInWidebody") all.
Proof.
  cbv zeta.
  rewrite !formSchema_success_issues.
  rewrite (formSchema_omit S (delete "hoursInWidebody" raw) "aircraft")
    by (left; reflexivity).
  rewrite (formSchema_omit S raw "aircraft") by (left; reflexivity).
  rewrite (formSchema_omit S raw "hoursInWidebody") by (right; reflexivity).
  rewrite !no_issue_off, forallb_issues_off. repeat split; reflexivity.
Qed.

(** ** Signs and sizes of the result *)

(** C9, as stated, fails: [Infinity] passes [min(0)], and with it the
    per-diem rate is infinite, so zero hours away give [0 * Infinity], which
    is [NaN]; neither the per-diem value nor the total is [>= 0] then. *)
Lemma endless_seniority_not_a_number :
  formSchema noNumericStrings rawEndlessSeniority = Zod.Success endlessSeniority
  /\ validated endlessSeniority = true
  /\ perdiem (calculateTripValue endlessSeniority) = infinity
  /\ PrimFloat.is_nan (perdiemValue (calculateTripValue endlessSeniority)) = true
  /\ JS.nonneg (perdiemValue (calculateTripValue endlessSeniority)) = false
  /\ JS.nonneg (totalTripValue (calculateTripValue endlessSeniority)) = false.
Proof. repeat split; reflexivity. Qed.

(** C9, amended: when every number of a validated record is finite, every
    field of the result is [>= 0] (an overflow gives [Infinity], never
    [NaN]) and the per-diem rate is at least 2.20. *)
Theorem result_nonnegative (v : FormValues) :
  validated v = true -> allFinite v = true ->
  let r := calculateTripValue v in
  JS.nonneg (perdiem r) = true
  /\ JS.nonneg (perdiemValue r) = true
  /\ JS.nonneg (positionCredit r) = true
  /\ JS.nonneg (internationalCredit r) = true
  /\ JS.nonneg (nightPayCredit r) = true
  /\ JS.nonneg (totalTripValue r) = true
  /\ (2.2 <=? perdiem r) = true.
Proof.
  intros V F. cbv zeta.
  destruct (validated_fields v V) as (Hs & Ht & Hr & Hc & Hn & Hh).
  destruct (allFinite_fields v F) as (Fs & Ft & Fr & Fc & Fn).
  destruct (perdiem_bounds v Hs Fs) as (Pn & Pf & Pl).
  pose proof (positionCredit_nonneg v V Fc) as PC.
  assert (PV : JS.nonneg (perdiemValue (calculateTripValue v)) = true)
    by (apply mul_nonneg; assumption).
  assert (IC : JS.nonneg (internationalCredit (calculateTripValue v)) = true).
  { unfold calculateTripValue. cbn [internationalCredit].
    destruct (internationalTrip v); [|reflexivity].
    apply mul_nonneg; auto. }
  assert (NC : JS.nonneg (nightPayCredit (calculateTripValue v)) = true)
    by (apply half_nonneg; assumption).
  repeat split; try assumption.
  change (totalTripValue (calculateTripValue v))
    with (hourlyRate v * credit v + perdiemValue (calculateTripValue v)
          + positionCredit (calculateTripValue v)
          + internationalCredit (calculateTripValue v)
          + nightPayCredit (calculateTripValue v)).
  repeat apply add_nonneg; try assumption.
  apply mul_nonneg; assumption.
Qed.

Lemma result_nonnegative_witness :
  validated scenarioB = true /\ allFinite scenarioB = true
  /\ JS.nonneg (totalTripValue (calculateTripValue scenarioB)) = true
  /\ (2.2 <=? perdiem (calculateTripValue scenarioB)) = true.
Proof.
  split; [reflexivity|]. split; [reflexivity|].
  pose proof (result_nonnegative scenarioB eq_refl eq_refl)
    as (_ & _ & _ & _ & _ & T & P).
  split; [exact T|exact P].
Defined.

(** ** Which inputs a position reads *)

(** C10: for a Speaker the whole result is the same whatever [aircraft],
    the region flag and [hoursInWidebody] are; for any position but
    Purser it is the same whatever [aircraft] and the region flag are. *)
Theorem speaker_ignores_position_inputs
    (v : FormValues) (a : option string) (r : bool) (h : option JS.number) :
  (position v = Speaker ->
   calculateTripValue (withPositionInputs a r h v) = calculateTripValue v)
  /\ (position v <> Purser ->
      calculateTripValue (withPositionInputs a r (hoursInWidebody v) v)
      = calculateTripValue v).
Proof.
  unfold calculateTripValue.
  cbn [internationalTrip seniorityYears tafb hourlyRate credit position
       isMexicoCaribbean nightPayHours aircraft hoursInWidebody
       withPositionInputs].
  split; intros Hp.
  - rewrite Hp. reflexivity.
  - destruct (position v) eqn:E; [reflexivity|reflexivity|congruence].
Qed.

Lemma speaker_ignores_position_inputs_witness :
  position scenarioA = Speaker
  /\ calculateTripValue
       (withPositionInputs (Some "widebody"%string) true (Some 12) scenarioA)
     = calculateTripValue scenarioA.
Proof.
  split; [reflexivity|].
  exact (proj1 (speaker_ignores_position_inputs
                  scenarioA (Some "widebody"%string) true (Some 12)) eq_refl).
Defined.

(** ** Further properties of the schema *)

Import FormFacts.

(** X1: what the schema hands on.  When the parse succeeds, every number
    of the record is [>= 0], and under every key of the shape the record
    holds what the schema makes of the submitted value: [Number(x)] under
    a numeric key (an absent [hoursInWidebody] stays absent) and the
    submitted value itself, uncoerced, under the boolean keys, [position]
    and [aircraft]. *)
Theorem parsed_values_from_raw
    (S : string -> JS.number) (raw : gmap string JsValue) (v : FormValues) :
  formSchema S raw = Zod.Success v ->
  validated v = true
  /\ forall key, In key schemaKeys ->
       Zod.prop (toRaw v) key = coerced S key (Zod.prop raw key).
Proof.
  intros H. split.
  - apply (formSchema_validated S raw), H.
  - intros key Hk. apply formSchema_coerced; assumption.
Qed.

Lemma parsed_values_from_raw_witness :
  formSchema emptyIsZero rawClearedTafb = Zod.Success untouched
  /\ validated untouched = true
  /\ Zod.prop (toRaw untouched) "tafb"
     = coerced emptyIsZero "tafb" (Zod.prop rawClearedTafb "tafb").
Proof.
  assert (H : formSchema emptyIsZero rawClearedTafb = Zod.Success untouched)
    by (vm_compute; reflexivity).
  split; [exact H|].
  destruct (parsed_values_from_raw emptyIsZero rawClearedTafb untouched H)
    as [V K].
  split; [exact V|]. apply K. simpl. tauto.
Defined.

(** X2: every object of the type [FormValues] whose numbers are all
    [>= 0] passes the schema and comes out as it went in, whatever its
    position, its flags and its aircraft are. *)
Theorem typed_values_accepted (S : string -> JS.number) (v : FormValues) :
  validated v = true -> formSchema S (toRaw v) = Zod.Success v.
Proof. apply formSchema_toRaw. Qed.

Lemma typed_values_accepted_witness :
  validated scenarioC = true
  /\ formSchema noNumericStrings (toRaw scenarioC) = Zod.Success scenarioC.
Proof.
  split; [reflexivity|].
  apply (typed_values_accepted noNumericStrings scenarioC). reflexivity.
Defined.

(** X3: parsing is idempotent.  What the schema has let through passes it
    again unchanged, and no string is left in it: the second parse does
    not depend on how strings are read as numbers. *)
Theorem parse_idempotent
    (S S' : string -> JS.number) (raw : gmap string JsValue) (v : FormValues) :
  formSchema S raw = Zod.Success v ->
  formSchema S' (toRaw v) = Zod.Success v.
Proof.
  intros H. apply formSchema_toRaw, (formSchema_validated S raw), H.
Qed.

Lemma parse_idempotent_witness :
  formSchema emptyIsZero rawClearedTafb = Zod.Success untouched
  /\ formSchema noNumericStrings (toRaw untouched) = Zod.Success untouched.
Proof.
  assert (H : formSchema emptyIsZero rawClearedTafb = Zod.Success untouched)
    by (vm_compute; reflexivity).
  split; [exact H|].
  exact (parse_idempotent emptyIsZero noNumericStrings rawClearedTafb untouched H).
Defined.

(** X4: a submission that lacks one of the eight keys that are not
    optional fails, and the key gets exactly one [invalid_type] issue:
    "Required" for the two booleans and for [position], and "Expected
    number, received nan" for the five numbers, since a missing number is
    coerced to [NaN] first. *)
Theorem missing_required_key
    (S : string -> JS.number) (raw : gmap string JsValue) (key msg : string) :
  In (key, msg) requiredKeys -> raw !! key = None ->
  Zod.success (formSchema S raw) = false
  /\ Zod.issues_at key (Zod.issues_of (formSchema S raw))
     = [{| Zod.code := Zod.invalid_type; Zod.path := key; Zod.message := msg |}].
Proof.
  intros Hin Hm.
  assert (E : Zod.issues_at key (Zod.issues_of (formSchema S raw))
              = [{| Zod.code := Zod.invalid_type; Zod.path := key;
                    Zod.message := msg |}]).
  { simpl in Hin.
    repeat destruct Hin as [Hin|Hin]; try contradiction;
      injection Hin as <- <-; isolate_key;
      unfold Zod.field, Zod.prop; rewrite Hm; reflexivity. }
  split; [|exact E]. apply failure_of_issue with (1 := E).
Qed.

Lemma missing_required_key_witness :
  In ("position"%string, "Required"%string) requiredKeys
  /\ delete "position" defaultValues !! "position" = None
  /\ Zod.success (formSchema noNumericStrings (delete "position" defaultValues))
     = false
  /\ Zod.issues_at "position"
       (Zod.issues_of
          (formSchema noNumericStrings (delete "position" defaultValues)))
     = [{| Zod.code := Zod.invalid_type; Zod.path := "position";
           Zod.message := "Required" |}].
Proof.
  assert (Hin : In ("position"%string, "Required"%string) requiredKeys)
    by (simpl; tauto).
  assert (Hm : delete "position" defaultValues !! "position" = None)
    by (vm_compute; reflexivity).
  split; [exact Hin|]. split; [exact Hm|].
  exact (missing_required_key noNumericStrings _ _ _ Hin Hm).
Defined.

(** X5: the keys that are not numbers are not coerced.  The two boolean
    keys accept a boolean and nothing else, [position] accepts the three
    names and nothing else (another string is an [invalid_enum_value]
    issue, any other value an [invalid_type] issue), and [aircraft]
    accepts every string, also one the form does not offer and the empty
    one, or no value at all. *)
Theorem non_numeric_key_issues
    (S : string -> JS.number) (raw : gmap string JsValue) :
  let issues := Zod.issues_of (formSchema S raw) in
  (forall key, In key ["internationalTrip"; "isMexicoCaribbean"]%string ->
     Zod.issues_at key issues
     = match Zod.prop raw key with
       | JBool _ => []
       | x => [wrongType key "boolean" x]
       end)
  /\ Zod.issues_at "position" issues
     = match Zod.prop raw "position" with
       | JString s =>
           if existsb (String.eqb s) (map positionName [Speaker; Galley; Purser])
           then []
           else [{| Zod.code := Zod.invalid_enum_value; Zod.path := "position";
                    Zod.message :=
                      String.append
                        "Invalid enum value. Expected 'Speaker' | 'Galley' | 'Purser'"
                        (String.append ", received '" (String.append s "'")) |}]
       | x => [wrongType "position" "'Speaker' | 'Galley' | 'Purser'" x]
       end
  /\ Zod.issues_at "aircraft" issues
     = match Zod.prop raw "aircraft" with
       | JUndefined | JString _ => []
       | x => [wrongType "aircraft" "string" x]
       end.
Proof.
  cbv zeta. split; [|split].
  - intros key [<-|[<-|[]]].
    + rewrite issues_at_internationalTrip. apply boolean_issues.
    + rewrite issues_at_isMexicoCaribbean. apply boolean_issues.
  - rewrite issues_at_position. apply position_issues.
  - rewrite issues_at_aircraft. apply aircraft_issues.
Qed.

(** X6: keys the schema does not know are ignored.  Adding, changing or
    removing a property under any other name than the ten of the shape
    changes neither the parsed record nor the issues. *)
Theorem unknown_keys_ignored
    (S : string -> JS.number) (raw : gmap string JsValue) (k : string)
    (x : JsValue) :
  ~ In k schemaKeys ->
  formSchema S (<[k := x]> raw) = formSchema S raw
  /\ formSchema S (delete k raw) = formSchema S raw.
Proof.
  intros Hk. split; apply formSchema_props; intros key Hin.
  - apply prop_insert_ne. intros ->. exact (Hk Hin).
  - apply prop_delete_ne. intros ->. exact (Hk Hin).
Qed.

Lemma unknown_keys_ignored_witness :
  ~ In "notes"%string schemaKeys
  /\ formSchema noNumericStrings rawWithNotes
     = formSchema noNumericStrings (toRaw scenarioB).
Proof.
  assert (Hk : ~ In "notes"%string schemaKeys)
    by (simpl; intuition discriminate).
  split; [exact Hk|].
  exact (proj1 (unknown_keys_ignored noNumericStrings (toRaw scenarioB)
                  "notes" (JString "red-eye") Hk)).
Defined.

(** X7: the issues follow the shape.  The keys of the issues of one parse
    are keys of the schema, in the order of the shape and each at most
    once: a key never gets two issues, and there are never more than ten
    issues. *)
Theorem issues_follow_shape
    (S : string -> JS.number) (raw : gmap string JsValue) :
  let keys := map Zod.path (Zod.issues_of (formSchema S raw)) in
  sublist keys schemaKeys /\ NoDup keys /\ (length keys <= 10)%nat.
Proof.
  cbv zeta. pose proof (formSchema_paths S raw) as H.
  split; [exact H|]. split.
  - apply sublist_NoDup with (2 := H).
    apply (bool_decide_unpack _). vm_compute. reflexivity.
  - apply sublist_length in H. exact H.
Qed.

(** X8: the issues under a key depend on the value under that key only.
    The schema has no check that looks at two keys: what [position] is
    never decides whether [aircraft] or [hoursInWidebody] is wanted. *)
Theorem key_issues_local
    (S : string -> JS.number) (raw raw' : gmap string JsValue) (key : string) :
  Zod.prop raw key = Zod.prop raw' key ->
  Zod.issues_at key (Zod.issues_of (formSchema S raw))
  = Zod.issues_at key (Zod.issues_of (formSchema S raw')).
Proof.
  intros H. rewrite !formSchema_issues. unfold Zod.issues_at.
  rewrite !List.filter_app.
  change (List.filter (fun i => String.eqb (Zod.path i) key))
    with (Zod.issues_at key).
  rewrite !issues_at_field.
  repeat (f_equal; [apply field_local, H|]). apply field_local, H.
Qed.

Lemma key_issues_local_witness :
  Zod.prop rawNegatives "tafb"
  = Zod.prop (<["position" := JNull]> rawNegatives) "tafb"
  /\ Zod.issues_at "tafb" (Zod.issues_of (formSchema noNumericStrings rawNegatives))
     = Zod.issues_at "tafb"
         (Zod.issues_of
            (formSchema noNumericStrings (<["position" := JNull]> rawNegatives))).
Proof.
  assert (H : Zod.prop rawNegatives "tafb"
              = Zod.prop (<["position" := JNull]> rawNegatives) "tafb")
    by (vm_compute; reflexivity).
  split; [exact H|].
  exact (key_issues_local noNumericStrings _ _ "tafb" H).
Defined.

(** X9: the numeric keys take more than numbers.  [null] and [false] are
    read as [0] and [true] as [1], without an issue; so is the empty
    string, which is what a cleared number input holds, since
    [Number("")] is [0]. *)
Theorem numeric_coercion_lenient
    (S : string -> JS.number) (raw : gmap string JsValue) (key msg : string) :
  In (key, msg) numericKeys ->
  let reads n :=
    Zod.issues_at key (Zod.issues_of (formSchema S raw)) = []
    /\ forall v, formSchema S raw = Zod.Success v ->
                 Zod.prop (toRaw v) key = JNumber n in
  (Zod.prop raw key = JNull -> reads 0)
  /\ (forall b, Zod.prop raw key = JBool b -> reads (if b then 1 else 0))
  /\ (Zod.prop raw key = JString EmptyString -> S EmptyString = 0 -> reads 0).
Proof.
  intros Hin. cbv zeta.
  assert (Hk : In key schemaKeys /\ existsb (String.eqb key) (map fst numericKeys) = true).
  { simpl in Hin.
    repeat destruct Hin as [Hin|Hin]; try contradiction;
      injection Hin as <- <-; (split; [simpl; tauto|reflexivity]). }
  destruct Hk as [Hk Hn].
  assert (R : forall n,
             Zod.Number S (Zod.prop raw key) = n ->
             isUndefined (Zod.prop raw key) = false ->
             PrimFloat.is_nan n = false -> (n <? 0) = false ->
             Zod.issues_at key (Zod.issues_of (formSchema S raw)) = []
             /\ forall v, formSchema S raw = Zod.Success v ->
                          Zod.prop (toRaw v) key = JNumber n).
  { intros n En Eu Nn Nb. split.
    - rewrite numeric_key_issues with (1 := Hin). unfold numericIssues.
      rewrite En, Eu, andb_false_r, Nn, Nb. reflexivity.
    - intros v Hv. rewrite (formSchema_coerced S raw v key Hv Hk).
      unfold coerced. rewrite Hn, Eu, andb_false_r, En. reflexivity. }
  split; [|split].
  - intros E. apply R; rewrite ?E; reflexivity.
  - intros b E. apply R; rewrite ?E; destruct b; reflexivity.
  - intros E HS. apply R; rewrite ?E, ?HS; try reflexivity. exact HS.
Qed.

Lemma numeric_coercion_lenient_witness :
  In ("tafb"%string, "TAFB must be a positive number"%string) numericKeys
  /\ Zod.prop rawClearedTafb "tafb" = JString EmptyString
  /\ emptyIsZero EmptyString = 0
  /\ Zod.issues_at "tafb" (Zod.issues_of (formSchema emptyIsZero rawClearedTafb))
     = [].
Proof.
  assert (Hin : In ("tafb"%string, "TAFB must be a positive number"%string)
                   numericKeys) by (simpl; tauto).
  assert (E : Zod.prop rawClearedTafb "tafb" = JString EmptyString)
    by (vm_compute; reflexivity).
  split; [exact Hin|]. split; [exact E|]. split; [reflexivity|].
  exact (proj1 (proj2 (proj2 (numeric_coercion_lenient emptyIsZero
                                rawClearedTafb _ _ Hin)) E eq_refl)).
Defined.

(** X10: the schema lets every aircraft through.  When a submission
    passes, it also passes with any string at all as [aircraft], whatever
    the position is, and the parsed record differs in [aircraft] only;
    for a Purser on an aircraft that is none of the seven the form offers
    the position credit is then [0], without any issue. *)
Theorem purser_unknown_aircraft
    (S : string -> JS.number) (raw : gmap string JsValue) (v : FormValues)
    (a : string) :
  formSchema S raw = Zod.Success v ->
  let v' := withPositionInputs (Some a) (isMexicoCaribbean v)
                               (hoursInWidebody v) v in
  formSchema S (<["aircraft" := JString a]> raw) = Zod.Success v'
  /\ (position v = Purser -> ~ In a (map fst aircraftOptions) ->
      positionCredit (calculateTripValue v') = 0).
Proof.
  intros H. cbv zeta. split.
  - apply formSchema_fields in H
      as (E1 & E2 & E3 & E4 & E5 & E6 & E7 & E8 & E9 & E10).
    apply formSchema_fields.
    cbn [internationalTrip seniorityYears tafb hourlyRate credit position
         isMexicoCaribbean nightPayHours aircraft hoursInWidebody
         withPositionInputs].
    unfold Zod.field in *.
    repeat match goal with
           | |- context [Zod.prop (<["aircraft" := ?x]> raw) ?k] =>
               first [rewrite (prop_insert_ne raw "aircraft" x k) by discriminate
                     |rewrite (prop_insert_eq raw "aircraft" x)]
           end.
    repeat split; assumption || reflexivity.
  - intros Hp Ha. apply purser_other_aircraft; [exact Hp|].
    intros a' E. injection E as <-. exact Ha.
Qed.

Lemma purser_unknown_aircraft_witness :
  formSchema noNumericStrings (toRaw scenarioB) = Zod.Success scenarioB
  /\ position scenarioB = Purser
  /\ ~ In "A380"%string (map fst aircraftOptions)
  /\ Zod.success (formSchema noNumericStrings rawPurserOnA380) = true
  /\ positionCredit
       (calculateTripValue
          (withPositionInputs (Some "A380"%string) true None scenarioB)) = 0.
Proof.
  assert (H : formSchema noNumericStrings (toRaw scenarioB)
              = Zod.Success scenarioB) by (vm_compute; reflexivity).
  assert (Ha : ~ In "A380"%string (map fst aircraftOptions))
    by (simpl; intuition discriminate).
  split; [exact H|]. split; [reflexivity|]. split; [exact Ha|].
  destruct (purser_unknown_aircraft noNumericStrings (toRaw scenarioB)
              scenarioB "A380" H) as [P C].
  split; [|exact (C eq_refl Ha)].
  unfold rawPurserOnA380. rewrite P. reflexivity.
Defined.

(** ** Further properties of the calculation *)

(** X11: every aircraft the form offers is one the Purser branch knows:
    for each of the seven options the position credit is [credit] times a
    whole multiplier between 1 and 3, and the regional flag raises the
    multiplier by exactly one. *)
Theorem offered_aircraft_recognised (o : string * string) :
  In o aircraftOptions ->
  exists m : Z,
    (1 <= m <= 3)%Z
    /\ forall v, position v = Purser -> aircraft v = Some (fst o) ->
         positionCredit (calculateTripValue v)
         = credit v * JS.of_Z (if isMexicoCaribbean v then m + 1 else m).
Proof.
  intros Hin. simpl in Hin.
  repeat destruct Hin as [Hin|Hin]; try contradiction; subst o;
    [exists 1%Z|exists 1%Z|exists 1%Z|exists 2%Z|exists 2%Z|exists 2%Z
    |exists 3%Z];
    (split; [lia|]; intros v Hp Ea;
     unfold calculateTripValue; cbn [positionCredit];
     rewrite Hp, Ea; destruct (isMexicoCaribbean v); reflexivity).
Qed.

Lemma offered_aircraft_recognised_witness :
  In ("widebody"%string, "Widebody"%string) aircraftOptions
  /\ exists m : Z,
       (1 <= m <= 3)%Z
       /\ forall v, position v = Purser -> aircraft v = Some "widebody"%string ->
            positionCredit (calculateTripValue v)
            = credit v * JS.of_Z (if isMexicoCaribbean v then m + 1 else m).
Proof.
  assert (Hin : In ("widebody"%string, "Widebody"%string) aircraftOptions)
    by (simpl; tauto).
  split; [exact Hin|].
  exact (offered_aircraft_recognised ("widebody"%string, "Widebody"%string) Hin).
Defined.



(** X13: for every finite seniority that is [>= 0] the per-diem rate is a
    finite number, and on an international trip it is at least 2.70. *)
Theorem perdiem_is_finite (v : FormValues) :
  JS.nonneg (seniorityYears v) = true -> JS.isFinite (seniorityYears v) = true ->
  JS.isFinite (perdiem (calculateTripValue v)) = true
  /\ (internationalTrip v = true ->
      (2.7 <=? perdiem (calculateTripValue v)) = true).
Proof.
  intros Hs Hf. split.
  - apply (perdiem_bounds v Hs Hf).
  - intros Hi. apply perdiem_international; assumption.
Qed.

Lemma perdiem_is_finite_witness :
  JS.nonneg (seniorityYears scenarioB) = true
  /\ JS.isFinite (seniorityYears scenarioB) = true
  /\ JS.isFinite (perdiem (calculateTripValue scenarioB)) = true
  /\ (2.7 <=? perdiem (calculateTripValue scenarioB)) = true.
Proof.
  split; [reflexivity|]. split; [reflexivity|].
  destruct (perdiem_is_finite scenarioB eq_refl eq_refl) as [F I].
  split; [exact F|exact (I eq_refl)].
Defined.

(** ** The form *)

(** X14: the calculation reads no field that the form does not show.  Two
    records that agree on the fields rendered for the position of the
    first ([aircraft] and the regional flag only for a Purser,
    [hoursInWidebody] only for a Galley) have the same result: a value
    left in a hidden field never changes what is calculated. *)
Theorem hidden_fields_not_read (v v' : FormValues) :
  (forall k, In k (renderedFields (Zod.prop (toRaw v) "position")) ->
             Zod.prop (toRaw v) k = Zod.prop (toRaw v') k) ->
  calculateTripValue v = calculateTripValue v'.
Proof.
  intros H.
  destruct (prop_toRaw v) as (P1 & P2 & P3 & P4 & P5 & P6 & P7 & P8 & P9 & P10).
  destruct (prop_toRaw v') as (Q1 & Q2 & Q3 & Q4 & Q5 & Q6 & Q7 & Q8 & Q9 & Q10).
  rewrite P6 in H.
  assert (In "internationalTrip" (renderedFields (JString (positionName (position v))))
          /\ In "seniorityYears" (renderedFields (JString (positionName (position v))))
          /\ In "tafb" (renderedFields (JString (positionName (position v))))
          /\ In "hourlyRate" (renderedFields (JString (positionName (position v))))
          /\ In "credit" (renderedFields (JString (positionName (position v))))
          /\ In "position" (renderedFields (JString (positionName (position v))))
          /\ In "nightPayHours" (renderedFields (JString (positionName (position v)))))
    as (I1 & I2 & I3 & I4 & I5 & I6 & I8)
    by (destruct (position v); simpl; tauto).
  apply H in I1, I2, I3, I4, I5, I6, I8.
  rewrite P1, Q1 in I1. rewrite P2, Q2 in I2. rewrite P3, Q3 in I3.
  rewrite P4, Q4 in I4. rewrite P5, Q5 in I5. rewrite P6, Q6 in I6.
  rewrite P8, Q8 in I8.
  injection I1 as I1. injection I2 as I2. injection I3 as I3.
  injection I4 as I4. injection I5 as I5. injection I8 as I8.
  assert (E6 : position v = position v')
    by (destruct (position v), (position v'); try reflexivity; discriminate I6).
  unfold calculateTripValue.
  rewrite <- I1, <- I2, <- I3, <- I4, <- I5, <- I8, <- E6.
  destruct (position v) eqn:Ep; try reflexivity.
  - assert (I10 : Zod.prop (toRaw v) "hoursInWidebody"
                  = Zod.prop (toRaw v') "hoursInWidebody")
      by (apply H; simpl; tauto).
    rewrite P10, Q10 in I10.
    assert (E10 : hoursInWidebody v = hoursInWidebody v')
      by (destruct (hoursInWidebody v), (hoursInWidebody v');
          try reflexivity; try discriminate I10; injection I10 as ->;
          reflexivity).
    rewrite E10. reflexivity.
  - assert (I7 : Zod.prop (toRaw v) "isMexicoCaribbean"
                 = Zod.prop (toRaw v') "isMexicoCaribbean")
      by (apply H; simpl; tauto).
    assert (I9 : Zod.prop (toRaw v) "aircraft" = Zod.prop (toRaw v') "aircraft")
      by (apply H; simpl; tauto).
    rewrite P7, Q7 in I7. rewrite P9, Q9 in I9. injection I7 as I7.
    assert (E9 : aircraft v = aircraft v')
      by (destruct (aircraft v), (aircraft v');
          try reflexivity; try discriminate I9; injection I9 as ->;
          reflexivity).
    rewrite <- I7, <- E9. reflexivity.
Qed.

Lemma hidden_fields_not_read_witness :
  (forall k, In k (renderedFields (Zod.prop (toRaw scenarioC) "position")) ->
             Zod.prop (toRaw scenarioC) k
             = Zod.prop (toRaw (withPositionInputs None false (Some 12)
                                                   scenarioC)) k)
  /\ calculateTripValue scenarioC
     = calculateTripValue (withPositionInputs None false (Some 12) scenarioC).
Proof.
  assert (H : forall k,
             In k (renderedFields (Zod.prop (toRaw scenarioC) "position")) ->
             Zod.prop (toRaw scenarioC) k
             = Zod.prop (toRaw (withPositionInputs None false (Some 12)
                                                   scenarioC)) k).
  { intros k Hk. vm_compute in Hk.
    repeat destruct Hk as [<-|Hk]; try contradiction; vm_compute; reflexivity. }
  split; [exact H|].
  exact (hidden_fields_not_read scenarioC _ H).
Defined.

(** X15: the aircraft button shows the label of the option that was
    chosen.  The values of the seven options are distinct and none is
    empty, so after [form.setValue("aircraft", aircraft.value)] the lookup
    [aircraftOptions.find(...)?.label] finds that very option. *)
Theorem aircraft_button_label (o : string * string) :
  In o aircraftOptions -> aircraftButtonText (Some (fst o)) = Some (snd o).
Proof.
  intros Hin. simpl in Hin.
  repeat destruct Hin as [<-|Hin]; try contradiction; reflexivity.
Qed.

Lemma aircraft_button_label_witness :
  In ("widebody"%string, "Widebody"%string) aircraftOptions
  /\ aircraftButtonText (Some "widebody"%string) = Some "Widebody"%string.
Proof.
  assert (Hin : In ("widebody"%string, "Widebody"%string) aircraftOptions)
    by (simpl; tauto).
  split; [exact Hin|].
  exact (aircraft_button_label ("widebody"%string, "Widebody"%string) Hin).
Defined.

(** X16: what the results panel holds.  After any sequence of changes and
    submissions, starting from the untouched form, [results] is empty
    exactly when no submission has passed the schema; otherwise it is the
    calculation for the values of the last submission that passed, a
    record whose numbers are all [>= 0].  A submission that fails and a
    change of a field leave the results as they were. *)
Theorem results_from_valid_submissions
    (S : string -> JS.number) (es : list Event) :
  match results (run S es initialState) with
  | Some r =>
      exists es1 es2 v,
        es = (es1 ++ Submit :: es2)%list
        /\ formSchema S (fieldValues (run S es1 initialState)) = Zod.Success v
        /\ validated v = true
        /\ r = calculateTripValue v
        /\ forall es3 es4,
             es2 = (es3 ++ Submit :: es4)%list ->
             Zod.success
               (formSchema S (fieldValues
                  (run S (es1 ++ Submit :: es3)%list initialState))) = false
  | None =>
      forall es1 es2,
        es = (es1 ++ Submit :: es2)%list ->
        Zod.success (formSchema S (fieldValues (run S es1 initialState)))
        = false
  end.
Proof.
  pose proof (results_run S initialState es eq_refl) as H.
  destruct (results (run S es initialState)) as [r|]; [|exact H].
  destruct H as (es1 & es2 & v & E & P & R & L).
  exists es1, es2, v. split; [exact E|]. split; [exact P|].
  split; [apply (formSchema_validated S _ v P)|]. split; [exact R|exact L].
Qed.

(** The sample session: the first submission fails, the second gives the
    results, the third fails and leaves them. *)
Example session_results :
  option_map totalTripValue (results (run noNumericStrings session initialState))
  = Some 12.
Proof. vm_compute. reflexivity. Qed.

(** X17: the default values pass the schema as they are, without an
    aircraft, and submitting the untouched form gives the domestic base
    rate 2.20 and a total of [0]. *)
Theorem untouched_form_submits (S : string -> JS.number) :
  formSchema S defaultValues = Zod.Success untouched
  /\ results (step S initialState Submit)
     = Some {| perdiem := 2.2; perdiemValue := 0; positionCredit := 0;
               internationalCredit := 0; nightPayCredit := 0;
               totalTripValue := 0 |}.
Proof.
  split; [vm_compute; reflexivity|].
  cbn [step]. rewrite handleSubmit_defaults. reflexivity.
Qed.

(** X18: the row of the international credit right after a submission.
    When the values of the form pass the schema, the panel shows the
    total and the breakdown of their calculation, the row "International
    Credit:" is there exactly when the trip is international, and when it
    is not there the amount it would show is [0]. *)
Theorem international_row_after_submit
    (S : string -> JS.number) (st : FormState) (v : FormValues) :
  formSchema S (fieldValues st) = Zod.Success v ->
  let r := calculateTripValue v in
  let rows := breakdown (JBool (internationalTrip v)) r in
  panel (step S st Submit) = Some (totalTripValue r, rows)
  /\ (In "International Credit:"%string (map fst rows)
      <-> internationalTrip v = true)
  /\ (internationalTrip v = false -> internationalCredit r = 0).
Proof.
  intros H. cbv zeta. split; [|split].
  - unfold panel. cbn [step]. unfold handleSubmit. rewrite H.
    cbn [onSubmit results fieldValues].
    apply formSchema_fields in H as (E1 & _).
    apply field_boolean in E1. rewrite E1. reflexivity.
  - unfold breakdown. cbn [truthyValue].
    destruct (internationalTrip v); simpl; split; intros I;
      try reflexivity; try discriminate; try tauto.
    repeat destruct I as [I|I]; try discriminate I; contradiction.
  - intros I. unfold calculateTripValue. cbn [internationalCredit].
    rewrite I. reflexivity.
Qed.

Lemma international_row_after_submit_witness :
  formSchema noNumericStrings (fieldValues scenarioBEntered)
  = Zod.Success scenarioB
  /\ panel (step noNumericStrings scenarioBEntered Submit)
     = Some (2009,
             [("Per Diem Rate:"%string, 2.9500000000000002);
              ("Per Diem Value:"%string, 59);
              ("International Credit:"%string, 60);
              ("Position Credit:"%string, 90);
              ("Night Pay Credit:"%string, 0)]).
Proof.
  assert (H : formSchema noNumericStrings (fieldValues scenarioBEntered)
              = Zod.Success scenarioB) by (vm_compute; reflexivity).
  split; [exact H|].
  exact (proj1 (international_row_after_submit noNumericStrings
                  scenarioBEntered scenarioB H)).
Defined.

(** Later the row follows the switch, not the results: once the switch
    is turned off after that submission, the row is gone, while the total
    still holds the 60 of the international credit. *)
Example international_row_follows_switch :
  panel (run noNumericStrings
           [Submit; Change "internationalTrip" (JBool false)] scenarioBEntered)
  = Some (2009,
          [("Per Diem Rate:"%string, 2.9500000000000002);
           ("Per Diem Value:"%string, 59);
           ("Position Credit:"%string, 90);
           ("Night Pay Credit:"%string, 0)]).
Proof. vm_compute. reflexivity. Qed.
